(** * LoopdUp orchestrator: decision, dialog-state and escalation engine

    A shallow embedding of the TypeScript sources of the orchestrator
    (slot parsers, intent decision engine, conversation state repository,
    service-flow dialog engine, escalation state machine, router and the
    staff-command part of the Chatwoot webhook), followed by the theorems
    that settle the specification's claims against that code.

    Conventions of the embedding.
    - A text that the code parses (guest message, stored slot value) is a
      [string] whose characters are read as the code points U+0000..U+00FF.
      On that alphabet [toLowerCase], [trim], [\s], [\d], [\w] and [\b] are
      exactly the JavaScript ones.  A pattern or synonym of the source that
      contains a character outside that alphabet can never match such a text
      and is written [never].
    - Fixed bot texts (notes, prompts) are only ever emitted, never parsed;
      they are kept as the bytes of the source file.
    - Calls to the chat platform are recorded, in order, in an effect log;
      the platform and the database are taken to answer every call.
    - A JavaScript exception is the outcome [Thrown]. *)

From Stdlib Require Import String Ascii List ZArith NArith Bool Lia Arith.
From Stdlib Require Import QArith.
From Stdlib Require Import DecimalString.
Import ListNotations.
Open Scope string_scope.
Open Scope Z_scope.

(* ------------------------------------------------------------------ *)
(** ** JavaScript strings and numbers *)
(* ------------------------------------------------------------------ *)

Module JS.

Definition code (a : ascii) : N := N_of_ascii a.

Definition in_range (lo hi : N) (a : ascii) : bool :=
  (lo <=? code a)%N && (code a <=? hi)%N.

Definition is_digit : ascii -> bool := in_range 48 57.
Definition is_AZ : ascii -> bool := in_range 65 90.
Definition is_az : ascii -> bool := in_range 97 122.

(** [\w] *)
Definition is_word (a : ascii) : bool :=
  is_digit a || is_AZ a || is_az a || (code a =? 95)%N.

(** [\s] and the characters removed by [trim]: TAB, LF, VT, FF, CR, SP, NBSP. *)
Definition is_space (a : ascii) : bool :=
  in_range 9 13 a || (code a =? 32)%N || (code a =? 160)%N.

(** Line terminators, excluded by [.] *)
Definition is_newline (a : ascii) : bool :=
  (code a =? 10)%N || (code a =? 13)%N.

Definition lower_char (a : ascii) : ascii :=
  if is_AZ a || (in_range 192 222 a && negb (code a =? 215)%N)
  then ascii_of_N (code a + 32) else a.

(** Upper-case partner inside the alphabet (used for case-insensitive
    matching, where a partner outside of it cannot occur in the text). *)
Definition upper_char (a : ascii) : ascii :=
  if is_az a || (in_range 224 254 a && negb (code a =? 247)%N)
  then ascii_of_N (code a - 32) else a.

Fixpoint map_str (f : ascii -> ascii) (s : string) : string :=
  match s with
  | EmptyString => EmptyString
  | String a r => String (f a) (map_str f r)
  end.

Definition toLowerCase : string -> string := map_str lower_char.

Fixpoint trimStart (s : string) : string :=
  match s with
  | String a r => if is_space a then trimStart r else s
  | EmptyString => EmptyString
  end.

Fixpoint trimEnd (s : string) : string :=
  match s with
  | EmptyString => EmptyString
  | String a r =>
      match trimEnd r with
      | EmptyString => if is_space a then EmptyString else String a EmptyString
      | r' => String a r'
      end
  end.

Definition trim (s : string) : string := trimEnd (trimStart s).

(** A text that does not begin with white space. *)
Definition clean_start (s : string) : Prop :=
  match s with String a _ => is_space a = false | EmptyString => True end.

Fixpoint take (n : nat) (s : string) : string :=
  match n, s with
  | S n', String a r => String a (take n' r)
  | _, _ => EmptyString
  end.

Fixpoint startsWith (s p : string) : bool :=
  match p, s with
  | EmptyString, _ => true
  | String b p', String a s' => Ascii.eqb a b && startsWith s' p'
  | String _ _, EmptyString => false
  end.

(** [s.includes(t)] *)
Fixpoint includes (s t : string) : bool :=
  startsWith s t ||
  match s with
  | String _ s' => includes s' t
  | EmptyString => false
  end.

(** [s.endsWith(p)]: some suffix of [s] is [p]. *)
Fixpoint endsWith (s p : string) : bool :=
  String.eqb s p ||
  match s with
  | String _ s' => endsWith s' p
  | EmptyString => false
  end.

(** Truthiness of a string. *)
Definition truthy (s : string) : bool :=
  match s with EmptyString => false | _ => true end.

(** [arr.includes(s)] on an array of strings. *)
Definition mem (s : string) (l : list string) : bool := existsb (String.eqb s) l.

(** Decimal digits at the head of a string, most significant first. *)
Fixpoint digits_acc (acc : Z) (seen : bool) (s : string) : option Z :=
  match s with
  | String a r =>
      if is_digit a
      then digits_acc (10 * acc + Z.of_N (code a - 48)) true r
      else if seen then Some acc else None
  | EmptyString => if seen then Some acc else None
  end.

(** [parseInt(s, 10)]; [None] is NaN.  (The code applies it to captures of
    at most four digits, where the double it returns is the integer.) *)
Definition parseInt (s : string) : option Z :=
  match trimStart s with
  | String "-" r => option_map Z.opp (digits_acc 0 false r)
  | String "+" r => digits_acc 0 false r
  | r => digits_acc 0 false r
  end.

(** [String(n)] for an integer. *)
Definition ofZ (n : Z) : string := NilZero.string_of_int (Z.to_int n).

Fixpoint repeat_char (a : ascii) (n : nat) : string :=
  match n with O => EmptyString | S n' => String a (repeat_char a n') end.

(** [s.padStart(n, "0")] *)
Definition padStart0 (n : nat) (s : string) : string :=
  repeat_char "0" (n - String.length s) ++ s.

(** [arr.join(sep)] *)
Fixpoint join (sep : string) (l : list string) : string :=
  match l with
  | [] => ""
  | [x] => x
  | x :: l' => x ++ sep ++ join sep l'
  end.

(** [arr.filter(Boolean)] on an array of strings and nulls. *)
Fixpoint somes {A} (l : list (option A)) : list A :=
  match l with
  | [] => []
  | Some x :: l' => x :: somes l'
  | None :: l' => somes l'
  end.

End JS.

(* ------------------------------------------------------------------ *)
(** ** Regular expressions (the backtracking semantics of ECMAScript) *)
(* ------------------------------------------------------------------ *)

Module Regex.
Import JS.

(** Abstract syntax of the patterns the sources use.  [Rep mn mx r] is the
    greedy quantifier [r{mn,mx}] ([mx = None] is unbounded), [Grp i r] the
    capture group number [i], [Wb] is [\b], [NLa r] is [(?!r)]. *)
Inductive re : Type :=
| Eps : re
| Chr : (ascii -> bool) -> re
| Seq : re -> re -> re
| Alt : re -> re -> re
| Rep : nat -> option nat -> re -> re
| Grp : nat -> re -> re
| Bol : re
| Eol : re
| Wb : re
| NLa : re -> re.

Definition caps : Type := list (nat * string).

Fixpoint getcap (i : nat) (c : caps) : option string :=
  match c with
  | [] => None
  | (j, v) :: c' => if Nat.eqb i j then Some v else getcap i c'
  end.

Definition clr (gs : list nat) (c : caps) : caps :=
  filter (fun jv => negb (existsb (Nat.eqb (fst jv)) gs)) c.

Fixpoint groups (r : re) : list nat :=
  match r with
  | Seq a b | Alt a b => groups a ++ groups b
  | Rep _ _ a | NLa a => groups a
  | Grp i a => i :: groups a
  | _ => []
  end.

(** A matcher state: the character before the current position ([None] at
    the start of the text), the rest of the text, the captures so far. *)
Definition mstate : Type := option ascii * string * caps.
Definition kont : Type := option ascii -> string -> caps -> option mstate.
Definition matcher : Type := option ascii -> string -> caps -> kont -> option mstate.

Definition orelse (x : option mstate) (y : unit -> option mstate) : option mstate :=
  match x with Some v => Some v | None => y tt end.

(** Optional iterations of a quantifier: at most [n] more, each of which
    has to consume a character (RepeatMatcher's empty check). *)
Fixpoint rep_opt (step : matcher) (n : nat)
  (p : option ascii) (s : string) (c : caps) (k : kont) : option mstate :=
  match n with
  | O => k p s c
  | S n' =>
      orelse
        (step p s c (fun p' s' c' =>
           if Nat.ltb (String.length s') (String.length s)
           then rep_opt step n' p' s' c' k else None))
        (fun _ => k p s c)
  end.

(** Mandatory iterations, then the optional ones.  An unbounded quantifier
    gets as many optional iterations as there are characters left, which
    is all that consuming iterations can use. *)
Fixpoint rep_min (step : matcher) (extra : option nat) (m : nat)
  (p : option ascii) (s : string) (c : caps) (k : kont) : option mstate :=
  match m with
  | O => rep_opt step (match extra with Some x => x | None => String.length s end) p s c k
  | S m' => step p s c (fun p' s' c' => rep_min step extra m' p' s' c' k)
  end.

Definition wordp (o : option ascii) : bool :=
  match o with Some a => is_word a | None => false end.

Definition hd (s : string) : option ascii :=
  match s with String a _ => Some a | EmptyString => None end.

(** Membership of a character in a class, under the [i] flag or not. *)
Definition cls (ci : bool) (f : ascii -> bool) (a : ascii) : bool :=
  f a || (ci && (f (lower_char a) || f (upper_char a))).

Fixpoint mt (ci : bool) (r : re) : matcher :=
  fun p s c k =>
  match r with
  | Eps => k p s c
  | Chr f =>
      match s with
      | String a s' => if cls ci f a then k (Some a) s' c else None
      | EmptyString => None
      end
  | Seq r1 r2 => mt ci r1 p s c (fun p' s' c' => mt ci r2 p' s' c' k)
  | Alt r1 r2 => orelse (mt ci r1 p s c k) (fun _ => mt ci r2 p s c k)
  | Rep mn mx r1 =>
      rep_min (fun p' s' c' k' => mt ci r1 p' s' (clr (groups r1) c') k')
              (match mx with Some x => Some (x - mn)%nat | None => None end)
              mn p s c k
  | Grp i r1 =>
      mt ci r1 p s c
         (fun p' s' c' => k p' s' ((i, take (String.length s - String.length s') s) :: c'))
  | Bol => match p with None => k p s c | Some _ => None end
  | Eol => match s with EmptyString => k p s c | String _ _ => None end
  | Wb => if xorb (wordp p) (wordp (hd s)) then k p s c else None
  | NLa r1 =>
      match mt ci r1 p s c (fun p' s' c' => Some (p', s', c')) with
      | Some _ => None
      | None => k p s c
      end
  end.

(** A successful match: the text before it, the matched text [m[0]], the
    captures, and where the text goes on. *)
Record hit : Type := Hit {
  pre : string;
  m0 : string;
  cap : caps;
  post_prev : option ascii;
  post : string
}.

Definition at_pos (ci : bool) (r : re) (p : option ascii) (s : string) : option mstate :=
  mt ci r p s [] (fun p' s' c' => Some (p', s', c')).

(** Leftmost match at or after the current position. *)
Fixpoint search_from (ci : bool) (r : re) (before : string)
  (p : option ascii) (s : string) : option hit :=
  match at_pos ci r p s with
  | Some (p', s', c') =>
      Some (Hit before (take (String.length s - String.length s') s) c' p' s')
  | None =>
      match s with
      | String a s' => search_from ci r (before ++ String a EmptyString) (Some a) s'
      | EmptyString => None
      end
  end.

(** [s.match(re)] / [re.exec(s)] without the [g] flag. *)
Definition exec (ci : bool) (r : re) (s : string) : option hit :=
  search_from ci r "" None s.

(** [re.test(s)] *)
Definition test (ci : bool) (r : re) (s : string) : bool :=
  match exec ci r s with Some _ => true | None => false end.

(** [m[i]] for [i >= 1]; [None] is [undefined]. *)
Definition grp (h : hit) (i : nat) : option string := getcap i (cap h).

(** The successive matches of a [g]-flagged pattern, left to right, as
    [while ((m = re.exec(s)))] or [replace] visit them.  After an empty
    match the search moves on by one character. *)
Fixpoint matches_from (n : nat) (ci : bool) (r : re)
  (p : option ascii) (s : string) : list hit :=
  match n with
  | O => []
  | S n' =>
      match search_from ci r "" p s with
      | None => []
      | Some h =>
          h :: match m0 h, post h with
               | EmptyString, String a t => matches_from n' ci r (Some a) t
               | EmptyString, EmptyString => []
               | String _ _, _ => matches_from n' ci r (post_prev h) (post h)
               end
      end
  end.

Definition exec_all (ci : bool) (r : re) (s : string) : list hit :=
  matches_from (S (String.length s)) ci r None s.

(** [s.replace(re, by)] with the [g] flag and a replacement text without
    [$]. *)
Fixpoint replace_from (n : nat) (ci : bool) (r : re) (by_ : string)
  (p : option ascii) (s : string) : string :=
  match n with
  | O => s
  | S n' =>
      match search_from ci r "" p s with
      | None => s
      | Some h =>
          pre h ++ by_ ++
          match m0 h, post h with
          | EmptyString, String a t => String a (replace_from n' ci r by_ (Some a) t)
          | EmptyString, EmptyString => ""
          | String _ _, _ => replace_from n' ci r by_ (post_prev h) (post h)
          end
      end
  end.

Definition replace_all (ci : bool) (r : re) (by_ : string) (s : string) : string :=
  replace_from (S (String.length s)) ci r by_ None s.

(** [s.replace(re, by)] without the [g] flag. *)
Definition replace_first (ci : bool) (r : re) (by_ : string) (s : string) : string :=
  match exec ci r s with
  | None => s
  | Some h => pre h ++ by_ ++ post h
  end.

(** *** Pattern combinators *)

Definition never : re := Chr (fun _ => false).
Definition ch (a : ascii) : re := Chr (Ascii.eqb a).

Fixpoint lit (s : string) : re :=
  match s with
  | EmptyString => Eps
  | String a EmptyString => ch a
  | String a r => Seq (ch a) (lit r)
  end.

Fixpoint seqs (l : list re) : re :=
  match l with
  | [] => Eps
  | [r] => r
  | r :: l' => Seq r (seqs l')
  end.

Fixpoint alts (l : list re) : re :=
  match l with
  | [] => never
  | [r] => r
  | r :: l' => Alt r (alts l')
  end.

(** [(?:w1|w2|...)] for literal words *)
Definition words (l : list string) : re := alts (map lit l).

Definition opt (r : re) : re := Rep 0 (Some 1%nat) r.
Definition star (r : re) : re := Rep 0 None r.
Definition plus (r : re) : re := Rep 1 None r.
Definition rep (mn mx : nat) (r : re) : re := Rep mn (Some mx) r.

(** [[abc]] *)
Definition oneof (s : string) : re :=
  Chr (fun a => existsb (Ascii.eqb a) (list_ascii_of_string s)).

Definition dig : re := Chr is_digit.                 (* \d *)
Definition ws : re := Chr is_space.                  (* \s *)
Definition dot : re := Chr (fun a => negb (is_newline a)).   (* . *)
Definition az : re := Chr is_az.                     (* [a-z] *)
Definition d12 : re := rep 1 2 dig.                  (* \d{1,2} *)
Definition d2 : re := rep 2 2 dig.                   (* \d{2} *)
Definition az3 : re := Rep 3 None az.                (* [a-z]{3,} *)

End Regex.

(* ------------------------------------------------------------------ *)
(** ** Dates (the [Date] object, for a fixed offset from UTC) *)
(* ------------------------------------------------------------------ *)

Module DateJS.
Import JS.

(** The clock of one request: the instant [now] (milliseconds since the
    epoch) and the offset [tz] of local time from UTC, in minutes. *)
Record clock : Type := Clock { now : Z; tz : Z }.

Definition msPerDay : Z := 86400000.

(** A [Date]: a time value, or [None] for an Invalid Date. *)
Definition date : Type := option Z.

Definition days_from_civil (y m d : Z) : Z :=
  let y' := if m <=? 2 then y - 1 else y in
  let era := y' / 400 in
  let yoe := y' - era * 400 in
  let doy := (153 * (m + (if 2 <? m then -3 else 9)) + 2) / 5 + d - 1 in
  let doe := yoe * 365 + yoe / 4 - yoe / 100 + doy in
  era * 146097 + doe - 719468.

Definition civil_from_days (z : Z) : Z * Z * Z :=
  let z := z + 719468 in
  let era := z / 146097 in
  let doe := z - era * 146097 in
  let yoe := (doe - doe / 1460 + doe / 36524 - doe / 146096) / 365 in
  let doy := doe - (365 * yoe + yoe / 4 - yoe / 100) in
  let mp := (5 * doy + 2) / 153 in
  let d := doy - (153 * mp + 2) / 5 + 1 in
  let m := mp + (if mp <? 10 then 3 else -9) in
  (yoe + era * 400 + (if m <=? 2 then 1 else 0), m, d).

Definition local_day (k : clock) (t : Z) : Z := (t + tz k * 60000) / msPerDay.
Definition local_midnight (k : clock) (t : Z) : Z :=
  local_day k t * msPerDay - tz k * 60000.

Definition getFullYear (k : clock) (t : Z) : Z :=
  let '(y, _, _) := civil_from_days (local_day k t) in y.
Definition getMonth (k : clock) (t : Z) : Z :=
  let '(_, m, _) := civil_from_days (local_day k t) in m - 1.
Definition getDate (k : clock) (t : Z) : Z :=
  let '(_, _, d) := civil_from_days (local_day k t) in d.
Definition getDay (k : clock) (t : Z) : Z := (local_day k t + 4) mod 7.

(** [new Date(year, monthIndex, day)] *)
Definition mkDate (k : clock) (year monthIndex day : Z) : Z :=
  let year := if (0 <=? year) && (year <=? 99) then 1900 + year else year in
  let ym := year + monthIndex / 12 in
  let mn := monthIndex mod 12 in
  (days_from_civil ym (mn + 1) 1 + day - 1) * msPerDay - tz k * 60000.

(** [const d = new Date(); d.setHours(0,0,0,0)] *)
Definition today (k : clock) : Z := local_midnight k (now k).

(** [x.setDate(x.getDate() + days); x.setHours(0,0,0,0)] *)
Definition addDays (k : clock) (d : Z) (days : Z) : Z :=
  local_midnight k (d + days * msPerDay).

Definition pad2 (n : Z) : string := if n <? 10 then "0" ++ ofZ n else ofZ n.

(** [d.toISOString().slice(0, 10)] of a valid date (the UTC calendar day) *)
Definition isoDay (t : Z) : string :=
  let '(y, m, d) := civil_from_days (t / msPerDay) in
  let ys := if (0 <=? y) && (y <=? 9999) then padStart0 4 (ofZ y)
            else (if y <? 0 then "-" else "+") ++ padStart0 6 (ofZ (Z.abs y)) in
  take 10 (ys ++ "-" ++ pad2 m ++ "-" ++ pad2 d ++ "T").

End DateJS.

(* ------------------------------------------------------------------ *)
(** ** Slot parsers (utils/service_parser.ts) *)
(* ------------------------------------------------------------------ *)

Module Parser.
Import JS Regex DateJS.

(** Outcome of a function that may throw. *)
Inductive res (A : Type) : Type :=
| Ok : A -> res A
| Throw : res A.
Arguments Ok {A} _.
Arguments Throw {A}.

(** *** Helpers *)

Definition MONTHS : list string :=
  ["January"; "February"; "March"; "April"; "May"; "June";
   "July"; "August"; "September"; "October"; "November"; "December"].

Definition WEEKDAYS : list string :=
  ["sunday"; "monday"; "tuesday"; "wednesday"; "thursday"; "friday"; "saturday"].

Definition WEEKDAY_ABBR : list (string * Z) :=
  [("sun", 0); ("sunday", 0);
   ("mon", 1); ("monday", 1); ("mondy", 1); ("monady", 1);
   ("tue", 2); ("tues", 2); ("tuesday", 2); ("tus", 2); ("tusday", 2);
   ("tuesay", 2); ("teusday", 2);
   ("wed", 3); ("weds", 3); ("wedn", 3); ("wednesday", 3); ("wednsday", 3);
   ("wensday", 3); ("wednessday", 3);
   ("thu", 4); ("thur", 4); ("thurs", 4); ("thursday", 4); ("thurday", 4);
   ("thursdayy", 4); ("thrsday", 4); ("thrs", 4);
   ("fri", 5); ("friday", 5); ("firday", 5); ("friyay", 5);
   ("sat", 6); ("saturday", 6); ("saturdy", 6); ("saturay", 6)].

Definition MONTH_ABBR : list (string * Z) :=
  [("jan", 0); ("january", 0); ("janury", 0);
   ("feb", 1); ("febr", 1); ("february", 1); ("febuary", 1); ("februrary", 1);
   ("mar", 2); ("march", 2);
   ("apr", 3); ("april", 3); ("aprl", 3);
   ("may", 4);
   ("jun", 5); ("june", 5);
   ("jul", 6); ("july", 6);
   ("aug", 7); ("august", 7); ("agust", 7);
   ("sep", 8); ("sept", 8); ("september", 8); ("setpember", 8); ("septermber", 8);
   ("oct", 9); ("october", 9); ("octobr", 9);
   ("nov", 10); ("november", 10); ("novembr", 10);
   ("dec", 11); ("december", 11); ("decemebr", 11)].

Definition TOMORROW_WORDS : list string :=
  ["tomorrow"; "tmrw"; "tmr"; "tomo"; "tommorow"; "tomorow"; "tomoroww";
   "tommorrow"; "tmrrw"].

(** What [TABLE[w]] evaluates to for an object literal [TABLE] with number
    values: an own entry, a member inherited from [Object.prototype], or
    [undefined]. *)
Inductive entry : Type :=
| Num : Z -> entry
| Inherited : entry
| Undefined : entry.

Definition prototype_keys : list string :=
  ["constructor"; "hasOwnProperty"; "isPrototypeOf"; "propertyIsEnumerable";
   "toLocaleString"; "toString"; "valueOf"; "__proto__";
   "__defineGetter__"; "__defineSetter__"; "__lookupGetter__"; "__lookupSetter__"].

Fixpoint assoc {A} (w : string) (t : list (string * A)) : option A :=
  match t with
  | [] => None
  | (k, v) :: t' => if String.eqb w k then Some v else assoc w t'
  end.

Definition lookup (t : list (string * Z)) (w : string) : entry :=
  match assoc w t with
  | Some n => Num n
  | None => if mem w prototype_keys then Inherited else Undefined
  end.

Definition fmtDate (k : clock) (d : date) : string :=
  match d with
  | Some t => pad2 (getDate k t) ++ " " ++ nth (Z.to_nat (getMonth k t)) MONTHS "undefined"
  | None => "NaN undefined"
  end.

(** [new RegExp(`\\b${w}\\b`, 'i').test(s)] for a word of letters *)
Definition hasWord (s w : string) : bool := test true (seqs [Wb; lit w; Wb]) s.
Definition hasAnyWord (s : string) (arr : list string) : bool := existsb (hasWord s) arr.

(** Levenshtein distance: the rows of the table [dp], one at a time. *)
Fixpoint lev_row (x : ascii) (b : string) (prev : list nat) (left : nat) : list nat :=
  match b, prev with
  | String y b', diag :: ((up :: _) as prev') =>
      let cost := if Ascii.eqb x y then 0%nat else 1%nat in
      let v := Nat.min (Nat.min (up + 1) (left + 1)) (diag + cost) in
      v :: lev_row x b' prev' v
  | _, _ => []
  end.

Fixpoint lev_rows (a b : string) (prev : list nat) (i : nat) : list nat :=
  match a with
  | EmptyString => prev
  | String x a' => lev_rows a' b (i :: lev_row x b prev i) (S i)
  end.

Definition lev (a b : string) : nat :=
  last (lev_rows a b (seq 0 (S (String.length b))) 1) 0%nat.

(** The loop of [fuzzyWeekday]: index and distance of the first closest
    weekday name. *)
Fixpoint closest (w : string) (names : list string) (i : Z)
  (best : option (Z * nat)) : option (Z * nat) :=
  match names with
  | [] => best
  | n :: names' =>
      let dist := lev w n in
      let best' := match best with
                   | Some (_, bd) => if Nat.ltb dist bd then Some (i, dist) else best
                   | None => Some (i, dist)
                   end in
      closest w names' (i + 1) best'
  end.

Definition fuzzyWeekday (word : string) : option entry :=
  let w := toLowerCase word in
  match lookup WEEKDAY_ABBR w with
  | Undefined =>
      match closest w WEEKDAYS 0 None with
      | Some (bestIdx, bestDist) => if Nat.leb bestDist 2 then Some (Num bestIdx) else None
      | None => None
      end
  | e => Some e
  end.

Fixpoint first_month (w : string) (names : list string) (i : Z) : option entry :=
  match names with
  | [] => None
  | n :: names' =>
      let full := toLowerCase n in
      if startsWith full w || Nat.leb (lev w full) 2 then Some (Num i)
      else first_month w names' (i + 1)
  end.

Definition fuzzyMonth (word : string) : option entry :=
  let w := toLowerCase word in
  match lookup MONTH_ABBR w with
  | Undefined => first_month w MONTHS 0
  | e => Some e
  end.

(** Next occurrence of a weekday, today included.  A [targetDow] that is
    not a number makes the arithmetic NaN and the date invalid. *)
Definition nextWeekday (k : clock) (targetDow : entry) : date :=
  match targetDow with
  | Num n =>
      let t := today k in
      let diff := (n - getDay k t + 7) mod 7 in
      Some (addDays k t (if diff =? 0 then 0 else diff))
  | _ => None
  end.

(** Occurrence of a weekday at least seven days ahead. *)
Definition nextWeekdayStrict (k : clock) (targetDow : entry) : date :=
  match targetDow with
  | Num n =>
      let base := addDays k (today k) 7 in
      let diff := (n - getDay k base + 7) mod 7 in
      Some (addDays k base diff)
  | _ => None
  end.

Fixpoint indexOf (w : string) (l : list string) (i : Z) : Z :=
  match l with
  | [] => -1
  | x :: l' => if String.eqb x w then i else indexOf w l' (i + 1)
  end.

(** [nextWeekdayISO(weekdayName, base)]; [weekdayName = None] is
    [undefined], on which [toLowerCase] throws. *)
Definition nextWeekdayISO (k : clock) (weekdayName : option string) (base : Z) : res string :=
  match weekdayName with
  | None => Throw
  | Some name =>
      let want := indexOf (toLowerCase name) WEEKDAYS 0 in
      if want <? 0 then Throw
      else
        let d := local_midnight k base in
        let diff := (want - getDay k d + 7) mod 7 in
        let add := if diff =? 0 then 7 else diff in
        Ok (isoDay (d + add * msPerDay))
  end.

(** [WEEKDAYS[i]] *)
Definition weekday_name (i : entry) : option string :=
  match i with
  | Num n => if (0 <=? n) then nth_error WEEKDAYS (Z.to_nat n) else None
  | _ => None
  end.

(** [parseInt(m[i], 10)] *)
Definition intOf (h : hit) (i : nat) : option Z :=
  match grp h i with Some s => parseInt s | None => None end.

Definition between (lo hi : Z) (n : option Z) : bool :=
  match n with Some v => (lo <=? v) && (v <=? hi) | None => false end.

(** *** Guests *)

(** [(?:people|persons|person|guests|pax|pers|ppl)] *)
Definition GUEST_WORDS : re :=
  words ["people"; "persons"; "person"; "guests"; "pax"; "pers"; "ppl"].

(** [(?:adults?|kids?|children|child|infants?|bab(?:y|ies))] *)
Definition CATEGORY_WORDS : re :=
  alts [Seq (lit "adult") (opt (ch "s")); Seq (lit "kid") (opt (ch "s"));
        lit "children"; lit "child"; Seq (lit "infant") (opt (ch "s"));
        Seq (lit "bab") (Alt (lit "y") (lit "ies"))].

Definition AMPM : re := words ["am"; "pm"].

(** [/\bfor\s+\d{1,2}:\d{2}\b/i] *)
Definition rx_for_clock : re := seqs [Wb; lit "for"; plus ws; d12; ch ":"; d2; Wb].
(** [/\bfor\s+\d{1,2}\s*(am|pm)\b/i] *)
Definition rx_for_ampm : re := seqs [Wb; lit "for"; plus ws; d12; star ws; Grp 1 AMPM; Wb].
(** [/^\(?\s*(\d{1,2})\s*\)?$/] *)
Definition rx_solo : re :=
  seqs [Bol; opt (ch "("); star ws; Grp 1 d12; star ws; opt (ch ")"); Eol].
(** [(\d{1,2})\s*CATEGORY_WORDS], flags [gi] *)
Definition rx_category : re := seqs [Grp 1 d12; star ws; CATEGORY_WORDS].

(** The explicit forms, in the order of the source array. *)
Definition guest_patterns : list (bool * re) :=
  [ (* \bparty\s+of\s+(\d{1,2})\b  i *)
    (true, seqs [Wb; lit "party"; plus ws; lit "of"; plus ws; Grp 1 d12; Wb]);
    (* \bfor\s+(\d{1,2})(?!:\d{2})(?!\s*(?:am|pm)\b)\b  i *)
    (true, seqs [Wb; lit "for"; plus ws; Grp 1 d12; NLa (Seq (ch ":") d2);
                 NLa (seqs [star ws; AMPM; Wb]); Wb]);
    (* \b(\d{1,2})\s*GUEST_WORDS\b  i *)
    (true, seqs [Wb; Grp 1 d12; star ws; GUEST_WORDS; Wb]);
    (* \b(\d{1,2})ppl\b  i *)
    (true, seqs [Wb; Grp 1 d12; lit "ppl"; Wb]);
    (* \b(\d{1,2})\s*x\b  i *)
    (true, seqs [Wb; Grp 1 d12; star ws; ch "x"; Wb]);
    (* \bx\s*(\d{1,2})\b  i *)
    (true, seqs [Wb; ch "x"; star ws; Grp 1 d12; Wb]);
    (* \((\d{1,2})\) *)
    (false, seqs [ch "("; Grp 1 d12; ch ")"]) ].

(** [/\b\d{1,2}\s*(?:am|pm)\b|\b\d{1,2}[:h.]\d{2}\b|\b(in|the)\s+(morning|afternoon|evening|tonight)\b/i] *)
Definition rx_looksLikeTime : re :=
  alts [seqs [Wb; d12; star ws; AMPM; Wb];
        seqs [Wb; d12; oneof ":h."; d2; Wb];
        seqs [Wb; Grp 1 (words ["in"; "the"]); plus ws;
              Grp 2 (words ["morning"; "afternoon"; "evening"; "tonight"]); Wb]].

(** The [while ((m = catRe.exec(s)))] loop: the sum of the counts and
    whether any was found ([parseInt] of one or two digits is never NaN). *)
Fixpoint category_sum (ms : list hit) (sum : Z) (found : bool) : Z * bool :=
  match ms with
  | [] => (sum, found)
  | m :: ms' =>
      match intOf m 1 with
      | Some n => category_sum ms' (sum + n) true
      | None => category_sum ms' sum found
      end
  end.

(** The [for (const re of patterns)] loop. *)
Fixpoint first_guest_pattern (ps : list (bool * re)) (s : string) : option Z :=
  match ps with
  | [] => None
  | (ci, r) :: ps' =>
      match exec ci r s with
      | Some mm =>
          let n := intOf mm 1 in
          if between 1 50 n then n else first_guest_pattern ps' s
      | None => first_guest_pattern ps' s
      end
  end.

Definition parseGuests (text : string) : option Z :=
  let s := trim (toLowerCase text) in
  if test true rx_for_clock s then None
  else if test true rx_for_ampm s then None
  else
    match exec false rx_solo s with
    | Some solo =>
        let n := intOf solo 1 in
        if between 1 50 n then n else None
    | None =>
        let '(sum, foundCategory) := category_sum (exec_all true rx_category s) 0 false in
        if foundCategory && (1 <=? sum) && (sum <=? 50) then Some sum
        else
          let looksLikeTime := test true rx_looksLikeTime s in
          match first_guest_pattern guest_patterns s with
          | Some n => Some n
          | None => if looksLikeTime then None else None
          end
    end.

(** *** Time *)

(** [([01]?\d|2[0-3])] *)
Definition HOUR24 : re :=
  Alt (Seq (opt (oneof "01")) dig) (Seq (ch "2") (oneof "0123")).
(** [[0-5]\d] *)
Definition MIN : re := Seq (oneof "012345") dig.
(** [(@\s* )?] *)
Definition AT_SIGN : re := opt (Grp 1 (Seq (ch "@") (star ws))).
(** [(?::|\.|h)?] *)
Definition SEP : re := opt (alts [ch ":"; ch "."; ch "h"]).

(** [\b(\d{1,2})[\/\-\.](\d{1,2})(?:[\/\-\.](\d{2,4}))?\b] *)
Definition rx_numeric_date : re :=
  seqs [Wb; Grp 1 d12; oneof "/-."; Grp 2 d12;
        opt (Seq (oneof "/-.") (Grp 3 (rep 2 4 dig))); Wb].

(** The patterns of [parseTime], in the order of the source array. *)
Definition time_patterns : list (bool * re) :=
  [ (* \b(@\s* )?(\d{1,2})(?::|\.|h)?([0-5]\d)?\s*(am|pm)\b  i *)
    (true, seqs [Wb; AT_SIGN; Grp 2 d12; SEP; opt (Grp 3 MIN); star ws; Grp 4 AMPM; Wb]);
    (* \b(@\s* )?([01]?\d|2[0-3]):([0-5]\d)\b *)
    (false, seqs [Wb; AT_SIGN; Grp 2 HOUR24; ch ":"; Grp 3 MIN; Wb]);
    (* \b(@\s* )?([01]?\d|2[0-3])\.(\d{2})\b *)
    (false, seqs [Wb; AT_SIGN; Grp 2 HOUR24; ch "."; Grp 3 d2; Wb]);
    (* \b(@\s* )?([01]?\d|2[0-3])h(\d{2})\b  i *)
    (true, seqs [Wb; AT_SIGN; Grp 2 HOUR24; ch "h"; Grp 3 d2; Wb]);
    (* \b(@\s* )?([01]?\d|2[0-3])\s*o['’]clock\b  i *)
    (true, seqs [Wb; AT_SIGN; Grp 2 HOUR24; star ws; ch "o"; ch "'"; lit "clock"; Wb]);
    (* \b(?:at|@)\s*([01]?\d|2[0-3])\b *)
    (false, seqs [Wb; Alt (lit "at") (ch "@"); star ws; Grp 1 HOUR24; Wb]);
    (* \b([01]?\d|2[0-3])(?::([0-5]\d))?\b *)
    (false, seqs [Wb; Grp 1 HOUR24; opt (Seq (ch ":") (Grp 2 MIN)); Wb]) ].

(** [/^@\s*/] and [/\bat\s*/] *)
Definition rx_lead_at_sign : re := seqs [Bol; ch "@"; star ws].
Definition rx_at_word : re := seqs [Wb; lit "at"; star ws].
(** [x.replace(/^@\s*/, '').replace(/\bat\s*/, '')] *)
Definition strip_at (x : string) : string :=
  replace_first false rx_at_word "" (replace_first false rx_lead_at_sign "" x).

(** [/\bam|pm\b/]: the alternation of [\bam] and [pm\b] *)
Definition rx_has_ampm : re := Alt (Seq Wb (lit "am")) (Seq (lit "pm") Wb).
(** [/\b(noon|midday)\b/], [/\b(midnight)\b/] *)
Definition rx_noon : re := seqs [Wb; Grp 1 (words ["noon"; "midday"]); Wb].
Definition rx_midnight : re := seqs [Wb; Grp 1 (lit "midnight"); Wb].
(** [/\b(noon|midday|midnight)\b/] *)
Definition rx_noon_midnight : re :=
  seqs [Wb; Grp 1 (words ["noon"; "midday"; "midnight"]); Wb].

(** [/\b(morning|this\s+morning|in\s+the\s+morning|brunch|breakfast)\b/] *)
Definition rx_isMorning : re :=
  seqs [Wb; Grp 1 (alts [lit "morning"; seqs [lit "this"; plus ws; lit "morning"];
                         seqs [lit "in"; plus ws; lit "the"; plus ws; lit "morning"];
                         lit "brunch"; lit "breakfast"]); Wb].
(** [/\b(evening|this\s+evening|tonight|dinner)\b/] *)
Definition rx_isEvening : re :=
  seqs [Wb; Grp 1 (alts [lit "evening"; seqs [lit "this"; plus ws; lit "evening"];
                         lit "tonight"; lit "dinner"]); Wb].
(** [/\b(afternoon|this\s+afternoon|lunch)\b/] *)
Definition rx_isAfternoon : re :=
  seqs [Wb; Grp 1 (alts [lit "afternoon"; seqs [lit "this"; plus ws; lit "afternoon"];
                         lit "lunch"]); Wb].

(** The guest and date snippets blanked out before looking for a time. *)
Definition safe_text (s : string) : string :=
  let s1 := replace_all true (seqs [Wb; Grp 1 d12; star ws; GUEST_WORDS; Wb]) " " s in
  let s2 := replace_all true (seqs [Wb; Grp 1 d12; star ws; CATEGORY_WORDS; Wb]) " " s1 in
  let s3 := replace_all false rx_numeric_date " " s2 in
  (* \b(\d{1,2})\s+[a-z]{3,}\b *)
  replace_all false (seqs [Wb; Grp 1 d12; plus ws; az3; Wb]) " " s3.

Fixpoint first_time_pattern (ps : list (bool * re)) (safe : string) : option hit :=
  match ps with
  | [] => None
  | (ci, r) :: ps' =>
      match exec ci r safe with
      | Some m => Some m
      | None => first_time_pattern ps' safe
      end
  end.

Definition parseTime (text : string) : option string :=
  let s := trim (toLowerCase text) in
  if test false rx_noon s then Some "12:00 pm"
  else if test false rx_midnight s then Some "00:00"
  else
    match first_time_pattern time_patterns (safe_text s) with
    | Some m =>
        let out := trim (strip_at (trim (m0 m))) in
        if negb (test false rx_has_ampm out) then
          let isMorning := test false rx_isMorning s in
          let isEvening := test false rx_isEvening s in
          let isAfternoon := test false rx_isAfternoon s in
          if isMorning then Some (out ++ " am")
          else if isEvening || isAfternoon then Some (out ++ " pm")
          else Some out
        else Some out
    | None => None
    end.

(** [/^(\d{1,2})(?::(\d{2}))?$/] *)
Definition rx_bare_hour : re :=
  seqs [Bol; Grp 1 d12; opt (Seq (ch ":") (Grp 2 d2)); Eol].

Definition isAmbiguousTime (raw : string) : bool :=
  let cleaned := strip_at (toLowerCase (trim raw)) in
  if test false rx_noon_midnight cleaned then false
  else if test false rx_has_ampm cleaned then false
  else
    match exec false rx_bare_hour cleaned with
    | None => false
    | Some bare => between 1 12 (intOf bare 1)
    end.

(** [/\b([1-9]|1[0-2])(?:[:\.h]?([0-5]\d))?\s?(am|pm)\b/] *)
Definition rx_norm_12h : re :=
  seqs [Wb; Grp 1 (Alt (oneof "123456789") (Seq (ch "1") (oneof "012")));
        opt (Seq (opt (oneof ":.h")) (Grp 2 MIN)); opt ws; Grp 3 AMPM; Wb].
(** [/\b([01]?\d|2[0-3]):([0-5]\d)\b/] *)
Definition rx_norm_24h : re := seqs [Wb; Grp 1 HOUR24; ch ":"; Grp 2 MIN; Wb].
(** [/\b([01]?\d|2[0-3])[\.h]([0-5]\d)\b/] *)
Definition rx_norm_dot : re := seqs [Wb; Grp 1 HOUR24; oneof ".h"; Grp 2 MIN; Wb].
(** [/\bo['’]clock\b/] *)
Definition rx_oclock : re := seqs [Wb; ch "o"; ch "'"; lit "clock"; Wb].
(** [/\b([01]?\d|2[0-3])\b/], [/\b(am|pm)\b/], [/\d[:\.h]\d{2}/] *)
Definition rx_any_hour : re := seqs [Wb; Grp 1 HOUR24; Wb].
Definition rx_ampm_word : re := seqs [Wb; Grp 1 AMPM; Wb].
Definition rx_clockish : re := seqs [dig; oneof ":.h"; d2].

Definition str_or (o : option string) (d : string) : string :=
  match o with Some s => s | None => d end.

Definition normalizeTime (text : string) : option string :=
  if negb (truthy text) then None
  else
    let s := strip_at (toLowerCase (trim text)) in
    if test false rx_noon s then Some "12:00"
    else if test false rx_midnight s then Some "00:00"
    else
      match exec false rx_norm_12h s with
      | Some m =>
          let h := match intOf m 1 with Some h => h | None => 0 end in
          let mins := str_or (grp m 2) "00" in
          let ap := str_or (grp m 3) "" in
          let h := if String.eqb ap "pm" && negb (h =? 12) then h + 12 else h in
          let h := if String.eqb ap "am" && (h =? 12) then 0 else h in
          Some (padStart0 2 (ofZ h) ++ ":" ++ mins)
      | None =>
          match exec false rx_norm_24h s with
          | Some m => Some (padStart0 2 (str_or (grp m 1) "") ++ ":" ++ str_or (grp m 2) "")
          | None =>
              match exec false rx_norm_dot s with
              | Some m => Some (padStart0 2 (str_or (grp m 1) "") ++ ":" ++ str_or (grp m 2) "")
              | None =>
                  if test false rx_oclock s then None
                  else if test false rx_any_hour s && negb (test false rx_ampm_word s)
                          && negb (test false rx_clockish s)
                  then None
                  else None
              end
          end
      end.

(** [/^(\d{1,2})(?::|\.|h)?(\d{2})?\s*(am|pm)$/i] and the same without the
    suffix *)
Definition rx_pretty_12h : re :=
  seqs [Bol; Grp 1 d12; SEP; opt (Grp 2 d2); star ws; Grp 3 AMPM; Eol].
Definition rx_pretty_plain : re := seqs [Bol; Grp 1 d12; SEP; opt (Grp 2 d2); Eol].

(** Pretty-print any time to 12h with am/pm. *)
Definition prettyTime (raw : string) : string :=
  let s := strip_at (toLowerCase (trim raw)) in
  if test false rx_noon s then "12:00 pm"
  else if test false rx_midnight s then "12:00 am"
  else
    match exec true rx_pretty_12h s with
    | Some m =>
        let h := match intOf m 1 with Some h => h | None => 0 end in
        let mins := str_or (grp m 2) "00" in
        let ap := toLowerCase (str_or (grp m 3) "") in
        let h := if h =? 0 then 12 else h in
        let h := if 12 <? h then h mod 12 else h in
        ofZ h ++ ":" ++ mins ++ " " ++ ap
    | None =>
        match exec false rx_pretty_plain s with
        | Some m =>
            let h := match intOf m 1 with Some h => h | None => 0 end in
            let mins := str_or (grp m 2) "00" in
            if h =? 0 then "12:" ++ mins ++ " am"
            else if h =? 12 then "12:" ++ mins ++ " pm"
            else if 12 <? h then ofZ (h - 12) ++ ":" ++ mins ++ " pm"
            else ofZ h ++ ":" ++ mins
        | None => raw
        end
    end.

Definition isTimeUnclear (text : string) : bool :=
  match parseTime text with
  | None => true
  | Some raw => if negb (truthy raw) then true else isAmbiguousTime raw
  end.

(** *** Date *)

(** [(mon|tue|tues|wed|thu|thur|thurs|fri|sat|sun|monday|...|sunday)] *)
Definition WEEKDAY_ALT : re :=
  words ["mon"; "tue"; "tues"; "wed"; "thu"; "thur"; "thurs"; "fri"; "sat"; "sun";
         "monday"; "tuesday"; "wednesday"; "thursday"; "friday"; "saturday"; "sunday"].

(** [/\btoday\b/], [/\btonight\b/], [/\bthis\s+(morning|afternoon|evening)\b/] *)
Definition rx_today : re := seqs [Wb; lit "today"; Wb].
Definition rx_tonight : re := seqs [Wb; lit "tonight"; Wb].
Definition rx_this_daypart : re :=
  seqs [Wb; lit "this"; plus ws; Grp 1 (words ["morning"; "afternoon"; "evening"]); Wb].
Definition mentions_today (s : string) : bool :=
  test false rx_today s || test false rx_tonight s || test false rx_this_daypart s.

(** [/\bnext\s+(mon|...)\b/], [/\b(mon|...)\s+next\s+week\b/],
    [/\bnext\s+week\s+(mon|...)\b/] *)
Definition rx_next_wd : re := seqs [Wb; lit "next"; plus ws; Grp 1 WEEKDAY_ALT; Wb].
Definition rx_wd_next_week : re :=
  seqs [Wb; Grp 1 WEEKDAY_ALT; plus ws; lit "next"; plus ws; lit "week"; Wb].
Definition rx_next_week_wd : re :=
  seqs [Wb; lit "next"; plus ws; lit "week"; plus ws; Grp 1 WEEKDAY_ALT; Wb].
(** [/\b([a-z]{3,})\b/] *)
Definition rx_first_word : re := seqs [Wb; Grp 1 az3; Wb].
(** [/\b(\d{1,2})\s*([a-z]{3,})\b/] *)
Definition rx_day_month : re := seqs [Wb; Grp 1 d12; star ws; Grp 2 az3; Wb].

(** The weekday a "next week" phrase names, if one of the three patterns
    finds one that [fuzzyWeekday] knows. *)
Definition strict_weekday (s : string) : option entry :=
  let try (r : re) : option entry :=
    match exec false r s with
    | Some m => fuzzyWeekday (str_or (grp m 1) "")
    | None => None
    end in
  match try rx_next_wd with
  | Some idx => Some idx
  | None =>
      match try rx_wd_next_week with
      | Some idx => Some idx
      | None => try rx_next_week_wd
      end
  end.

(** The year of a numeric date: [m[3]] when present, the current one
    otherwise. *)
Definition year_of (k : clock) (base : Z) (m : hit) : Z :=
  match grp m 3 with
  | Some y =>
      match parseInt y with
      | Some n => if n <? 100 then 2000 + n else n
      | None => 0
      end
  | None => getFullYear k base
  end.

(** A month index as [new Date(y, monIdx, dd)] takes it: a number, or
    something that makes the date invalid. *)
Definition mkDateAt (k : clock) (year : Z) (monIdx : entry) (dd : Z) : date :=
  match monIdx with
  | Num n => Some (mkDate k year n dd)
  | _ => None
  end.

Definition parseDate (k : clock) (text : string) : option string :=
  let s := toLowerCase (trim text) in
  if mentions_today s then Some (fmtDate k (Some (today k)))
  else if hasAnyWord s TOMORROW_WORDS then Some (fmtDate k (Some (addDays k (today k) 1)))
  else
    match strict_weekday s with
    | Some idx => Some (fmtDate k (nextWeekdayStrict k idx))
    | None =>
        let numeric (_ : unit) : option string :=
          let day_month (_ : unit) : option string :=
            match exec false rx_day_month s with
            | Some m =>
                let dd := intOf m 1 in
                match fuzzyMonth (str_or (grp m 2) "") with
                | Some monIdx =>
                    if between 1 31 dd then
                      match mkDateAt k (getFullYear k (today k)) monIdx (match dd with Some d => d | None => 0 end) with
                      | Some d => Some (fmtDate k (Some d))
                      | None => None
                      end
                    else None
                | None => None
                end
            | None => None
            end in
          match exec false rx_numeric_date s with
          | Some m =>
              let dd := intOf m 1 in
              let mm := intOf m 2 in
              if between 1 31 dd && between 1 12 mm then
                let now := today k in
                let year := year_of k now m in
                Some (fmtDate k (Some (mkDate k year
                                         (match mm with Some v => v - 1 | None => 0 end)
                                         (match dd with Some v => v | None => 0 end))))
              else day_month tt
          | None => day_month tt
          end in
        match exec false rx_first_word s with
        | Some wd =>
            let w := str_or (grp wd 1) "" in
            match lookup WEEKDAY_ABBR w with
            | Undefined =>
                match fuzzyWeekday w with
                | Some idx => Some (fmtDate k (nextWeekday k idx))
                | None => numeric tt
                end
            | e => Some (fmtDate k (nextWeekday k e))
            end
        | None => numeric tt
        end
    end.

(** [/\b(20\d{2})-(0?[1-9]|1[0-2])-(0?[1-9]|[12]\d|3[01])\b/] *)
Definition rx_iso_in_text : re :=
  seqs [Wb; Grp 1 (Seq (lit "20") d2); ch "-";
        Grp 2 (Alt (Seq (opt (ch "0")) (oneof "123456789")) (Seq (ch "1") (oneof "012")));
        ch "-";
        Grp 3 (alts [Seq (opt (ch "0")) (oneof "123456789"); Seq (oneof "12") dig;
                     Seq (ch "3") (oneof "01")]);
        Wb].

Definition zof (o : option Z) : Z := match o with Some v => v | None => 0 end.

(** Normalize common date inputs to ISO (YYYY-MM-DD), relative to [base]. *)
Definition normalizeDateToISO_from (k : clock) (text : string) (base : Z) : res (option string) :=
  if negb (truthy text) then Ok None
  else
    let s := toLowerCase (trim text) in
    if mentions_today s then Ok (Some (isoDay base))
    else if hasAnyWord s TOMORROW_WORDS then Ok (Some (isoDay (addDays k base 1)))
    else
      let weekdays (_ : unit) : res (option string) :=
        match strict_weekday s with
        | Some idx =>
            match nextWeekdayStrict k idx with
            | Some d => Ok (Some (isoDay d))
            | None => Throw
            end
        | None =>
            match exec false rx_first_word s with
            | Some wd =>
                let w := str_or (grp wd 1) "" in
                match lookup WEEKDAY_ABBR w with
                | Undefined =>
                    match fuzzyWeekday w with
                    | Some idx =>
                        match nextWeekdayISO k (weekday_name idx) base with
                        | Ok iso => Ok (Some iso)
                        | Throw => Throw
                        end
                    | None => Ok None
                    end
                | e =>
                    match nextWeekdayISO k (weekday_name e) base with
                    | Ok iso => Ok (Some iso)
                    | Throw => Throw
                    end
                end
            | None => Ok None
            end
        end in
      let day_month (_ : unit) : res (option string) :=
        match exec false rx_day_month s with
        | Some m =>
            let dd := intOf m 1 in
            match fuzzyMonth (str_or (grp m 2) "") with
            | Some monIdx =>
                if between 1 31 dd then
                  match mkDateAt k (getFullYear k base) monIdx (zof dd) with
                  | Some d => Ok (Some (isoDay d))
                  | None => weekdays tt
                  end
                else weekdays tt
            | None => weekdays tt
            end
        | None => weekdays tt
        end in
      let numeric (_ : unit) : res (option string) :=
        match exec false rx_numeric_date s with
        | Some m =>
            let dd := intOf m 1 in
            let mm := intOf m 2 in
            match dd, mm with
            | Some dd, Some mm => Ok (Some (isoDay (mkDate k (year_of k base m) (mm - 1) dd)))
            | _, _ => day_month tt
            end
        | None => day_month tt
        end in
      match exec false rx_iso_in_text s with
      | Some m =>
          match intOf m 1, intOf m 2, intOf m 3 with
          | Some y, Some mo, Some dd => Ok (Some (isoDay (mkDate k y (mo - 1) dd)))
          | _, _, _ => numeric tt
          end
      | None => numeric tt
      end.

(** [normalizeDateToISO(text)] with the default [base = today()] *)
Definition normalizeDateToISO (k : clock) (text : string) : res (option string) :=
  normalizeDateToISO_from k text (today k).

(** *** Name *)

(** [[A-Za-zÀ-ÿ]] and [[A-Za-zÀ-ÿ' -]] *)
Definition is_letter (a : ascii) : bool := is_AZ a || is_az a || in_range 192 255 a.
Definition is_name_char (a : ascii) : bool :=
  is_letter a || Ascii.eqb a "'" || Ascii.eqb a " " || Ascii.eqb a "-".
(** [([A-Za-zÀ-ÿ][A-Za-zÀ-ÿ' -]{1,})] as group 1 *)
Definition NAME : re := Grp 1 (Seq (Chr is_letter) (Rep 1 None (Chr is_name_char))).

(** [(?:please|pls|plz|thanks|thank\s*you)] *)
Definition POLITE : re :=
  alts [lit "please"; lit "pls"; lit "plz"; lit "thanks";
        seqs [lit "thank"; star ws; lit "you"]].

(** [/\b(please|pls|plz|thank\s*you|thanks)\b/gi], then
    [/^[,\-–—.\s]+|[,\-–—.\s]+$/g], then [/\s+/g] *)
Definition is_edge_punct (a : ascii) : bool :=
  Ascii.eqb a "," || Ascii.eqb a "-" || Ascii.eqb a "." || is_space a.

Definition cleanPoliteness (n : string) : string :=
  let n1 := replace_all true
              (seqs [Wb; Grp 1 (alts [lit "please"; lit "pls"; lit "plz";
                                      seqs [lit "thank"; star ws; lit "you"]; lit "thanks"]); Wb])
              "" n in
  let n2 := replace_all false
              (Alt (Seq Bol (plus (Chr is_edge_punct))) (Seq (plus (Chr is_edge_punct)) Eol))
              "" n1 in
  let n3 := replace_all false (plus ws) " " n2 in
  trim n3.

(** [/^[A-Za-zÀ-ÿ][A-Za-zÀ-ÿ' -]{1,}$/] *)
Definition looksLikeName (n : string) : bool :=
  test false (seqs [Bol; Chr is_letter; Rep 1 None (Chr is_name_char); Eol]) n.

Definition WEEKDAY_WORDS : list string :=
  ["sunday"; "monday"; "tuesday"; "wednesday"; "thursday"; "friday"; "saturday"].
Definition MONTH_WORDS : list string :=
  ["january"; "february"; "march"; "april"; "may"; "june"; "july"; "august";
   "september"; "october"; "november"; "december"].

Definition isDateLike (s : string) : bool :=
  let t := trim (toLowerCase s) in
  mem t WEEKDAY_WORDS
  || mem t MONTH_WORDS
  (* \b(today|tomorrow|tonight)\b *)
  || test false (seqs [Wb; Grp 1 (words ["today"; "tomorrow"; "tonight"]); Wb]) t
  (* \b(next|this)\s+(week|weekend|mon|...|sunday)\b *)
  || test false (seqs [Wb; Grp 1 (words ["next"; "this"]); plus ws;
                       Grp 2 (Alt (words ["week"; "weekend"]) WEEKDAY_ALT); Wb]) t
  || test false rx_numeric_date t
  (* \b(\d{1,2})\s+[a-z]{3,}\b  i *)
  || test true (seqs [Wb; Grp 1 d12; plus ws; az3; Wb]) t.

Definition isTimeOrGuestLike (s : string) : bool :=
  let t := toLowerCase s in
  (* \b(?:am|pm|noon|midday|midnight)\b *)
  test false (seqs [Wb; words ["am"; "pm"; "noon"; "midday"; "midnight"]; Wb]) t
  (* \b([01]?\d|2[0-3])[:.h][0-5]\d\b *)
  || test false (seqs [Wb; Grp 1 HOUR24; oneof ":.h"; MIN; Wb]) t
  || test false (seqs [Wb; GUEST_WORDS; Wb]) t
  || test false (seqs [Wb; CATEGORY_WORDS; Wb]) t
  (* \b\d+\b *)
  || test false (seqs [Wb; plus dig; Wb]) t.

(** The three cue patterns, in the order of the source array. *)
Definition name_patterns : list re :=
  [ (* \bunder\s+(?:the\s+name\s+)?(NAME)\b  i *)
    seqs [Wb; lit "under"; plus ws;
          opt (seqs [lit "the"; plus ws; lit "name"; plus ws]); NAME; Wb];
    (* \bname\s+(?:is\s+)?(NAME)\b  i *)
    seqs [Wb; lit "name"; plus ws; opt (seqs [lit "is"; plus ws]); NAME; Wb];
    (* ^(NAME)\s+(?:please|pls|plz|thanks|thank\s*you)\b  i *)
    seqs [Bol; NAME; plus ws; POLITE; Wb] ].

(** [/\bfor\s+(NAME)(?:[.!?,\s]|$)/i] *)
Definition rx_for_name : re :=
  seqs [Wb; lit "for"; plus ws; NAME;
        Alt (Chr (fun a => Ascii.eqb a "." || Ascii.eqb a "!" || Ascii.eqb a "?"
                           || Ascii.eqb a "," || is_space a)) Eol].

(** [/(?:\b(book|reserve|...|adults)\b|\d)/i] *)
Definition rx_sentencey : re :=
  Alt (seqs [Wb; Grp 1 (words ["book"; "reserve"; "table"; "tomorrow"; "today"; "tonight";
                               "morning"; "afternoon"; "evening"; "lunch"; "dinner";
                               "breakfast"; "am"; "pm"; "people"; "guests"; "pax"; "kids";
                               "adults"]); Wb])
      dig.

Fixpoint first_name_pattern (ps : list re) (s : string) : option string :=
  match ps with
  | [] => None
  | r :: ps' =>
      match exec true r s with
      | Some m =>
          let cand := cleanPoliteness (str_or (grp m 1) "") in
          if looksLikeName cand then Some cand else first_name_pattern ps' s
      | None => first_name_pattern ps' s
      end
  end.

Definition plausible_name (cand : string) : bool :=
  looksLikeName cand && negb (isDateLike cand) && negb (isTimeOrGuestLike cand).

Definition parseName (text : string) : option string :=
  let s := trim text in
  match first_name_pattern name_patterns s with
  | Some cand => Some cand
  | None =>
      let whole (_ : unit) : option string :=
        if negb (test true rx_sentencey s) then
          let cand := cleanPoliteness s in
          if plausible_name cand then Some cand else None
        else None in
      match exec true rx_for_name s with
      | Some m =>
          let cand := cleanPoliteness (str_or (grp m 1) "") in
          if plausible_name cand then Some cand else whole tt
      | None => whole tt
      end
  end.

(** *** Pretty printers *)

(** [/^\d{4}-\d{2}-\d{2}$/] *)
Definition rx_iso_date : re :=
  seqs [Bol; Grp 1 (rep 4 4 dig); ch "-"; Grp 2 d2; ch "-"; Grp 3 d2; Eol].

Definition prettyDate (k : clock) (input : string) : string :=
  if negb (truthy input) then input
  else
    let s := trim input in
    match exec false rx_iso_date s with
    | Some m => fmtDate k (Some (mkDate k (zof (intOf m 1)) (zof (intOf m 2) - 1) (zof (intOf m 3))))
    | None =>
        match parseDate k s with
        | Some pretty => pretty
        | None => input
        end
    end.

(** Clear/unclear check used by the handler. *)
Definition isDateUnclear (k : clock) (text : string) : bool :=
  if negb (truthy text) then true
  else
    let s := trim text in
    if test false rx_iso_date s then false
    else match parseDate k s with None => true | Some _ => false end.

End Parser.

(* ------------------------------------------------------------------ *)
(** ** The service-flow payload *)
(* ------------------------------------------------------------------ *)

Module Flow.
Import JS.

(** A collected slot value: a guest count or a text. *)
Inductive val : Type :=
| VNum : Z -> val
| VStr : string -> val.

Definition val_truthy (v : val) : bool :=
  match v with
  | VNum n => negb (n =? 0)
  | VStr s => truthy s
  end.

(** [String(v)] *)
Definition val_str (v : val) : string :=
  match v with
  | VNum n => ofZ n
  | VStr s => s
  end.

(** A JavaScript object used as a map from slot names to values; the
    entries are in insertion order, as [Object.entries] lists them. *)
Definition obj : Type := list (string * val).

Fixpoint get (k : string) (o : obj) : option val :=
  match o with
  | [] => None
  | (k', v) :: o' => if String.eqb k k' then Some v else get k o'
  end.

(** [o[k] = v] *)
Fixpoint set (k : string) (v : val) (o : obj) : obj :=
  match o with
  | [] => [(k, v)]
  | (k', v') :: o' => if String.eqb k k' then (k, v) :: o' else (k', v') :: set k v o'
  end.

Definition keys (o : obj) : list string := map fst o.

(** [!!o[k]] *)
Definition has (o : obj) (k : string) : bool :=
  match get k o with Some v => val_truthy v | None => false end.

(** The details of the short confirm/edit shape. *)
Record BookingDetails : Type := Details {
  d_name : option string;
  d_guests : option Z;
  d_date : option string;
  d_time : option string
}.

(** The payload of the [service_flow] column.  The code tells the two
    shapes apart by the keys that are present, so all keys are optional
    here; an absent [collected] and an empty one are read alike
    ([existingFlow.collected || {}]). *)
Record FlowState : Type := MkFlow {
  pending : option BookingDetails;
  step : option string;
  service_key : option string;
  required : option (list string);
  collected : obj;
  next : option string;
  pending_time_raw : option string
}.

(** [{ ...flow, collected, required, next }] *)
Definition with_slots (f : FlowState) (c : obj) (r : list string) (n : option string) : FlowState :=
  MkFlow (pending f) (step f) (service_key f) (Some r) c n (pending_time_raw f).

(** [delete flow.pending_time_raw] *)
Definition without_raw (f : FlowState) : FlowState :=
  MkFlow (pending f) (step f) (service_key f) (required f) (collected f) (next f) None.

End Flow.

(* ------------------------------------------------------------------ *)
(** ** Conversation state repository (repos/conv_state_repo.ts) *)
(* ------------------------------------------------------------------ *)

Module Repo.
Import Flow.

(** A row of [conversation_states]. *)
Record Row : Type := MkRow {
  property_id : string;
  conversation_id : string;
  paused : bool;
  resume_at : option Z;
  paused_until : option Z;
  escalated : bool;
  watch_mode : bool;
  clarify_attempts : Z;
  negative_count : Z;
  service_flow : option FlowState
}.

(** The table, as the list of its rows. *)
Definition Table : Type := list Row.

(** [WHERE property_id=$1 AND conversation_id=$2] *)
Definition is_key (pid cid : string) (r : Row) : bool :=
  String.eqb (property_id r) pid && String.eqb (conversation_id r) cid.

(** [WHERE conversation_id=$1] *)
Definition is_conv (cid : string) (r : Row) : bool := String.eqb (conversation_id r) cid.

(** [UPDATE ... SET ... WHERE c] and the [rowCount] it reports. *)
Definition update (c : Row -> bool) (f : Row -> Row) (t : Table) : Table :=
  map (fun r => if c r then f r else r) t.
Definition rowCount (c : Row -> bool) (t : Table) : nat := List.length (filter c t).

(** What [getState] selects of a row. *)
Record ConvState : Type := MkState {
  s_paused : bool;
  s_resume_at : option Z;
  s_escalated : bool;
  s_watch_mode : bool;
  s_clarify_attempts : Z;
  s_negative_count : Z
}.

Definition view (r : Row) : ConvState :=
  MkState (paused r) (resume_at r) (escalated r) (watch_mode r)
          (clarify_attempts r) (negative_count r).

Definition fresh (pid cid : string) : Row :=
  MkRow pid cid false None None false false 0 0 None.

(** [INSERT ... VALUES ($1, $2, false, NULL, false, false, 0, 0)
     ON CONFLICT (property_id, conversation_id) DO NOTHING] *)
Definition ensureState (pid cid : string) (t : Table) : Table :=
  if existsb (is_key pid cid) t then t else (t ++ [fresh pid cid])%list.

Definition getState (pid cid : string) (t : Table) : option ConvState :=
  option_map view (find (is_key pid cid) t).

Definition set_watch (r : Row) : Row :=
  MkRow (property_id r) (conversation_id r) (paused r) (resume_at r) (paused_until r)
        (escalated r) true (clarify_attempts r) (negative_count r) (service_flow r).

Definition enterSoftWatch (pid cid : string) (t : Table) : Table :=
  update (is_key pid cid) set_watch (ensureState pid cid t).

Definition incrementClarify (pid cid : string) (t : Table) : Table :=
  update (is_key pid cid)
    (fun r => MkRow (property_id r) (conversation_id r) (paused r) (resume_at r)
                    (paused_until r) (escalated r) (watch_mode r)
                    (clarify_attempts r + 1) (negative_count r) (service_flow r)) t.

Definition incrementNegative (pid cid : string) (t : Table) : Table :=
  update (is_key pid cid)
    (fun r => MkRow (property_id r) (conversation_id r) (paused r) (resume_at r)
                    (paused_until r) (escalated r) (watch_mode r)
                    (clarify_attempts r) (negative_count r + 1) (service_flow r)) t.

Definition set_escalated (r : Row) : Row :=
  MkRow (property_id r) (conversation_id r) (paused r) (resume_at r) (paused_until r)
        true (watch_mode r) (clarify_attempts r) (negative_count r) (service_flow r).

(** [WHERE property_id=$1 AND conversation_id=$2 AND escalated=false] *)
Definition not_yet_escalated (pid cid : string) (r : Row) : bool :=
  is_key pid cid r && negb (escalated r).

(** Returns the table and [true] if it had been escalated before (no
    update happened now). *)
Definition markEscalatedOnce (pid cid : string) (t : Table) : Table * bool :=
  let t1 := ensureState pid cid t in
  (update (not_yet_escalated pid cid) set_escalated t1,
   Nat.eqb (rowCount (not_yet_escalated pid cid) t1) 0).

(** The conversation has a row and every row of it is marked escalated. *)
Definition settled (pid cid : string) (t : Table) : Prop :=
  existsb (is_key pid cid) t = true /\ filter (not_yet_escalated pid cid) t = [].

(** Every row of the conversation has both counters at zero. *)
Definition zeroed (pid cid : string) (t : Table) : Prop :=
  forall r, In r t -> is_key pid cid r = true ->
            clarify_attempts r = 0 /\ negative_count r = 0.

(** [SET paused=true, resume_at=$1, watch_mode=false] *)
Definition enterHardPause (now : Z) (pid cid : string) (minutes : Z) (t : Table) : Table :=
  let resumeAt := now + minutes * 60 * 1000 in
  update (is_key pid cid)
    (fun r => MkRow (property_id r) (conversation_id r) true (Some resumeAt)
                    (paused_until r) (escalated r) false
                    (clarify_attempts r) (negative_count r) (service_flow r))
    (ensureState pid cid t).

(** [SET paused=false, resume_at=NULL, paused_until=NULL, watch_mode=false,
     clarify_attempts=0, negative_count=0] *)
Definition resumed (r : Row) : Row :=
  MkRow (property_id r) (conversation_id r) false None None
        (escalated r) false 0 0 (service_flow r).

Definition resumeNow (pid cid : string) (t : Table) : Table :=
  update (is_key pid cid) resumed (ensureState pid cid t).

Definition elapsed (now : Z) (o : option Z) : bool :=
  match o with Some d => d <=? now | None => false end.

(** [WHERE paused=true AND ((resume_at IS NOT NULL AND resume_at <= NOW())
     OR (paused_until IS NOT NULL AND paused_until <= NOW())) LIMIT 200] *)
Definition due (now : Z) (r : Row) : bool :=
  paused r && (elapsed now (resume_at r) || elapsed now (paused_until r)).

Definition due_rows (now : Z) (t : Table) : list Row := firstn 200 (filter (due now) t).

(** The auto-resume sweep: every due row (at most 200) is resumed. *)
Definition autoResumeDueConversations (now : Z) (t : Table) : Table * list (string * string) :=
  let rows := due_rows now t in
  (fold_left (fun t' r => resumeNow (property_id r) (conversation_id r) t') rows t,
   map (fun r => (property_id r, conversation_id r)) rows).

(** Clear only pause/watch flags (used by [resumeBot]):
    [SET paused=false, resume_at=NULL, paused_until=NULL, watch_mode=false] *)
Definition clearPause (pid cid : string) (t : Table) : Table :=
  update (is_key pid cid)
    (fun r => MkRow (property_id r) (conversation_id r) false None None
                    (escalated r) false (clarify_attempts r) (negative_count r)
                    (service_flow r)) t.

(** Fully reset state (used by [resolveConversation]):
    [SET paused=false, resume_at=NULL, paused_until=NULL, escalated=false,
     watch_mode=false, clarify_attempts=0, negative_count=0] *)
Definition clearState (pid cid : string) (t : Table) : Table :=
  update (is_key pid cid)
    (fun r => MkRow (property_id r) (conversation_id r) false None None
                    false false 0 0 (service_flow r)) t.

(** [SET paused = TRUE, resume_at = NOW() + ($1 || ' minutes')::interval,
     paused_until = NULL, watch_mode = FALSE] *)
Definition manualPauseForMinutes (now : Z) (pid cid : string) (minutes : Z) (t : Table) : Table :=
  update (is_key pid cid)
    (fun r => MkRow (property_id r) (conversation_id r) true
                    (Some (now + minutes * 60000)) None
                    (escalated r) false (clarify_attempts r) (negative_count r)
                    (service_flow r)) t.

(** [SET paused = FALSE, resume_at = NULL, paused_until = NULL] *)
Definition clearPauseTimed (pid cid : string) (t : Table) : Table :=
  update (is_key pid cid)
    (fun r => MkRow (property_id r) (conversation_id r) false None None
                    (escalated r) (watch_mode r) (clarify_attempts r) (negative_count r)
                    (service_flow r)) t.

(** Reset only negative counter: [SET negative_count = 0] *)
Definition resetNegativeCount (pid cid : string) (t : Table) : Table :=
  update (is_key pid cid)
    (fun r => MkRow (property_id r) (conversation_id r) (paused r) (resume_at r)
                    (paused_until r) (escalated r) (watch_mode r)
                    (clarify_attempts r) 0 (service_flow r)) t.

(** [SELECT service_flow ... WHERE conversation_id=$1], first row *)
Definition getServiceFlow (cid : string) (t : Table) : option FlowState :=
  match find (is_conv cid) t with
  | Some r => service_flow r
  | None => None
  end.

(** [UPDATE ... SET service_flow=$2 WHERE conversation_id=$1] *)
Definition setServiceFlow (cid : string) (flow : option FlowState) (t : Table) : Table :=
  update (is_conv cid)
    (fun r => MkRow (property_id r) (conversation_id r) (paused r) (resume_at r)
                    (paused_until r) (escalated r) (watch_mode r)
                    (clarify_attempts r) (negative_count r) flow) t.

End Repo.

(* ------------------------------------------------------------------ *)
(** ** The world a request runs in: table, platform calls, exceptions *)
(* ------------------------------------------------------------------ *)

Module World.
Import Parser.

(** A call to the chat platform or to Messenger (adapters/). *)
Inductive effect : Type :=
| AddLabels (cid : string) (labels : list string)
| UpdatePriority (cid : string) (priority : string)
| UpdateStatus (cid : string) (status : string)
| PrivateMessage (cid : string) (content : string)
| ReplyFromBot (cid : string) (content : string) (private : option bool)
| AssignToUser (cid : string) (assignee : Z) (team : option Z)
| TypingOn (cid : string)
| TypingOff (cid : string)
| MessengerButtons (psid : string) (text : string) (buttons : list (string * string))
| SavePsidMapping (psid : string) (cid : string) (property : string).

Record world : Type := MkWorld {
  table : Repo.Table;
  log : list effect
}.

Inductive outcome (A : Type) : Type :=
| Ret : A -> outcome A
| Thrown : outcome A.
Arguments Ret {A} _.
Arguments Thrown {A}.

(** An asynchronous function of the source: it reads and writes the
    table, calls the platform, and returns or throws. *)
Definition M (A : Type) : Type := world -> outcome A * world.

Definition ret {A} (a : A) : M A := fun w => (Ret a, w).

Definition bind {A B} (m : M A) (f : A -> M B) : M B :=
  fun w =>
    match m w with
    | (Ret a, w') => f a w'
    | (Thrown, w') => (Thrown, w')
    end.

Definition throw {A} : M A := fun w => (Thrown, w).

(** [try { m } catch { }] *)
Definition attempt (m : M unit) : M unit :=
  fun w =>
    match m w with
    | (Ret _, w') => (Ret tt, w')
    | (Thrown, w') => (Ret tt, w')
    end.

(** [try { return m } catch { h }] *)
Definition catch {A} (m : M A) (h : M A) : M A :=
  fun w =>
    match m w with
    | (Ret a, w') => (Ret a, w')
    | (Thrown, w') => h w'
    end.

(** [try { m } finally { f }] *)
Definition finally {A} (m : M A) (f : M unit) : M A :=
  fun w =>
    match m w with
    | (r, w') => match f w' with (_, w'') => (r, w'') end
    end.

Definition lift {A} (r : res A) : M A :=
  match r with Ok a => ret a | Throw => throw end.

Definition emit (e : effect) : M unit :=
  fun w => (Ret tt, MkWorld (table w) (log w ++ [e])%list).

Definition query {A} (f : Repo.Table -> A) : M A := fun w => (Ret (f (table w)), w).

Definition exec_sql (f : Repo.Table -> Repo.Table) : M unit :=
  fun w => (Ret tt, MkWorld (f (table w)) (log w)).

(** The effects a run appends to the log. *)
Definition run {A} (m : M A) (w : world) : outcome A * world := m w.

End World.

Declare Scope monad_scope.
Delimit Scope monad_scope with monad.
Notation "x <- m ;; k" := (World.bind m (fun x => k))
  (at level 61, m at next level, right associativity) : monad_scope.
Notation "m ;;; k" := (World.bind m (fun _ => k))
  (at level 61, right associativity) : monad_scope.
Open Scope monad_scope.

(* ------------------------------------------------------------------ *)
(** ** UI texts (ui.ts) *)
(* ------------------------------------------------------------------ *)

Module UI.

Inductive lang : Type := en | vi | nl.

Record texts : Type := MkTexts {
  ask_time : string;
  ask_date : string;
  clarify_time_period : string;
  clarify_generic_1 : string;
  clarify_generic_2 : string;
  qr_morning : string;
  qr_evening : string;
  qr_today : string;
  qr_tomorrow : string;
  empathy_reply : string;
  human_escalation : string;
  chitchat_prompt : string;
  thanks_reply : string;
  fallback_default : string
}.

Definition UI (l : lang) : texts :=
  match l with
  | en => MkTexts
      "What time would you like?"
      "Which date?"
      "Just to be sure — {time} in the morning or in the evening?"
      "Just to be sure I’ve got you right — did you mean X? If it’s easier, you can rephrase and I’ll try again."
      "I might be off — could you share one extra detail (date/name/room)? I’ll help or loop a teammate in."
      "in the morning"
      "in the evening"
      "Today"
      "Tomorrow"
      "I’m really sorry about that. I can help fix this now — could you share one detail (what happened or when), and I’ll sort it or loop a teammate in?"
      "Thanks — I’ve alerted a teammate who’ll get back to you as soon as possible. In the meantime, is there anything else I can help you with?"
      "Happy to chat! How can I help with your stay/visit?"
      "You’re welcome! Anything else I can help with?"
      "I didn’t quite catch that — could you rephrase?"
  | vi => MkTexts
      "Bạn muốn lúc mấy giờ?"
      "Bạn muốn vào ngày nào?"
      "Cho chắc nhé — {time} buổi sáng hay buổi tối?"
      "Cho chắc nhé — bạn đang muốn nói về X? Nếu tiện, bạn có thể diễn đạt lại và mình sẽ thử lại ạ."
      "Có thể mình hiểu chưa đúng — bạn cho mình thêm 1 chi tiết (ngày/tên/phòng) nhé? Mình sẽ hỗ trợ hoặc mời đồng đội vào giúp."
      "buổi sáng"
      "buổi tối"
      "Hôm nay"
      "Ngày mai"
      "Rất xin lỗi về việc này. Bạn cho mình một chi tiết (điều gì đã xảy ra/ thời gian) nhé — mình sẽ xử lý hoặc mời đồng đội vào hỗ trợ ngay."
      "Cảm ơn bạn — mình đã báo cho đồng đội, họ sẽ phản hồi sớm nhất. Trong lúc chờ, mình có thể giúp gì thêm không?"
      "Mình sẵn sàng hỗ trợ! Bạn cần mình giúp gì cho kỳ nghỉ/chuyến thăm của bạn?"
      "Rất vui được giúp! Bạn cần hỗ trợ gì thêm không?"
      "Mình chưa rõ ý bạn — bạn nói lại giúp mình nhé?"
  | nl => MkTexts
      "Om hoe laat wil je?"
      "Op welke datum?"
      "Voor de zekerheid — {time} in de ochtend of in de avond?"
      "Voor de zekerheid — bedoelde je X? Als het makkelijker is, kun je het herformuleren en dan probeer ik het opnieuw."
      "Ik twijfel een beetje — kun je één extra detail delen (datum/naam/kamer)? Dan help ik of haal ik een collega erbij."
      "in de ochtend"
      "in de avond"
      "Vandaag"
      "Morgen"
      "Het spijt me zeer. Ik kan dit nu voor je oplossen — wil je één detail delen (wat er gebeurde of wanneer)? Dan regel ik het of schakel ik een collega in."
      "Bedankt — ik heb een collega gewaarschuwd die zo snel mogelijk reageert. Kan ik intussen nog ergens mee helpen?"
      "Leuk om te praten! Waarmee kan ik je verblijf/bezoek helpen?"
      "Graag gedaan! Kan ik nog ergens mee helpen?"
      "Dat heb ik niet helemaal begrepen — kun je het herformuleren?"
  end.

(** [WELCOME_SETS.hotel], as (title, payload) pairs; every vertical falls
    back to it. *)
Definition getWelcomeQuickReplies : list (string * string) :=
  [("🛎 Book a table", "Book a table");
   ("📅 Check-in info", "WELCOME_CHECKIN_INFO");
   ("🍳 Breakfast hours", "WELCOME_BREAKFAST_HOURS")].

End UI.

(* ------------------------------------------------------------------ *)
(** ** What the process reads from its environment and collaborators *)
(* ------------------------------------------------------------------ *)

Module Config.
Import Parser.

(** What [extractBookingEntitiesLLM] returns: the known keys only, each a
    trimmed non-empty text when present ([guests] as [String] prints it). *)
Record BookingEntities : Type := MkEntities {
  e_guests : option string;
  e_time : option string;
  e_date : option string;
  e_name : option string
}.

(** A row of [service_actions]. *)
Record ServiceAction : Type := MkAction {
  action_type : string;
  reply_template : option string;
  requires_fields : option string
}.

(** What [handleFaq] and [handleSmalltalk] hand back to the router. *)
Record HandlerResult : Type := MkHandled {
  h_handled : bool;
  h_reply : option string
}.

Record env : Type := MkEnv {
  clk : DateJS.clock;
  (** [resolveLang(undefined)]: DEFAULT_LANG when it names a UI language *)
  DEFAULT_LANG : UI.lang;
  (** PROPERTY_ID, empty when unset *)
  PROPERTY_ID : string;
  (** LLM_SLOT_PREFILL, the answer of the extraction service to a message,
      and [Number(WHEN_LLM_MIN_CONFIDENCE ?? 0.7)] ([None] is NaN) *)
  LLM_SLOT_PREFILL : bool;
  extractBookingEntitiesLLM : string -> res BookingEntities;
  WHEN_LLM_MIN_CONFIDENCE : option Q;
  (** SERVICE_FLOW_USE_BUTTONS and the Messenger id [extractPsid] finds in
      a conversation *)
  SERVICE_FLOW_USE_BUTTONS : bool;
  extractPsid : string -> option string;
  (** the two queries of repos/service_repo.ts *)
  findServiceKeyByText : string -> string -> res (option string);
  getServiceActions : string -> string -> res (list ServiceAction);
  (** CW_DEFAULT_ASSIGNEE_ID, CW_TEAM_ID, and whether the platform shows an
      assignee on a conversation before the request *)
  DEFAULT_ASSIGN : option Z;
  DEFAULT_TEAM : option Z;
  assigned_before : string -> bool;
  SOFTWATCH_NOTIFY_ONCE : bool;
  (** [Number(AUTO_RESUME_MINUTES || 30)] *)
  AUTO_RESUME_MINUTES : Z;
  (** [getAiSettings(...).chitchat_enabled] *)
  CHITCHAT_ENABLED : bool;
  (** the FAQ search, for a property and a text *)
  handleFaq : string -> string -> HandlerResult;
  (** CW_PREFIX_BOT when it is set ([None] stands for the default prefix,
      whose first character no text of the model can contain),
      [Number(MANUAL_REPLY_PAUSE_MINUTES || 30)],
      [Number(MAX_CLARIFY_ATTEMPTS || 2)] and the list ESCALATE_KEYWORDS *)
  CW_PREFIX_BOT : option string;
  MANUAL_REPLY_PAUSE_MINUTES : Z;
  MAX_CLARIFY_ATTEMPTS : Z;
  ESCALATE_KEYWORDS : list string;
  (** whether [new Date(s)] is a date for the engine, that is
      [!Number.isNaN(new Date(s).getTime())] *)
  date_parses : string -> bool
}.

End Config.

(* ------------------------------------------------------------------ *)
(** ** Validation of extracted slots (ai/validators/when_validator.ts) *)
(* ------------------------------------------------------------------ *)

Module Validator.
Import JS Regex Parser.

(** [LlmBookingSlots], with [flex?.approx] for [flex]; [delta_minutes] and
    the other keys are not read by the validator. *)
Record LlmBookingSlots : Type := MkSlots {
  service : option string;
  date : option string;
  time : option string;
  datetime : option string;
  date_only : option string;
  time_only : option string;
  language : option string;
  ampm_hint : option string;
  confidence : option Q;
  flex_approx : option bool
}.

Record NormalizedBooking : Type := MkNormalized {
  n_service : string;
  n_date : option string;
  n_time : option string;
  n_datetime : option string;
  n_language : option string;
  n_approx : bool;
  n_confidence : Q
}.

Inductive ValidationOutcome : Type :=
| Valid (normalized : NormalizedBooking)
| Invalid (reason : string) (needs_clarify : option string).

(** [/^\d{4}-\d{2}-\d{2}$/], and [new Date(s + "T00:00:00Z")] is a date:
    the engine accepts months 01..12 and days 01..31. *)
Definition isIsoDate (s : option string) : bool :=
  match s with
  | None => false
  | Some s =>
      match exec false rx_iso_date s with
      | Some m => between 1 12 (intOf m 2) && between 1 31 (intOf m 3)
      | None => false
      end
  end.

(** [/^([01]\d|2[0-3]):[0-5]\d$/] *)
Definition rx_iso_time : re :=
  seqs [Bol; Grp 1 (Alt (Seq (oneof "01") dig) (Seq (ch "2") (oneof "0123")));
        ch ":"; MIN; Eol].

Definition isIsoTime (s : option string) : bool :=
  match s with
  | None => false
  | Some s => truthy s && test false rx_iso_time s
  end.

Definition is_hint (h : option string) : bool :=
  match h with Some h => String.eqb h "AM" || String.eqb h "PM" | None => false end.

Definition timeLooksAmbiguous (time ampmHint : option string) : bool :=
  match time with
  | None => false
  | Some time =>
      if negb (truthy time) then false
      else if is_hint ampmHint then false
      else
        match exec false rx_bare_hour time with
        | None => false
        | Some m =>
            match intOf m 1 with
            | None => false
            | Some hour => if 13 <=? hour then false else (1 <=? hour) && (hour <=? 12)
            end
        end
  end.

Definition to24h (time ampmHint : option string) : option string :=
  match time with
  | None => None
  | Some time =>
      match exec false rx_bare_hour time with
      | None => None
      | Some m =>
          let hh := zof (intOf m 1) in
          let mm := zof (parseInt (str_or (grp m 2) "0")) in
          let hh := if String.eqb (str_or ampmHint "") "AM" && (hh =? 12) then 0 else hh in
          let hh := if String.eqb (str_or ampmHint "") "PM" && (hh <? 12) then hh + 12 else hh in
          let out := padStart0 2 (ofZ hh) ++ ":" ++ padStart0 2 (ofZ mm) in
          if isIsoTime (Some out) then Some out else None
      end
  end.

(** [(x || "").toString().trim() || undefined] *)
Definition trimmed (x : option string) : option string :=
  match x with
  | Some s => if truthy (trim s) then Some (trim s) else None
  | None => None
  end.

Definition at_least (conf : Q) (minConf : option Q) : bool :=
  match minConf with
  | Some m => Qle_bool m conf
  | None => false
  end.

(** [a || b] *)
Definition first_of (a b : option string) : option string :=
  match a with
  | Some s => if truthy s then Some s else b
  | None => b
  end.

(** [/^\d{4}-\d{2}-\d{2}T\d{2}:\d{2}(:\d{2})?([.+-]?\d{2}:?\d{2}|Z)?$/] *)
Definition rx_iso_datetime : re :=
  seqs [Bol; rep 4 4 dig; ch "-"; d2; ch "-"; d2; ch "T"; d2; ch ":"; d2;
        opt (Grp 1 (Seq (ch ":") d2));
        opt (Grp 2 (Alt (seqs [opt (oneof ".+-"); d2; opt (ch ":"); d2]) (ch "Z")));
        Eol].

(** [/^\d{4}-\d{2}-\d{2}T\d{2}:\d{2}$/] *)
Definition rx_partial_datetime : re :=
  seqs [Bol; rep 4 4 dig; ch "-"; d2; ch "-"; d2; ch "T"; d2; ch ":"; d2; Eol].

(** [parses s] stands for [!Number.isNaN(new Date(s).getTime())], the
    verdict of the engine's date parser. *)
Definition isIsoDateTime (parses : string -> bool) (s : option string) : bool :=
  match s with
  | None => false
  | Some s => truthy s && test false rx_iso_datetime s && parses s
  end.

Definition combineDateTime (date time : option string) : option string :=
  if negb (isIsoDate date) || negb (isIsoTime time) then None
  else Some (str_or date "" ++ "T" ++ str_or time "" ++ ":00").

(** [(slots.language || "").toString().trim().toLowerCase() || undefined] *)
Definition lowered (x : option string) : option string :=
  match x with
  | Some s => if truthy (toLowerCase (trim s)) then Some (toLowerCase (trim s)) else None
  | None => None
  end.

(** The datetime the validator keeps of the one it is given: an ISO
    datetime as it is, [YYYY-MM-DDTHH:MM] with [:00] appended if that makes
    it one, nothing otherwise. *)
Definition given_datetime (parses : string -> bool) (x : option string) : option string :=
  match trimmed x with
  | None => None
  | Some datetime =>
      if isIsoDateTime parses (Some datetime) then Some datetime
      else
        let patched :=
          if test false rx_partial_datetime datetime then Some (datetime ++ ":00") else None in
        match patched with
        | Some p => if isIsoDateTime parses (Some p) then Some p else None
        | None => None
        end
  end.

Definition validateBookingSlots (parses : string -> bool) (slots : option LlmBookingSlots)
  (minConfidence : option Q) (isKnownService : option (string -> bool)) : ValidationOutcome :=
  match slots with
  | None => Invalid "empty_or_bad_shape" (Some "unknown")
  | Some slots =>
  let conf := match confidence slots with Some c => c | None => 0%Q end in
  if negb (at_least conf minConfidence) then Invalid "low_confidence" None
  else
    let language := lowered (language slots) in
    let service := trim (str_or (service slots) "") in
    if negb (truthy service) then Invalid "missing_service" (Some "service")
    else if match isKnownService with Some known => negb (known service) | None => false end
    then Invalid "unknown_service" (Some "service")
    else
      let date := trimmed (first_of (date slots) (date_only slots)) in
      let timeRaw := trimmed (first_of (time slots) (time_only slots)) in
      let time := to24h timeRaw (ampm_hint slots) in
      match timeRaw, time with
      | Some _, None => Invalid "bad_time_format" (Some "time_period")
      | _, _ =>
          let datetime := given_datetime parses (datetime slots) in
          let datetime :=
            match datetime with
            | Some d => Some d
            | None =>
                if isIsoDate date && isIsoTime time then combineDateTime date time else None
            end in
          let bad_date :=
            match datetime, date with
            | None, Some _ => negb (isIsoDate date)
            | _, _ => false
            end in
          let bad_time :=
            match datetime, time with
            | None, Some _ => negb (isIsoTime time)
            | _, _ => false
            end in
          if bad_date then Invalid "bad_date_format" (Some "date")
          else if bad_time then Invalid "bad_time_format" (Some "time_period")
          else if timeLooksAmbiguous time (ampm_hint slots)
          then Invalid "ambiguous_time_period" (Some "time_period")
          else Valid (MkNormalized service
                        (if isIsoDate date then date else None)
                        (if isIsoTime time then time else None)
                        datetime language
                        (match flex_approx slots with Some true => true | _ => false end)
                        conf)
      end
  end.

End Validator.

(* ------------------------------------------------------------------ *)
(** ** Dialog engine (handlers/service_handler.ts) *)
(* ------------------------------------------------------------------ *)

Module Service.
Import JS Regex DateJS Parser Flow World Config.

Record ServiceRequest : Type := MkRequest {
  text : string;
  norm : option string;
  tenantId : option string;
  conversationId : string
}.

(** The [meta] of a result: its step, the service, whether Messenger took
    the message, and the quick replies as (title, payload) pairs. *)
Record Meta : Type := MkMeta {
  m_step : option string;
  m_service_key : option string;
  sent_via_messenger : bool;
  quick_replies : list (string * string);
  requires : option string
}.

Record ServiceResult : Type := MkResult {
  handled : bool;
  reply : option string;
  escalate : bool;
  reason : option string;
  meta : Meta
}.

Definition no_meta : Meta := MkMeta None None false [] None.
Definition meta_of (key : option string) (step : string) (sent : bool)
  (qrs : list (string * string)) : Meta :=
  MkMeta (Some step) key sent qrs None.

Definition dquote : string := String (ascii_of_N 34) "".
Definition newline : string := String (ascii_of_N 10) "".

(** The replacement text of [String.prototype.replace] for a pattern
    without groups: [$$], [$&], [$`] and [$'] are expanded. *)
Fixpoint substitution (matched before after : string) (t : string) : string :=
  match t with
  | EmptyString => EmptyString
  | String a r =>
      if Ascii.eqb a "$" then
        match r with
        | String c r' =>
            if Ascii.eqb c "$" then String "$" (substitution matched before after r')
            else if Ascii.eqb c "&" then matched ++ substitution matched before after r'
            else if Ascii.eqb c "`" then before ++ substitution matched before after r'
            else if Ascii.eqb c "'" then after ++ substitution matched before after r'
            else String a (substitution matched before after r)
        | EmptyString => String a EmptyString
        end
      else String a (substitution matched before after r)
  end.

Fixpoint format_from (n : nat) (r : re) (v : string) (done : string) (s : string) : string :=
  match n with
  | O => s
  | S n' =>
      match exec false r s with
      | None => s
      | Some h =>
          pre h ++ substitution (m0 h) (done ++ pre h) (post h) v
          ++ format_from n' r v (done ++ pre h ++ m0 h) (post h)
      end
  end.

(** [formatUI(tpl, { time })]: every [{time}] of the template replaced. *)
Definition formatUI (tpl : string) (time : string) : string :=
  format_from (S (String.length tpl)) (lit "{time}") time "" tpl.

(** [extractTimeToken]: prefer "H:MM" or "H.MM" of the original message.
    [/\b(\d{1,2})([:.](\d{2}))\b/], then the first [.] turned into [:]. *)
Definition extractTimeToken (text fallback : string) : string :=
  match exec false (seqs [Wb; Grp 1 d12; Grp 2 (Seq (oneof ":.") (Grp 3 d2)); Wb]) text with
  | Some m => replace_first false (ch ".") ":" (m0 m)
  | None => fallback
  end.

(** [/^(\d{1,2}):(\d{2})$/] *)
Definition formatAmPm (time : string) : string :=
  match exec false (seqs [Bol; Grp 1 d12; ch ":"; Grp 2 d2; Eol]) time with
  | None => time
  | Some m =>
      let hh := zof (intOf m 1) in
      let mm := str_or (grp m 2) "" in
      let period := if 12 <=? hh then "PM" else "AM" in
      let hh := if hh =? 0 then 12 else hh in
      let hh := if 12 <? hh then hh - 12 else hh in
      ofZ hh ++ ":" ++ mm ++ " " ++ period
  end.

(** [word.charAt(0).toUpperCase()]: one character, except for the sharp s.
    (The capital of U+00FF lies outside the alphabet of the model; the
    letter is kept.) *)
Definition upper_first (a : ascii) : string :=
  if (code a =? 223)%N then "SS" else String (upper_char a) "".

(** [name.split(/\s+/)]: an empty piece where the text starts or ends with
    white space. *)
Fixpoint split_ws (s : string) (cur : string) (in_gap : bool) : list string :=
  match s with
  | EmptyString => [cur]
  | String a r =>
      if is_space a then
        if in_gap then split_ws r cur true else cur :: split_ws r "" true
      else split_ws r (cur ++ String a "") false
  end.

Definition toTitleCase (name : string) : string :=
  join " " (map (fun word =>
                   match word with
                   | String a r => upper_first a ++ toLowerCase r
                   | EmptyString => ""
                   end)
                (split_ws name "" false)).

Definition str_of (o : obj) (k : string) : option string :=
  match get k o with
  | Some v => if val_truthy v then Some (val_str v) else None
  | None => None
  end.

(** The lines are joined by a backslash followed by [n], as in the source. *)
Definition buildDetailsSummary (collected : obj) : string :=
  join "\n"
    (somes [option_map (fun n => "Name: " ++ toTitleCase n) (str_of collected "name");
            option_map (fun g => "Guests: " ++ g) (str_of collected "guests");
            option_map (fun t => "Time: " ++ formatAmPm t) (str_of collected "time");
            option_map (fun d => "Date: " ++ d) (str_of collected "date")]).

Definition confirmText (collected : obj) : string :=
  "Please confirm:" ++ newline ++ buildDetailsSummary collected ++ newline ++ newline
  ++ "Is this correct?".

Definition yes_no_replies : list (string * string) := [("Yes", "YES"); ("No", "NO")].

(** Synonyms of the clarifier that the alphabet of the model can spell;
    the Vietnamese entries other than "sáng" cannot occur in a text. *)
Definition TIME_PERIOD_SYNONYMS (l : UI.lang) : list string * list string :=
  match l with
  | UI.en => (["am"; "a.m."; "morning"; "mrn"; "morn"; "moorning"],
              ["pm"; "p.m."; "evening"; "eve"; "evng"; "evning"; "night"; "ngt"; "nigt";
               "afternoon"; "aft"])
  | UI.vi => (["s" ++ String (ascii_of_N 225) "ng"], [])
  | UI.nl => (["ochtend"; "'s ochtends"; "smorgens"],
              ["middag"; "'s middags"; "avond"; "'s avonds"; "nacht"])
  end.

(** [REGISTRY]: the patterns and the reply of each service, in key order. *)
Definition dots12 : re := rep 0 12 dot.

Definition REGISTRY : list (string * (list re * string)) :=
  [("BOOK_TABLE",
    ([ (* reserv(e|ation) *)
       Seq (lit "reserv") (Grp 1 (Alt (lit "e") (lit "ation")));
       (* book\s+a\s+table *)
       seqs [lit "book"; plus ws; ch "a"; plus ws; lit "table"];
       (* book.{0,12}tabl[e]? *)
       seqs [lit "book"; dots12; lit "tabl"; opt (ch "e")];
       (* table\s+for\s+\d+ *)
       seqs [lit "table"; plus ws; lit "for"; plus ws; plus dig];
       (* can\s+i\s+book\s+a\s+table *)
       seqs [lit "can"; plus ws; ch "i"; plus ws; lit "book"; plus ws; ch "a"; plus ws; lit "table"];
       (* book.{0,12}tbale *)
       seqs [lit "book"; dots12; lit "tbale"];
       (* bok.{0,12}table *)
       seqs [lit "bok"; dots12; lit "table"];
       (* b00k.{0,12}table *)
       seqs [lit "b00k"; dots12; lit "table"] ],
     "I can help with a table booking. Please share: date, time, number of guests, and a name. I’ll confirm availability right away."));
   ("LATE_CHECKOUT",
    ([ (* late\s*check\s*out *)
       seqs [lit "late"; star ws; lit "check"; star ws; lit "out"];
       (* extend\s*checkout *)
       seqs [lit "extend"; star ws; lit "checkout"] ],
     "Late checkout is usually possible. What time would you prefer? I’ll check availability and confirm any fee."));
   ("SPA_BOOKING",
    ([ (* spa.*(book|reserve) *)
       seqs [lit "spa"; star dot; Grp 1 (words ["book"; "reserve"])];
       (* (massage|facial|treatment).*book *)
       seqs [Grp 1 (words ["massage"; "facial"; "treatment"]); star dot; lit "book"] ],
     "Great choice! Tell me your preferred date/time and treatment type, and I’ll arrange the spa booking for you."))].

Fixpoint matchService_in (reg : list (string * (list re * string))) (text : string) : option string :=
  match reg with
  | [] => None
  | (key, (patterns, _)) :: reg' =>
      if existsb (fun rx => test true rx text) patterns then Some key
      else matchService_in reg' text
  end.

Definition matchService (text : string) : option string := matchService_in REGISTRY text.

Definition registry_reply (key : string) : option string :=
  option_map snd (assoc key REGISTRY).

Definition REQUIRED_FIELDS : list (string * list string) :=
  [("BOOK_TABLE", ["guests"; "time"; "date"; "name"]);
   ("LATE_CHECKOUT", ["time"; "name"]);
   ("SPA_BOOKING", ["date"; "time"; "name"])].

Definition parseForField (k : clock) (field : string) (text : string) : option val :=
  if String.eqb field "guests" then option_map VNum (parseGuests text)
  else if String.eqb field "time" then option_map VStr (parseTime text)
  else if String.eqb field "date" then option_map VStr (parseDate k text)
  else if String.eqb field "name" then option_map VStr (parseName text)
  else None.

(** [/am|pm/i] and [/^(\d{1,2})(?::\d{2})?/] *)
Definition timeNeedsAmPm (userText rawParsed : string) : bool :=
  if isTimeUnclear userText then true
  else if negb (truthy rawParsed) then false
  else if test true AMPM userText then false
  else
    match exec false (seqs [Bol; Grp 1 d12; opt (Seq (ch ":") d2)]) rawParsed with
    | None => false
    | Some m =>
        match intOf m 1 with
        | Some hour => if 13 <=? hour then false else (1 <=? hour) && (hour <=? 12)
        | None => false
        end
    end.

Definition askPrompt (field : option string) (lang : UI.lang) : string :=
  match field with
  | Some "guests" => "How many guests?"
  | Some "time" => UI.ask_time (UI.UI lang)
  | Some "date" => "📅 Which date?"
  | Some "name" => "Under what name should I put the booking?"
  | _ => "Could you share a few more details?"
  end.

(** The prompt for the next question and its quick replies. *)
Definition buildPrompt (field : option string) (lang : UI.lang) : string * list (string * string) :=
  match field with
  | Some "date" =>
      (UI.ask_date (UI.UI lang),
       [(UI.qr_today (UI.UI lang), "today"); (UI.qr_tomorrow (UI.UI lang), "tomorrow")])
  | _ => (askPrompt field lang, [])
  end.

(** What [prefillFromMessage] gathers. *)
Record Prefill : Type := MkPrefill {
  p_guests : option Z;
  p_time : option string;
  p_date : option string;
  p_name : option string;
  p_pending_time_raw : option string
}.

Definition nonempty (o : option string) : option string :=
  match o with
  | Some s => if truthy s then Some s else None
  | None => None
  end.

Definition nonzero (o : option Z) : option Z :=
  match o with
  | Some n => if n =? 0 then None else Some n
  | None => None
  end.

(** The date both [prefillFromMessage] and [tryFieldUpdate] take from a
    text: the ISO form if there is one, else what [parseDate] reads, kept
    when it is clear. *)
Definition date_of_text (k : clock) (text : string) : res (option string) :=
  match normalizeDateToISO k text with
  | Throw => Throw
  | Ok iso =>
      let dRaw := match nonempty iso with Some i => Some i | None => nonempty (parseDate k text) end in
      match dRaw with
      | Some d => if isDateUnclear k d then Ok None else Ok (Some (prettyDate k d))
      | None => Ok None
      end
  end.

(** The part of [prefillFromMessage] that runs the local parsers. *)
Definition prefill_local (k : clock) (text : string) : res Prefill :=
  let g := nonzero (parseGuests text) in
  let '(time, raw) :=
    match nonempty (parseTime text) with
    | Some tRaw =>
        if timeNeedsAmPm text tRaw then (None, Some (extractTimeToken text tRaw))
        else (Some (prettyTime tRaw), None)
    | None => (None, None)
    end in
  match date_of_text k text with
  | Throw => Throw
  | Ok d => Ok (MkPrefill g time d (nonempty (parseName text)) raw)
  end.

(** The part that consults the extraction service; whatever it throws is
    swallowed.  The slots are [{ ...llm, service }]: the extraction returns
    only [guests], [time], [date] and [name], so the validator's other keys
    are absent. *)
Definition prefill_llm (e : env) (text : string) (serviceKey : string) (out : Prefill) : Prefill :=
  match extractBookingEntitiesLLM e text with
  | Throw => out
  | Ok llm =>
      let slots :=
        Validator.MkSlots (Some serviceKey) (e_date llm) (e_time llm)
          None None None None None None None in
      match Validator.validateBookingSlots (date_parses e) (Some slots)
              (WHEN_LLM_MIN_CONFIDENCE e) (Some (fun _ => true)) with
      | Validator.Invalid _ needs =>
          match needs, nonempty (e_time llm), nonempty (p_time out), nonempty (p_pending_time_raw out) with
          | Some "time_period", Some t, None, None =>
              MkPrefill (p_guests out) (p_time out) (p_date out) (p_name out) (Some t)
          | _, _, _, _ => out
          end
      | Validator.Valid normalized =>
          let g := match e_guests llm, p_guests out with
                   | Some lg, None => nonzero (parseGuests lg)
                   | _, _ => p_guests out
                   end in
          let t := match nonempty (p_time out), nonempty (Validator.n_time normalized) with
                   | None, Some nt => Some (prettyTime nt)
                   | _, _ => p_time out
                   end in
          let d := match nonempty (p_date out), nonempty (Validator.n_date normalized) with
                   | None, Some nd => Some (prettyDate (clk e) nd)
                   | _, _ => p_date out
                   end in
          let n := match nonempty (e_name llm), p_name out with
                   | Some ln, None => nonempty (parseName ln)
                   | _, _ => p_name out
                   end in
          MkPrefill g t d n (p_pending_time_raw out)
      end
  end.

Definition prefillFromMessage (e : env) (text : string) (serviceKey : string) : res Prefill :=
  match prefill_local (clk e) text with
  | Throw => Throw
  | Ok out => if LLM_SLOT_PREFILL e then Ok (prefill_llm e text serviceKey out) else Ok out
  end.

(** [withTyping]: the typing bubble around slow work. *)
Definition withTyping {A} (cid : string) (work : M A) : M A :=
  emit (TypingOn cid) ;;;
  finally work (attempt (emit (TypingOff cid))).

(** Best-effort Messenger buttons; [true] if the text went out that way. *)
Definition maybeSendMessengerQR (e : env) (cid : string) (text : string)
  (quickReplies : list (string * string)) : M bool :=
  if negb (SERVICE_FLOW_USE_BUTTONS e) then ret false
  else
    match quickReplies with
    | [] => ret false
    | _ =>
        match nonempty (extractPsid e cid) with
        | None => ret false
        | Some psid =>
            emit (SavePsidMapping psid cid (if truthy (PROPERTY_ID e) then PROPERTY_ID e else "default")) ;;;
            emit (MessengerButtons psid text quickReplies) ;;;
            emit (ReplyFromBot cid text (Some true)) ;;;
            ret true
        end
    end.

(** A result whose text either went out through Messenger (and is then
    not repeated in [reply]) or is handed to the router. *)
Definition say (e : env) (cid : string) (text : string) (qrs : list (string * string))
  (key : option string) (step : string) : M ServiceResult :=
  sent <- maybeSendMessengerQR e cid text qrs ;;
  if sent : bool
  then ret (MkResult true None false None (meta_of key step true qrs))
  else ret (MkResult true (Some text) false None (meta_of key step false qrs)).

Definition normalizeYesNo (text : string) : option bool :=
  let s := toLowerCase (trim text) in
  if mem s ["yes"; "y"; "yeah"; "yep"; "sure"; "ok"; "okay"] then Some true
  else if mem s ["no"; "n"; "nope"; "nah"] then Some false
  else None.

Definition buildConfirmMessage (details : BookingDetails) : string :=
  join newline
    ["Please confirm your booking details:";
     "• Name: " ++ match nonempty (d_name details) with
                     | Some n => toTitleCase n | None => "-" end;
     "• Guests: " ++ match d_guests details with Some g => ofZ g | None => "-" end;
     "• Date: " ++ str_or (d_date details) "-";
     "• Time: " ++ match nonempty (d_time details) with
                     | Some t => formatAmPm t | None => "-" end;
     "Reply 'Yes' to send, or 'No' to edit."].

Definition tryFieldUpdate (k : clock) (text : string) (current : BookingDetails)
  : res (option BookingDetails) :=
  let g := nonzero (parseGuests text) in
  let tRaw := nonempty (parseTime text) in
  match date_of_text k text with
  | Throw => Throw
  | Ok d =>
      let n := nonempty (parseName text) in
      let updated :=
        Details (match n with Some n => Some n | None => d_name current end)
                (match g with Some g => Some g | None => d_guests current end)
                (match d with Some d => Some d | None => d_date current end)
                (match tRaw with Some t => Some (prettyTime t) | None => d_time current end) in
      let changed :=
        match g, tRaw, d, n with
        | None, None, None, None => false
        | _, _, _, _ => true
        end in
      Ok (if changed then Some updated else None)
  end.

Definition notifyStaff (cid : string) (details : BookingDetails) : M unit :=
  let lines :=
    join newline
      (somes [option_map (fun n => "Name: " ++ toTitleCase n) (nonempty (d_name details));
              option_map (fun g => "Guests: " ++ ofZ g) (nonzero (d_guests details));
              option_map (fun d => "Date: " ++ d) (nonempty (d_date details));
              option_map (fun t => "Time: " ++ formatAmPm t) (nonempty (d_time details))]) in
  emit (AddLabels cid ["booking-request"]) ;;;
  emit (PrivateMessage cid (if truthy lines then lines
                            else "Booking request received (no details parsed).")).

Definition setState (cid : string) (flow : option FlowState) : M unit :=
  exec_sql (Repo.setServiceFlow cid flow).

Definition legacy (p : BookingDetails) (st : string) : FlowState :=
  MkFlow (Some p) (Some st) None None [] None None.

(** The short confirm/edit shape: [None] when the step is neither
    "confirm" nor "ask_change" and the handler goes on. *)
Definition pending_step (e : env) (cid : string) (message : string)
  (pending : BookingDetails) (step : option string) : option (M ServiceResult) :=
  match step with
  | Some "confirm" =>
      Some
        match normalizeYesNo message with
        | Some true =>
            notifyStaff cid pending ;;;
            setState cid None ;;;
            ret (MkResult true
                   (Some "✅ Great! I’ve sent your booking request to our team. We’ll confirm availability shortly.")
                   true None (MkMeta (Some "confirmed") None false [] None))
        | Some false =>
            setState cid (Some (legacy pending "ask_change")) ;;;
            ret (MkResult true
                   (Some "No problem. What would you like to change? (name / guests / date / time)")
                   false None (MkMeta (Some "ask_change") None false [] None))
        | None =>
            ret (MkResult true (Some (buildConfirmMessage pending)) false None
                   (MkMeta (Some "confirm_repeat") None false [] None))
        end
  | Some "ask_change" =>
      Some
        (upd <- lift (tryFieldUpdate (clk e) message pending) ;;
         match upd with
         | Some updated =>
             setState cid (Some (legacy updated "confirm")) ;;;
             ret (MkResult true (Some (buildConfirmMessage updated)) false None
                    (MkMeta (Some "confirm_after_edit") None false [] None))
         | None =>
             ret (MkResult true
                    (Some "I didn’t catch that. You can say things like '3 guests', 'time 7:15pm', or 'name is Anna'.")
                    false None (MkMeta (Some "edit_unrecognized") None false [] None))
         end)
  | _ => None
  end.

(** [required.filter(f => !collected[f])] *)
Definition missing_of (required : list string) (collected : obj) : list string :=
  filter (fun f => negb (has collected f)) required.

(** [arr[0] || null] *)
Definition first_or_null (l : list string) : option string :=
  match l with
  | f :: _ => if truthy f then Some f else None
  | [] => None
  end.

(** [Object.entries(collected).map(([k, v]) => `${k}: ${v}`).join(', ')] *)
Definition summary_of (collected : obj) : string :=
  join ", " (map (fun kv => fst kv ++ ": " ++ val_str (snd kv)) collected).

(** [/^y(es)?$/i] and [/^n(o)?$/i] *)
Definition rx_yes : re := seqs [Bol; ch "y"; opt (Grp 1 (lit "es")); Eol].
Definition rx_no : re := seqs [Bol; ch "n"; opt (Grp 1 (ch "o")); Eol].

(** The flow is at the confirmation stage ([next === 'confirm']). *)
Definition confirm_step (e : env) (cid : string) (message : string)
  (key : string) (flow : FlowState) (required : list string) (collected : obj)
  : M ServiceResult :=
  let lang := DEFAULT_LANG e in
  let lower := toLowerCase message in
  if test true rx_yes lower then
    attempt
      (emit (AddLabels cid ["service_request"; "svc_" ++ toLowerCase key; "needs_staff"]) ;;;
       emit (UpdatePriority cid "high") ;;;
       emit (PrivateMessage cid ("👀 Completed " ++ key ++ " — " ++ summary_of collected))) ;;;
    setState cid None ;;;
    let detailsLines := buildDetailsSummary collected in
    let confirmation :=
      "Got it 👍 I’ve sent this to the team to confirm availability. You’ll get a message shortly."
      ++ (if truthy detailsLines
          then newline ++ newline ++ "Details:" ++ newline ++ detailsLines else "") in
    sent <- maybeSendMessengerQR e cid confirmation [] ;;
    if sent : bool
    then ret (MkResult true None false None (meta_of (Some key) "confirmed_final" true []))
    else ret (MkResult true (Some confirmation) false None
                (meta_of (Some key) "confirmed_final" false []))
  else if test true rx_no lower then
    let first := hd_error required in
    setState cid (Some (MkFlow (pending flow) (step flow) (service_key flow) (Some required)
                               [] first (pending_time_raw flow))) ;;;
    let '(ptext, qrs) := buildPrompt first lang in
    say e cid ("No problem, let’s try again." ++ newline ++ ptext) qrs (Some key) "confirm_restart"
  else
    say e cid (confirmText collected) yes_no_replies (Some key) "confirm_repeat".

(** The answer to the morning/evening question: the pending hour with
    "am" or "pm", or a time typed anew. *)
Definition combine_period (lang : UI.lang) (hasPending : string) (apOnly : string) : option string :=
  let '(am, pm) := TIME_PERIOD_SYNONYMS lang in
  if existsb (includes apOnly) am || String.eqb apOnly "am" then Some (hasPending ++ " am")
  else if existsb (includes apOnly) pm || String.eqb apOnly "pm" then Some (hasPending ++ " pm")
  else if test false AMPM apOnly then Some (hasPending ++ " " ++ apOnly)
  else if truthy (str_or (parseTime apOnly) "") then Some apOnly
  else None.

Definition morning_evening (lang : UI.lang) : list (string * string) :=
  [(UI.qr_morning (UI.UI lang), "AM"); (UI.qr_evening (UI.UI lang), "PM")].

Definition clarifyText (lang : UI.lang) (raw : string) : string :=
  formatUI (UI.clarify_time_period (UI.UI lang)) raw.

(** All fields present: the flow moves to the confirmation stage. *)
Definition ask_confirm (e : env) (cid : string) (key : string) (flow : FlowState)
  (required : list string) (collected : obj) (step : string) : M ServiceResult :=
  setState cid (Some (with_slots flow collected required (Some "confirm"))) ;;;
  say e cid (confirmText collected) yes_no_replies (Some key) step.

(** The clarifier: [None] when the message does not settle the pending
    hour and the handler goes on with the current field. *)
Definition clarify_step (e : env) (cid : string) (message : string) (key : string)
  (flow : FlowState) (required : list string) (collected : obj) (hasPending : string)
  : option (M ServiceResult) :=
  let lang := DEFAULT_LANG e in
  let apOnly := toLowerCase (trim message) in
  match nonempty (combine_period lang hasPending apOnly) with
  | None => None
  | Some combined =>
      Some
        (let collected := set "time" (VStr (prettyTime combined)) collected in
         let next := first_or_null (missing_of required collected) in
         setState cid (Some (without_raw (with_slots flow collected required next))) ;;;
         match next with
         | Some _ =>
             let '(ptext, qrs) := buildPrompt next lang in
             say e cid ("Got it 👍 " ++ formatAmPm (prettyTime combined) ++ newline ++ ptext)
                 qrs (Some key) "time_clarified_next"
         | None => ask_confirm e cid key flow required collected "time_clarified_confirm"
         end)
  end.

(** Parsing the message for the field being asked: a reply at once (left),
    or the collected slots to go on with (right). *)
Definition fill_field (e : env) (cid : string) (message : string) (key : string)
  (flow : FlowState) (required : list string) (collected : obj) (currentField : string)
  : M (ServiceResult + obj) :=
  let lang := DEFAULT_LANG e in
  let val := match parseForField (clk e) currentField message with
             | Some v => if val_truthy v then Some v else None
             | None => None
             end in
  match String.eqb currentField "time", val with
  | true, Some v =>
      let raw := val_str v in
      if negb (truthy (str_or (normalizeTime raw) "")) && timeNeedsAmPm message raw then
        setState cid (Some (MkFlow (pending flow) (step flow) (service_key flow)
                                   (Some required) collected (next flow) (Some raw))) ;;;
        r <- say e cid (clarifyText lang raw) (morning_evening lang) (Some key) "time_clarify" ;;
        ret (inl r)
      else ret (inr (set "time" (VStr (prettyTime raw)) collected))
  | _, _ =>
      if String.eqb currentField "date" then
        iso <- lift (normalizeDateToISO (clk e) message) ;;
        match nonempty iso, val with
        | Some i, _ => ret (inr (set "date" (VStr (prettyDate (clk e) i)) collected))
        | None, Some v =>
            if isDateUnclear (clk e) (val_str v) then
              setState cid (Some (with_slots flow collected required (Some "date"))) ;;;
              ret (inl (MkResult true
                          (Some "Sorry, I didn’t catch the date — please reply like “1 September” or “today/tomorrow”.")
                          false None (MkMeta (Some "date_clarify") (Some key) false [] None)))
            else ret (inr (set "date" (VStr (prettyDate (clk e) (val_str v))) collected))
        | None, None =>
            setState cid (Some (with_slots flow collected required (Some "date"))) ;;;
            ret (inl (MkResult true
                        (Some "Sorry, I didn’t catch the date — please reply like “1 September” or “today/tomorrow”.")
                        false None (MkMeta (Some "date_clarify") (Some key) false [] None)))
        end
      else
        match val with
        | Some v => ret (inr (set currentField v collected))
        | None => ret (inr collected)
        end
  end.

(** After the current field: ask for the first field still missing, or
    move to the confirmation stage. *)
Definition ask_next (e : env) (cid : string) (key : string) (flow : FlowState)
  (required : list string) (collected : obj) : M ServiceResult :=
  match missing_of required collected with
  | next :: _ =>
      setState cid (Some (without_raw (with_slots flow collected required (Some next)))) ;;;
      let '(ptext, qrs) := buildPrompt (Some next) (DEFAULT_LANG e) in
      say e cid ptext qrs (Some key) "slot_filling"
  | [] => ask_confirm e cid key flow required collected "confirm"
  end.

Definition required_of (flow : FlowState) (key : string) : list string :=
  match required flow with
  | Some r => r
  | None => match assoc key REQUIRED_FIELDS with Some r => r | None => [] end
  end.

(** A message while a flow with a [service_key] is stored. *)
Definition slot_step (e : env) (cid : string) (message : string) (key : string)
  (flow : FlowState) : M ServiceResult :=
  let required := required_of flow key in
  let collected := collected flow in
  match next flow with
  | Some "confirm" => confirm_step e cid message key flow required collected
  | _ =>
      let currentField :=
        match nonempty (next flow) with
        | Some f => Some f
        | None => nonempty (hd_error (missing_of required collected))
        end in
      let go_on : M ServiceResult :=
        filled <- match currentField with
                  | Some f => fill_field e cid message key flow required collected f
                  | None => ret (inr collected)
                  end ;;
        match filled with
        | inl r => ret r
        | inr collected' => ask_next e cid key flow required collected'
        end in
      match nonempty (pending_time_raw flow) with
      | Some hasPending =>
          match clarify_step e cid message key flow required collected hasPending with
          | Some r => r
          | None => go_on
          end
      | None => go_on
      end
  end.

(** [key.replace(/_/g, ' ').toLowerCase()] *)
Definition readable (key : string) : string :=
  toLowerCase (map_str (fun a => if Ascii.eqb a "_" then " "%char else a) key).

(** Labels, priority and the staff note of a recognized request; a failure
    of the platform is logged and swallowed. *)
Definition announce (cid : string) (key : string) : M unit :=
  attempt
    (emit (AddLabels cid ["service_request"; "svc_" ++ toLowerCase key]) ;;;
     emit (UpdatePriority cid "medium") ;;;
     emit (PrivateMessage cid ("👀 Service request: " ++ readable key))).

Definition collect_prefill (pre : Prefill) : obj :=
  let c := match nonzero (p_guests pre) with Some g => set "guests" (VNum g) [] | None => [] end in
  let c := match nonempty (p_time pre) with Some t => set "time" (VStr t) c | None => c end in
  let c := match nonempty (p_date pre) with Some d => set "date" (VStr d) c | None => c end in
  match nonempty (p_name pre) with Some n => set "name" (VStr n) c | None => c end.

(** A slot-filling service was recognized in a message: prefill from the
    message, store the new flow, and clarify, ask or confirm.  [tag] is the
    step name of the lookup that found the service. *)
Definition start_flow (e : env) (cid : string) (message : string) (key : string)
  (required : list string) (tag : string) : M ServiceResult :=
  let lang := DEFAULT_LANG e in
  pre <- withTyping cid (lift (prefillFromMessage e message key)) ;;
  let collected := collect_prefill pre in
  let pending_time_raw := nonempty (p_pending_time_raw pre) in
  let missing := missing_of required collected in
  setState cid (Some (MkFlow None None (Some key) (Some required) collected
                             (first_or_null missing) pending_time_raw)) ;;;
  match pending_time_raw with
  | Some raw =>
      say e cid (clarifyText lang raw) (morning_evening lang) (Some key) (tag ++ "_time_clarify")
  | None =>
      match missing with
      | m :: _ =>
          let '(ptext, qrs) := buildPrompt (Some m) lang in
          let kickoff := "Yes, I can take your booking." ++ newline ++ ptext in
          sent <- maybeSendMessengerQR e cid ptext qrs ;;
          if sent : bool
          then ret (MkResult true None false None (meta_of (Some key) tag true qrs))
          else ret (MkResult true (Some kickoff) false None (meta_of (Some key) tag false qrs))
      | [] =>
          setState cid (Some (MkFlow None None (Some key) (Some required) collected
                                     (Some "confirm") None)) ;;;
          say e cid (confirmText collected) yes_no_replies (Some key) (tag ++ "_confirm")
      end
  end.

(** The database-backed lookup; [None] when the handler goes on to the
    pattern fallback.  Anything thrown inside is swallowed. *)
Definition db_lookup (e : env) (cid : string) (message tenant : string) : M (option ServiceResult) :=
  catch
    (key <- lift (findServiceKeyByText e message tenant) ;;
     match nonempty key with
     | None => ret None
     | Some key =>
         steps <- lift (getServiceActions e key tenant) ;;
         let first := hd_error steps in
         let kind := match first with Some f => action_type f | None => "" end in
         if String.eqb kind "ASK_DETAILS" || String.eqb kind "REPLY" then
           announce cid key ;;;
           match assoc key REQUIRED_FIELDS with
           | Some required =>
               r <- start_flow e cid message key required "start_flow_prefill" ;;
               ret (Some r)
           | None =>
               ret (Some (MkResult true
                            (match first with
                             | Some f => match nonempty (reply_template f) with
                                         | Some t => Some t
                                         | None => registry_reply key
                                         end
                             | None => None
                             end)
                            false None
                            (MkMeta (Some kind) (Some key) false []
                                    (match first with Some f => requires_fields f | None => None end))))
           end
         else if String.eqb kind "ESCALATE" then
           ret (Some (MkResult false None true (Some "db_action_escalate")
                        (MkMeta None (Some key) false [] None)))
         else
           match registry_reply key with
           | Some r => ret (Some (MkResult true (Some r) false None
                                    (MkMeta (Some "FALLBACK") (Some key) false [] None)))
           | None => ret None
           end
     end)
    (ret None).

(** The pattern fallback, and the escalation of an unknown service. *)
Definition regex_fallback (e : env) (cid : string) (message : string) : M ServiceResult :=
  match matchService message with
  | Some key =>
      announce cid key ;;;
      match assoc key REQUIRED_FIELDS with
      | Some required => start_flow e cid message key required "start_flow_regex_prefill"
      | None =>
          ret (MkResult true (registry_reply key) false None
                 (MkMeta (Some "REGEX") (Some key) false [] None))
      end
  | None =>
      attempt (emit (PrivateMessage cid
                       ("👀 Service request (unrecognized)" ++ newline ++ "Guest: "
                        ++ dquote ++ message ++ dquote))) ;;;
      ret (MkResult false None true (Some "unknown_service") no_meta)
  end.

Definition handleService (e : env) (req : ServiceRequest) : M ServiceResult :=
  let message := trim (match nonempty (norm req) with Some n => n | None => text req end) in
  let tenant := match nonempty (tenantId req) with Some t => t | None => "default" end in
  let cid := conversationId req in
  if negb (truthy message)
  then ret (MkResult false None true (Some "empty_message") no_meta)
  else
    existingFlow <- query (Repo.getServiceFlow cid) ;;
    let lookup : M ServiceResult :=
      found <- db_lookup e cid message tenant ;;
      match found with
      | Some r => ret r
      | None => regex_fallback e cid message
      end in
    let full_shape : M ServiceResult :=
      match existingFlow with
      | Some flow =>
          match nonempty (service_key flow) with
          | Some key => slot_step e cid message key flow
          | None => lookup
          end
      | None => lookup
      end in
    match existingFlow with
    | Some flow =>
        match pending flow with
        | Some p =>
            match pending_step e cid message p (step flow) with
            | Some r => r
            | None => full_shape
            end
        | None => full_shape
        end
    | None => full_shape
    end.

End Service.

(* ------------------------------------------------------------------ *)
(** ** Escalation state machine (handlers/escalation_handler.ts) *)
(* ------------------------------------------------------------------ *)

Module Escalation.
Import JS World Config.

Inductive IntentKind : Type := FAQ | SERVICE | CHITCHAT | UNKNOWN.

(** The part of an inbound event the handlers read. *)
Record Event : Type := MkEvent {
  propertyId : string;
  conversationId : string;
  text : string;
  lang : string
}.

Definition NEEDS_STAFF_LABEL : string := "needs_staff".
Definition ISSUE_LABEL : string := "issue_report".

Definition EMERGENCY_WORDS : list string :=
  ["fire"; "medical"; "ambulance"; "flood"; "theft"; "police"; "help now"].

Definition priorityFromSignal (intent : IntentKind) (negativeCount : Z)
  (text : string) (isNegative : bool) : string :=
  let t := toLowerCase text in
  if existsb (includes t) EMERGENCY_WORDS then "urgent"
  else if isNegative then "high"
  else if 2 <=? negativeCount then "high"
  else match intent with SERVICE => "medium" | _ => "low" end.

Record SoftEscalationOpts : Type := MkOpts {
  assignTo : option Z;
  notifyOnce : option bool;
  label : option string;
  intent : option IntentKind;
  negativeCount : option Z;
  o_text : option string;
  issue : option bool
}.

Definition no_opts : SoftEscalationOpts := MkOpts None None None None None None None.

Record Escalated : Type := MkEscalated { escalated : bool; mode : string }.

(** Whether the platform shows an assignee: one was there before the
    request, or the request has assigned one. *)
Definition has_assignee (e : env) (cid : string) (w : world) : bool :=
  assigned_before e cid ||
  existsb (fun ef => match ef with
                     | AssignToUser c a _ => String.eqb c cid && (0 <? a)
                     | _ => false
                     end) (log w).

(** [typeof opts?.notifyOnce === 'boolean' ? !!opts?.notifyOnce : SOFTWATCH_NOTIFY_ONCE] *)
Definition shouldNotify (e : env) (opts : SoftEscalationOpts) : bool :=
  match notifyOnce opts with
  | Some b => b
  | None => SOFTWATCH_NOTIFY_ONCE e
  end.

Definition ESCALATED_NOTE : string := "👀 Bot escalated".

(** The labels and the priority a soft escalation puts on a conversation. *)
Definition labels_of (opts : SoftEscalationOpts) : list string :=
  ([NEEDS_STAFF_LABEL]
   ++ match label opts with
      | Some l => if truthy l && negb (String.eqb l NEEDS_STAFF_LABEL) then [l] else []
      | None => []
      end
   ++ match issue opts with Some true => [ISSUE_LABEL] | _ => [] end)%list.

Definition priority_of (opts : SoftEscalationOpts) : string :=
  priorityFromSignal
    (match intent opts with Some i => i | None => UNKNOWN end)
    (match negativeCount opts with Some n => n | None => 0 end)
    (match o_text opts with Some t => t | None => "" end)
    (match issue opts with Some true => true | _ => false end).

(** The staff notifications of an escalation in a log. *)
Definition is_escalation_note (cid : string) (ef : effect) : bool :=
  match ef with
  | PrivateMessage c content => String.eqb c cid && String.eqb content ESCALATED_NOTE
  | _ => false
  end.

Definition escalation_notes (cid : string) (l : list effect) : nat :=
  List.length (filter (is_escalation_note cid) l).

(** The auto-assignment a soft escalation makes in a world, if any. *)
Definition assignment (e : env) (cid : string) (opts : SoftEscalationOpts) (w : world)
  : list effect :=
  match (match assignTo opts with Some a => Some a | None => DEFAULT_ASSIGN e end) with
  | Some assignee =>
      if assignee =? 0 then []
      else if has_assignee e cid w then []
      else [AssignToUser cid assignee (DEFAULT_TEAM e)]
  | None => []
  end.

Definition handleSoftEscalation (e : env) (event : Event) (opts : SoftEscalationOpts)
  : M Escalated :=
  let cid := conversationId event in
  let pid := propertyId event in
  attempt (emit (AddLabels cid (labels_of opts))) ;;;
  attempt
    (emit (UpdatePriority cid (priority_of opts)) ;;;
     emit (UpdateStatus cid "open")) ;;;
  alreadyEsc <- (fun w =>
                   let '(t, b) := Repo.markEscalatedOnce pid cid (table w) in
                   (Ret b, MkWorld t (log w))) ;;
  (if negb alreadyEsc then
     if shouldNotify e opts then attempt (emit (PrivateMessage cid ESCALATED_NOTE)) else ret tt
   else ret tt) ;;;
  exec_sql (Repo.enterSoftWatch pid cid) ;;;
  (match (match assignTo opts with Some a => Some a | None => DEFAULT_ASSIGN e end) with
   | Some assignee =>
       if assignee =? 0 then ret tt
       else
         attempt
           (fun w =>
              if has_assignee e cid w then (Ret tt, w)
              else emit (AssignToUser cid assignee (DEFAULT_TEAM e)) w)
   | None => ret tt
   end) ;;;
  ret (MkEscalated true "soft_watch").

(** [resumeOk || untilOk || boolPaused]: [getState] does not select
    [paused_until], so [untilOk] is false. *)
Definition pause_in_force (now : Z) (s : option Repo.ConvState) : bool :=
  match s with
  | Some s =>
      match Repo.s_resume_at s with Some d => now <? d | None => false end
      || Repo.s_paused s
  | None => false
  end.

Definition handleHardPause (e : env) (event : Event) (minutes : Z) : M Escalated :=
  let cid := conversationId event in
  let pid := propertyId event in
  let now := DateJS.now (clk e) in
  attempt (emit (UpdateStatus cid "open")) ;;;
  s <- query (Repo.getState pid cid) ;;
  (if negb (pause_in_force now s)
   then attempt (emit (PrivateMessage cid "⏸️ Bot paused"))
   else ret tt) ;;;
  exec_sql (Repo.manualPauseForMinutes now pid cid minutes) ;;;
  ret (MkEscalated true "hard_pause").

Definition resumeBot (e : env) (event : Event) : M Escalated :=
  let cid := conversationId event in
  let pid := propertyId event in
  let now := DateJS.now (clk e) in
  s <- query (Repo.getState pid cid) ;;
  let wasPaused := pause_in_force now s in
  attempt (exec_sql (Repo.clearPause pid cid)) ;;;
  attempt (exec_sql (Repo.resetNegativeCount pid cid)) ;;;
  attempt (emit (UpdateStatus cid "open")) ;;;
  (if wasPaused then attempt (emit (PrivateMessage cid "▶️ Bot resumed")) else ret tt) ;;;
  ret (MkEscalated false "resume").

Definition resolveConversation (e : env) (event : Event) : M Escalated :=
  let cid := conversationId event in
  let pid := propertyId event in
  attempt (emit (UpdateStatus cid "resolved")) ;;;
  attempt (emit (PrivateMessage cid "✅ Bot resolved")) ;;;
  attempt (exec_sql (Repo.clearState pid cid)) ;;;
  ret (MkEscalated false "resolved").

(** The background tick of server.ts. *)
Definition autoResumeTick (now : Z) : M (list (string * string)) :=
  fun w =>
    let '(t, changed) := Repo.autoResumeDueConversations now (table w) in
    (Ret changed, MkWorld t (log w)).

End Escalation.

(* ------------------------------------------------------------------ *)
(** ** Intent decision engine (app/decision_engine.ts) *)
(* ------------------------------------------------------------------ *)

Module Decision.
Import JS Regex Config Escalation.

Record DecideOutput : Type := MkDecision {
  d_intent : IntentKind;
  d_confidence : Q;
  d_negative : bool
}.

Definition normalize (t : string) : string := trim (toLowerCase t).

Definition negatives : list string :=
  ["not happy"; "angry"; "bad"; "terrible"; "awful"; "leaking"; "leak"; "broken";
   "complaint"; "refund"; "charge dispute"; "dirty"; "rude"].

Definition detectNegative (t : string) : bool :=
  let s := normalize t in existsb (includes s) negatives.

Definition svc : list string :=
  ["booking"; "reservation"; "check-in"; "checkin"; "change my booking";
   "maintenance"; "repair"; "ac"; "aircon"; "key card"; "room move";
   "table"; "spa"; "massage"; "treatment"; "charge"; "refund";
   "bill"; "invoice"; "receipt"].

Definition detectService (t : string) : bool :=
  let s := normalize t in existsb (includes s) svc.

Definition isQuestion (t : string) : bool :=
  let s := normalize t in
  if negb (truthy s) then false
  else if endsWith s "?" then true
  else if existsb (fun q => startsWith s (q ++ " ")) ["what"; "when"; "where"; "how"; "who"; "which"]
  then true
  else includes s "price" || includes s "time" || includes s "open" || includes s "hours".

(** [(^|\b)] and [(\b|!|\.|,)] *)
Definition LEFT_EDGE : re := Grp 1 (Alt Bol Wb).
Definition RIGHT_EDGE (i : nat) : re := Grp i (alts [Wb; ch "!"; ch "."; ch ","]).

Definition a_grave : string := String (ascii_of_N 224) "".

(** [/(^|\b)(hi|hello|hey|xin chào|chào|good (morning|afternoon|evening))(\b|!|\.|,)/i] *)
Definition rx_greeting : re :=
  seqs [LEFT_EDGE;
        Grp 2 (alts [lit "hi"; lit "hello"; lit "hey";
                     lit ("xin ch" ++ a_grave ++ "o"); lit ("ch" ++ a_grave ++ "o");
                     Seq (lit "good ") (Grp 3 (words ["morning"; "afternoon"; "evening"]))]);
        RIGHT_EDGE 4].

(** [/(^|\b)(thanks|thank you|cảm ơn)(\b|!|\.|,)/i]; the third word is
    outside the alphabet of the model. *)
Definition rx_thanks : re :=
  seqs [LEFT_EDGE; Grp 2 (alts [lit "thanks"; lit "thank you"; never]); RIGHT_EDGE 3].

(** handlers/smalltalk_handler.ts *)
Definition isSmalltalk (text : string) : bool :=
  let t := normalize text in
  test true rx_greeting t || test true rx_thanks t.

Definition decide (e : env) (text : string) : DecideOutput :=
  let text := trim text in
  let s := normalize text in
  let chitchatEnabled := CHITCHAT_ENABLED e in
  let negative := detectNegative s in
  let service := detectService s in
  if service || negative then MkDecision SERVICE (9 # 10) negative
  else if chitchatEnabled && isSmalltalk text then MkDecision CHITCHAT (99 # 100) negative
  else if isQuestion s then MkDecision FAQ (85 # 100) negative
  else MkDecision UNKNOWN (5 # 10) negative.

End Decision.

(* ------------------------------------------------------------------ *)
(** ** Pause gate and router (middleware/pauseGate.ts, app/intent_router.ts) *)
(* ------------------------------------------------------------------ *)

Module Router.
Import JS Regex World Config Escalation Decision.

(** Blocks bot replies if the conversation is paused; uses only the
    [paused] flag of the stored state. *)
Definition pauseGate (pid cid : string) : M bool :=
  st <- query (Repo.getState pid cid) ;;
  match st with
  | None => ret false
  | Some st => if Repo.s_paused st then ret true else ret false
  end.

(** The router's options: [{ ...DEFAULTS, ...settings }]. *)
Record Options : Type := MkOptions {
  faq_conf_threshold : Q;
  max_clarify_attempts : Z;
  auto_resume_minutes : Z;
  escalate_keywords : list string;
  chitchat_enabled : bool
}.

Definition DEFAULTS : Options :=
  MkOptions (78 # 100) 2 30 ["human"; "agent"; "staff"; "manager"; "real person"] true.

Definition lang_named (l : string) : option UI.lang :=
  if String.eqb l "en" then Some UI.en
  else if String.eqb l "vi" then Some UI.vi
  else if String.eqb l "nl" then Some UI.nl
  else None.

(** [pickLang] / [resolveLang]: the language of the event when it names
    one, the default language when the event names none, else English. *)
Definition pickLang (e : env) (l : string) : UI.lang :=
  if truthy l then
    match lang_named (toLowerCase l) with Some x => x | None => UI.en end
  else DEFAULT_LANG e.

Definition lang_name (l : UI.lang) : string :=
  match l with UI.en => "en" | UI.vi => "vi" | UI.nl => "nl" end.

Definition containsEscalateKeyword (t : string) (list : list string) : bool :=
  let s := toLowerCase t in
  existsb (fun k => includes s (toLowerCase k)) list.

Inductive Command : Type := resume | pause | resolve | status.

Definition parseCommand (t : string) : option Command :=
  let s := toLowerCase (trim t) in
  if startsWith s "@boton" then Some resume
  else if startsWith s "@botoff" then Some pause
  else if startsWith s "@resolve" then Some resolve
  else if startsWith s "@botstatus" then Some status
  else None.

(** What the router returns. *)
Inductive Routed : Type :=
| Escalation (escalated : bool) (mode : string) (reason : string)
| Skipped (reason : string)
| Served (intent : IntentKind) (mode : string)
| Answered (intent : IntentKind)
| Passed (intent : IntentKind) (confidence : option Q).

Definition replyFromBot (cid : string) (content : string) : M unit :=
  emit (ReplyFromBot cid content None).

(** handlers/smalltalk_handler.ts *)
Definition handleSmalltalk (e : env) (cid : string) (text : string) (l : string) : M HandlerResult :=
  let t := normalize text in
  let lang := pickLang e l in
  let prompt := UI.chitchat_prompt (UI.UI lang) in
  if test true rx_greeting t then
    match Service.nonempty (extractPsid e cid) with
    | Some psid =>
        attempt (emit (SavePsidMapping psid cid
                         (if truthy (PROPERTY_ID e) then PROPERTY_ID e else "default"))) ;;;
        emit (MessengerButtons psid prompt UI.getWelcomeQuickReplies) ;;;
        emit (ReplyFromBot cid prompt (Some true)) ;;;
        ret (MkHandled true None)
    | None => ret (MkHandled true (Some prompt))
    end
  else if test true rx_thanks t then ret (MkHandled true (Some (UI.thanks_reply (UI.UI lang))))
  else ret (MkHandled true (Some prompt)).

Definition service_request (event : Event) : Service.ServiceRequest :=
  Service.MkRequest (text event) None (Some (propertyId event)) (conversationId event).

(** [svc?.handled && svc.reply] *)
Definition has_reply (r : Service.ServiceResult) : option string :=
  if Service.handled r then Service.nonempty (Service.reply r) else None.

Definition soft (intent : IntentKind) (count : Z) (event : Event) (issue : option bool)
  : SoftEscalationOpts :=
  MkOpts None None None (Some intent) (Some count) (Some (text event)) issue.

(** Steps 3 to 8 of the router: human request, SERVICE, negative
    sentiment, confident FAQ, clarification, chit-chat. *)
Definition dispatch (e : env) (opts : Options) (event : Event)
  (state : option Repo.ConvState) (result : DecideOutput) : M Routed :=
  let pid := propertyId event in
  let cid := conversationId event in
  let lang := pickLang e (lang event) in
  let intent := d_intent result in
  let confidence := d_confidence result in
  let negative := d_negative result in
  let inWatch := match state with Some s => Repo.s_watch_mode s | None => false end in
  let prevClarify := match state with Some s => Repo.s_clarify_attempts s | None => 0 end in
  let stored_negative := match state with Some s => Repo.s_negative_count s | None => 0 end in
  let wantsHuman := containsEscalateKeyword (text event) (escalate_keywords opts) in
  let negativeCountNow := stored_negative + (if negative then 1 else 0) in
  let isConfidentFAQ :=
    match intent with FAQ => Qle_bool (faq_conf_threshold opts) confidence | _ => false end in
  let clarify : M Routed :=
    handleSoftEscalation e event (soft intent stored_negative event None) ;;;
    if max_clarify_attempts opts <=? prevClarify
    then ret (Escalation true "soft_watch" "clarify_exhausted_soft")
    else
      exec_sql (Repo.incrementClarify pid cid) ;;;
      replyFromBot cid (if prevClarify + 1 =? 1
                        then UI.clarify_generic_1 (UI.UI lang)
                        else UI.clarify_generic_2 (UI.UI lang)) ;;;
      ret (Escalation true "soft_watch" "clarify") in
  let chitchat : M Routed :=
    match intent with
    | CHITCHAT =>
        if negb (chitchat_enabled opts) then ret (Skipped "chitchat_disabled")
        else
          r <- handleSmalltalk e cid (text event) (lang_name lang) ;;
          (match (if h_handled r then Service.nonempty (h_reply r) else None) with
           | Some reply => replyFromBot cid reply
           | None => ret tt
           end) ;;;
          ret (Passed intent None)
    | _ => ret (Passed intent (Some confidence))
    end in
  let unclear : M Routed :=
    match intent with
    | UNKNOWN => clarify
    | FAQ => if negb isConfidentFAQ then clarify else if inWatch then clarify else chitchat
    | _ => if inWatch then clarify else chitchat
    end in
  if wantsHuman then
    handleSoftEscalation e event (soft intent stored_negative event (Some false)) ;;;
    replyFromBot cid (UI.human_escalation (UI.UI lang)) ;;;
    ret (Escalation true "soft_watch" "keyword_request_human")
  else
    match intent with
    | SERVICE =>
        if negative then
          handleSoftEscalation e event (soft intent negativeCountNow event (Some true)) ;;;
          exec_sql (Repo.incrementNegative pid cid) ;;;
          replyFromBot cid (UI.empathy_reply (UI.UI lang)) ;;;
          ret (Escalation true "soft_watch" "negative_in_service")
        else
          svc <- Service.handleService e (service_request event) ;;
          match has_reply svc with
          | Some reply =>
              replyFromBot cid reply ;;;
              ret (Served intent "service_handled")
          | None =>
              handleSoftEscalation e event (soft intent stored_negative event (Some false)) ;;;
              ret (Escalation true "soft_watch"
                     (match Service.nonempty (Service.reason svc) with
                      | Some r => r
                      | None => "service_unknown"
                      end))
          end
    | _ =>
        if negative then
          handleSoftEscalation e event (soft intent negativeCountNow event (Some true)) ;;;
          exec_sql (Repo.incrementNegative pid cid) ;;;
          replyFromBot cid (UI.empathy_reply (UI.UI lang)) ;;;
          ret (Escalation true "soft_watch" "negative")
        else if isConfidentFAQ then
          let r := handleFaq e pid (text event) in
          match (if h_handled r then Service.nonempty (h_reply r) else None) with
          | Some reply =>
              replyFromBot cid reply ;;;
              ret (Answered intent)
          | None => unclear
          end
        else unclear
    end.

(** Step 2a: a welcome-menu payload that maps to a service starts the
    service flow at once; whatever is thrown is swallowed. *)
Definition welcome_shortcut (e : env) (event : Event) : M (option Routed) :=
  let isWelcomeService :=
    existsb (fun i => String.eqb (toLowerCase (snd i)) (toLowerCase (text event))
                      && negb (startsWith (snd i) "WELCOME_"))
            UI.getWelcomeQuickReplies in
  if isWelcomeService then
    catch
      (svc <- Service.handleService e (service_request event) ;;
       match has_reply svc with
       | Some reply =>
           replyFromBot (conversationId event) reply ;;;
           ret (Some (Served SERVICE "service_from_welcome"))
       | None => ret None
       end)
      (ret None)
  else ret None.

(** Step 2b: a stored flow with a [service_key] takes the message. *)
Definition active_flow (e : env) (event : Event) : M (option Routed) :=
  activeFlow <- query (Repo.getServiceFlow (conversationId event)) ;;
  match activeFlow with
  | Some f =>
      match Service.nonempty (Flow.service_key f) with
      | Some _ =>
          svc <- Service.handleService e (service_request event) ;;
          match has_reply svc with
          | Some reply =>
              replyFromBot (conversationId event) reply ;;;
              ret (Some (Served SERVICE "service_flow_active"))
          | None => ret None
          end
      | None => ret None
      end
  | None => ret None
  end.

(** The router behind the pause gate. *)
Definition route (e : env) (opts : Options) (event : Event) : M Routed :=
  welcome <- welcome_shortcut e event ;;
  match welcome with
  | Some r => ret r
  | None =>
      state <- query (Repo.getState (propertyId event) (conversationId event)) ;;
      let result := decide e (text event) in
      active <- active_flow e event ;;
      match active with
      | Some r => ret r
      | None => dispatch e opts event state result
      end
  end.

Definition intentRouter (e : env) (opts : Options) (event : Event) : M Routed :=
  match parseCommand (text event) with
  | Some resume =>
      resumeBot e event ;;;
      ret (Escalation false "resume" "command_resume")
  | Some pause =>
      handleHardPause e event (auto_resume_minutes opts) ;;;
      ret (Escalation true "hard_pause" "command_pause")
  | Some resolve =>
      resolveConversation e event ;;;
      ret (Escalation false "resolved" "command_resolve")
  | Some status => ret (Skipped "command_status_noop")
  | None =>
      blocked <- pauseGate (propertyId event) (conversationId event) ;;
      if blocked : bool then ret (Skipped "paused") else route e opts event
  end.

End Router.

(* ------------------------------------------------------------------ *)
(** ** Chatwoot webhook (webhooks/chatwoot_webhook.ts) *)
(* ------------------------------------------------------------------ *)

Module Webhook.
Import JS Regex World Config Escalation Decision Router.

(** What [parseMessage] reads from the body of a request, and whether the
    body carries a message and the bot's own mark. *)
Record Parsed : Type := MkParsed {
  eventType : string;
  conversationId : string;
  senderType : string;
  messageType : string;
  isPrivate : bool;
  content : string;
  loopdup_bot : bool;
  has_message : bool
}.

Inductive Response : Type :=
| Ignored (why : string)
| HardPaused
| Resumed
| StatusSent
| SkippedPaused
| RoutedChitchat
| RoutedBy (routed : Routed)
| ServerError.

Definition property (e : env) : string :=
  if truthy (PROPERTY_ID e) then PROPERTY_ID e else "hotel_demo_1".

Definition NOTE_PAUSED : string := "⏸️ Bot paused.".
Definition OLD_AUTO_PAUSE_PREFIX : string :=
  "⏸️ Auto-pause: human/page reply detected. Bot paused for ".

(** [t.toUpperCase()], as far as [indexOf('BOT:')] can tell. *)
Fixpoint toUpperCase (s : string) : string :=
  match s with
  | EmptyString => EmptyString
  | String a r => Service.upper_first a ++ toUpperCase r
  end.

(** [s.indexOf(t)], [None] for -1 *)
Fixpoint indexOf (s t : string) (i : nat) : option nat :=
  if startsWith s t then Some i
  else match s with
       | String _ r => indexOf r t (S i)
       | EmptyString => None
       end.

(** [text.startsWith(BOT_PREFIX)] *)
Definition starts_with_prefix (e : env) (text : string) : bool :=
  match Service.nonempty (CW_PREFIX_BOT e) with
  | Some prefix => startsWith text prefix
  | None => false
  end.

Definition looksLikeBotOutgoingText (e : env) (text : string) : bool :=
  if negb (truthy text) then false
  else
    let t := trim text in
    if starts_with_prefix e t then true
    else match indexOf (toUpperCase t) "BOT:" 0 with
         | Some idx => Nat.leb idx 10
         | None => false
         end.

Definition looksLikeOurAutoPauseNote (text : string) : bool :=
  truthy text && (String.eqb text NOTE_PAUSED || startsWith text OLD_AUTO_PAUSE_PREFIX).

Definition safetyAssign (e : env) (cid : string) : M unit :=
  match DEFAULT_ASSIGN e with
  | None => ret tt
  | Some defaultAssignee =>
      if defaultAssignee =? 0 then ret tt
      else
        attempt (fun w =>
                   if has_assignee e cid w then (Ret tt, w)
                   else emit (AssignToUser cid defaultAssignee (DEFAULT_TEAM e)) w)
  end.

Definition status_text (st : option Repo.ConvState) : string :=
  let flag (b : bool) : string := if b then "true" else "false" in
  join Service.newline
    ["📊 Bot status";
     "- paused: " ++ flag (match st with Some s => Repo.s_paused s | None => false end);
     "- watch_mode: " ++ flag (match st with Some s => Repo.s_watch_mode s | None => false end);
     "- clarify_attempts: " ++ ofZ (match st with Some s => Repo.s_clarify_attempts s | None => 0 end);
     "- negative_count: " ++ ofZ (match st with Some s => Repo.s_negative_count s | None => 0 end)].

(** Staff private commands: [/@botoff/i], [/@boton/i], [/@botstatus/i]. *)
Definition staff_command (e : env) (cid : string) (text : string) : M Response :=
  let event := MkEvent (property e) cid "" "" in
  if test true (lit "@botoff") text then
    handleHardPause e event (AUTO_RESUME_MINUTES e) ;;;
    ret HardPaused
  else if test true (lit "@boton") text then
    resumeBot e event ;;;
    ret Resumed
  else if test true (lit "@botstatus") text then
    st <- query (Repo.getState (property e) cid) ;;
    replyFromBot cid (status_text st) ;;;
    ret StatusSent
  else ret (Ignored "agent_private_note").

Definition settings (e : env) : Options :=
  MkOptions (78 # 100) (MAX_CLARIFY_ATTEMPTS e) (AUTO_RESUME_MINUTES e)
            (ESCALATE_KEYWORDS e) true.

(** The handler of [POST /webhooks/chatwoot], from the parsed message on. *)
Definition chatwoot (e : env) (m : Parsed) : M Response :=
  let cid := conversationId m in
  let pid := property e in
  if negb (truthy cid) then ret (Ignored "no_conversation_id")
  else if truthy (eventType m) && negb (String.eqb (eventType m) "message_created")
          && negb (has_message m)
  then ret (Ignored ("event:" ++ eventType m))
  else
    catch
      (let isStaff := String.eqb (senderType m) "agent" || String.eqb (senderType m) "user" in
       (if String.eqb (messageType m) "outgoing" && negb (isPrivate m)
           && isStaff && truthy (trim (content m))
           && negb (loopdup_bot m || looksLikeBotOutgoingText e (content m))
        then
          stBefore <- query (Repo.getState pid cid) ;;
          exec_sql (Repo.manualPauseForMinutes (DateJS.now (clk e)) pid cid
                      (MANUAL_REPLY_PAUSE_MINUTES e)) ;;;
          if match stBefore with Some s => Repo.s_paused s | None => false end
          then ret tt
          else emit (PrivateMessage cid NOTE_PAUSED)
        else ret tt) ;;;
       if isStaff && (String.eqb (messageType m) "note" || isPrivate m) then
         if loopdup_bot m || looksLikeOurAutoPauseNote (content m)
         then ret (Ignored "bot_private_note")
         else staff_command e cid (content m)
       else
         let inboundLike :=
           String.eqb (messageType m) "incoming"
           || (String.eqb (messageType m) "" && negb isStaff && negb (isPrivate m)) in
         let isGuestInbound :=
           inboundLike && truthy (trim (content m))
           && negb (starts_with_prefix e (content m)) in
         if negb isGuestInbound then ret (Ignored "not_guest_inbound")
         else
           stNow <- query (Repo.getState pid cid) ;;
           if match stNow with Some s => Repo.s_paused s | None => false end
           then ret SkippedPaused
           else
             let event := MkEvent pid cid (content m) "en" in
             let pre := decide e (content m) in
             match d_intent pre with
             | CHITCHAT =>
                 handleSmalltalk e cid (content m) "en" ;;;
                 safetyAssign e cid ;;;
                 ret RoutedChitchat
             | _ =>
                 routed <- intentRouter e (settings e) event ;;
                 stAfter <- query (Repo.getState pid cid) ;;
                 (if match stAfter with
                     | Some s => Repo.s_watch_mode s || Repo.s_paused s
                     | None => false
                     end
                  then safetyAssign e cid else ret tt) ;;;
                 ret (RoutedBy routed)
             end)
      (ret ServerError).

End Webhook.

(* ------------------------------------------------------------------ *)
(** ** Concrete deployments and conversations used as test inputs *)
(* ------------------------------------------------------------------ *)

Module Scenario.
Import Parser DateJS Config World Escalation.

(** Monday 2 November 2026, 10:00 UTC, local time = UTC. *)
Definition monday_morning : clock := Clock (20759 * msPerDay + 36000000) 0.

(** A deployment with the defaults of the sources: English, no language
    model, no Messenger buttons, an empty service table, no default
    assignee, AUTO_RESUME_MINUTES unset (30). *)
Definition deployment : env :=
  MkEnv monday_morning UI.en ""
        false (fun _ => Ok (MkEntities None None None None)) (Some (7 # 10))
        false (fun _ => None)
        (fun _ _ => Ok None) (fun _ _ => Ok [])
        None None (fun _ => false)
        true 30 true
        (fun _ _ => MkHandled false None)
        None 30 2 ["human"; "agent"; "staff"; "manager"; "real person"]
        (fun _ => true).

Definition hotel : string := "hotel_demo_1".
Definition conv : string := "42".

(** The conversation has a state row and nothing else. *)
Definition fresh_world : world := MkWorld [Repo.fresh hotel conv] [].

Definition guest_says (t : string) : Event := MkEvent hotel conv t "en".

(** The world after the router has handled one more guest message. *)
Definition after (t : string) (w : world) : world :=
  snd (Router.intentRouter deployment Router.DEFAULTS (guest_says t) w).

Definition stored_flow (w : world) : option Flow.FlowState :=
  Repo.getServiceFlow conv (table w).

Definition stored_state (w : world) : option Repo.ConvState :=
  Repo.getState hotel conv (table w).

(** The last text the bot sent to the guest. *)
Definition last_reply (w : world) : option string :=
  match last (log w) (TypingOn "") with
  | ReplyFromBot _ content _ => Some content
  | _ => None
  end.

(** The one-sentence booking of the specification's scenario. *)
Definition booking_sentence : string :=
  "book a table for friday 8pm for 2 people under koen".

(** A booking that lacks the time, then a bare hour, then another one. *)
Definition asked_for_time : world :=
  after "book a table tomorrow for 2 people under koen" fresh_world.
Definition asked_morning_or_evening : world := after "7" asked_for_time.
Definition answered_with_bare_hour : world := after "8" asked_morning_or_evening.

(** A booking that lacks the time, answered in the 24-hour way. *)
Definition answered_with_oclock : world := after "13 o'clock" asked_for_time.

(** A late checkout that mentions a party size. *)
Definition late_checkout_for_two : world :=
  after "late checkout booking for 2 people" fresh_world.

(** A row in the middle of a booking, paused, with both counters raised. *)
Definition busy_row : Repo.Row :=
  Repo.MkRow hotel conv true (Some (now monday_morning + 600000)) None true true 2 3
    (Some (Flow.MkFlow None None (Some "BOOK_TABLE")
             (Some ["guests"; "time"; "date"; "name"])
             [("guests", Flow.VNum 2)] (Some "time") None)).
Definition busy_world : world := MkWorld [busy_row] [].

Definition staff_event : Event := MkEvent hotel conv "" "".

(** Staff type [@botoff 15] as a private note, or it is routed as a text. *)
Definition botoff_15 : string := "@botoff 15".
Definition after_botoff_note : world :=
  snd (Webhook.staff_command deployment conv botoff_15 fresh_world).
Definition after_botoff_routed : world := after botoff_15 fresh_world.

(** Staff resume and resolve the busy conversation; the sweep runs when
    its deadline has passed. *)
Definition after_boton : world := snd (resumeBot deployment staff_event busy_world).
Definition after_resolve : world := snd (resolveConversation deployment staff_event busy_world).
Definition sweep_time : Z := now monday_morning + 600000.
Definition after_sweep : world := snd (autoResumeTick sweep_time busy_world).

End Scenario.

(* ------------------------------------------------------------------ *)
(** ** The specification's words, for comparison with the code *)
(* ------------------------------------------------------------------ *)

Module Spec.
Import Escalation.

(** A keyword occurs somewhere in a text. *)
Definition occurs_in (k s : string) : Prop := exists pre post, s = pre ++ k ++ post.

Definition keyword_match (ks : list string) (s : string) : Prop :=
  exists k, In k ks /\ occurs_in k s.

(** "negative-keyword match OR service-keyword match" *)
Definition strong_signal (s : string) : Prop :=
  keyword_match Decision.negatives s \/ keyword_match Decision.svc s.

(** "text matches greeting/thanks patterns" *)
Definition greeting_or_thanks (s : string) : Prop :=
  Regex.test true Decision.rx_greeting s = true \/ Regex.test true Decision.rx_thanks s = true.

(** "question-shaped text (trailing "?", interrogative leading word, or
    presence of price/time/open/hours)" *)
Definition interrogatives : list string := ["what"; "when"; "where"; "how"; "who"; "which"].

Definition question_shaped (s : string) : Prop :=
  (exists pre, s = pre ++ "?")
  \/ (exists q rest, In q interrogatives /\ s = q ++ " " ++ rest)
  \/ keyword_match ["price"; "time"; "open"; "hours"] s.

(** The algorithm of section 4.1, in priority order, for a lower-cased
    and trimmed text [s] and the property's chit-chat setting. *)
Inductive classifies (chitchat_enabled : bool) (s : string) : IntentKind -> Q -> Prop :=
| service_first :
    strong_signal s ->
    classifies chitchat_enabled s SERVICE (9 # 10)
| then_chitchat :
    ~ strong_signal s ->
    chitchat_enabled = true -> greeting_or_thanks s ->
    classifies chitchat_enabled s CHITCHAT (99 # 100)
| then_faq :
    ~ strong_signal s ->
    ~ (chitchat_enabled = true /\ greeting_or_thanks s) ->
    question_shaped s ->
    classifies chitchat_enabled s FAQ (85 # 100)
| else_unknown :
    ~ strong_signal s ->
    ~ (chitchat_enabled = true /\ greeting_or_thanks s) ->
    ~ question_shaped s ->
    classifies chitchat_enabled s UNKNOWN (5 # 10).

(** "resume deadline ≈ now+15m": paused, with a deadline within [slack]
    milliseconds of [minutes] after [now]. *)
Definition paused_for_about (minutes slack now : Z) (st : option Repo.ConvState) : Prop :=
  exists s d, st = Some s /\ Repo.s_paused s = true /\ Repo.s_resume_at s = Some d
              /\ Z.abs (d - (now + minutes * 60000)) <= slack.

(** "two soft-escalation calls for the same (property, conversation) key
    produce exactly one staff notification": the log [after] the two calls
    holds one escalation note more than the log [before] them. *)
Definition notified_once (cid : string) (before after : list World.effect) : Prop :=
  escalation_notes cid after = S (escalation_notes cid before).

(** "Priority is derived from signal strength: emergency-keyword match →
    urgent; explicit negative signal or ≥2 accumulated negatives → high;
    SERVICE intent → medium; else low", for a lower-cased text. *)
Inductive soft_priority (s : string) (negative : bool) (negatives : Z) (intent : IntentKind)
  : string -> Prop :=
| emergency_urgent :
    keyword_match EMERGENCY_WORDS s ->
    soft_priority s negative negatives intent "urgent"
| negative_high :
    ~ keyword_match EMERGENCY_WORDS s ->
    negative = true \/ 2 <= negatives ->
    soft_priority s negative negatives intent "high"
| service_medium :
    ~ keyword_match EMERGENCY_WORDS s ->
    negative = false -> negatives < 2 ->
    intent = SERVICE ->
    soft_priority s negative negatives intent "medium"
| else_low :
    ~ keyword_match EMERGENCY_WORDS s ->
    negative = false -> negatives < 2 ->
    intent <> SERVICE ->
    soft_priority s negative negatives intent "low".

(** "monotonic counters, reset on resume/resolve": both counters read 0. *)
Definition counters_reset (st : option Repo.ConvState) : Prop :=
  forall s, st = Some s -> Repo.s_clarify_attempts s = 0 /\ Repo.s_negative_count s = 0.

(** "collected never contains a key not in required" *)
Definition collected_within_required (f : Flow.FlowState) : Prop :=
  forall k, In k (Flow.keys (Flow.collected f)) ->
            In k (match Flow.required f with Some r => r | None => [] end).

(** The four slots of the dialog engine. *)
Definition slot_names : list string := ["guests"; "time"; "date"; "name"].

Definition collected_within_slots (f : Flow.FlowState) : Prop :=
  forall k, In k (Flow.keys (Flow.collected f)) -> In k slot_names.

End Spec.

(* ------------------------------------------------------------------ *)
(** ** Reachable worlds and what a handler keeps *)
(* ------------------------------------------------------------------ *)

Module Reach.
Import World.

(** The slots gathered so far are among the four slots of the engine. *)
Definition within_slots (c : Flow.obj) : Prop :=
  forall k, In k (Flow.keys c) -> In k Spec.slot_names.

(** Every stored flow of the table gathers only those. *)
Definition flows_within_slots (t : Repo.Table) : Prop :=
  forall r f, In r t -> Repo.service_flow r = Some f -> within_slots (Flow.collected f).

(** Every flow stored in [t'] is stored in [t]. *)
Definition same_flows (t t' : Repo.Table) : Prop :=
  forall r f, In r t' -> Repo.service_flow r = Some f ->
              exists r0, In r0 t /\ Repo.service_flow r0 = Some f.

(** A handler keeps the invariant of the table, whether it returns or
    throws, and what it returns satisfies [Q]. *)
Definition keeps {A} (m : M A) (Q : A -> Prop) : Prop :=
  forall w, flows_within_slots (table w) ->
            flows_within_slots (table (snd (m w)))
            /\ (forall a, fst (m w) = Ret a -> Q a).

Abbreviation safe m := (keeps m (fun _ => True)).

(** What filling a field hands on: a reply, or slots among the four. *)
Definition goes_on (r : Service.ServiceResult + Flow.obj) : Prop :=
  match r with inl _ => True | inr c => within_slots c end.

(** The worlds the system can be in: a table in which no flow is stored
    yet, followed by any number of routed messages, webhook calls and
    auto-resume ticks, under any configuration. *)
Inductive reachable : world -> Prop :=
| reach_start (w : world) :
    (forall r, In r (table w) -> Repo.service_flow r = None) -> reachable w
| reach_routed (e : Config.env) (opts : Router.Options) (event : Escalation.Event) (w : world) :
    reachable w -> reachable (snd (Router.intentRouter e opts event w))
| reach_webhook (e : Config.env) (m : Webhook.Parsed) (w : world) :
    reachable w -> reachable (snd (Webhook.chatwoot e m w))
| reach_tick (now : Z) (w : world) :
    reachable w -> reachable (snd (Escalation.autoResumeTick now w)).

End Reach.

(* ------------------------------------------------------------------ *)
(** ** Planning on a decision (app/events_service.ts) *)
(* ------------------------------------------------------------------ *)

Module Events.
Import Escalation Decision.

(** [DEFAULTS.faq_conf_threshold] *)
Definition faq_conf_threshold : Q := 78 # 100.

Definition is_intent (a b : IntentKind) : bool :=
  match a, b with
  | FAQ, FAQ | SERVICE, SERVICE | CHITCHAT, CHITCHAT | UNKNOWN, UNKNOWN => true
  | _, _ => false
  end.

(** [d.intent === "FAQ" && (d.confidence ?? 0) < DEFAULTS.faq_conf_threshold] *)
Definition isLowConfidenceFAQ (d : DecideOutput) : bool :=
  is_intent (d_intent d) FAQ && negb (Qle_bool faq_conf_threshold (d_confidence d)).

Inductive PlannedAction : Type :=
| ESCALATE (intent : IntentKind)
| REPLY (intent : IntentKind).

Definition planAction (decision : DecideOutput) : PlannedAction :=
  let shouldEscalate :=
    is_intent (d_intent decision) SERVICE
    || is_intent (d_intent decision) UNKNOWN
    || d_negative decision
    || isLowConfidenceFAQ decision in
  if shouldEscalate then ESCALATE (d_intent decision) else REPLY (d_intent decision).

End Events.

(* ------------------------------------------------------------------ *)
(** ** Messenger ids of conversations (repos/psid_map_repo.ts) *)
(* ------------------------------------------------------------------ *)

Module PsidMap.
Import JS.

(** A row of [messenger_psid_map]; [psid] is the primary key. *)
Record Row : Type := MkRow {
  psid : string;
  conversation_id : string;
  property_id : option string
}.

Definition Table : Type := list Row.

(** [INSERT ... ON CONFLICT (psid) DO UPDATE SET conversation_id =
     EXCLUDED.conversation_id, property_id = EXCLUDED.property_id] *)
Fixpoint upsert (r : Row) (t : Table) : Table :=
  match t with
  | [] => [r]
  | x :: t' => if String.eqb (psid x) (psid r) then r :: t' else x :: upsert r t'
  end.

(** [propertyId || null] *)
Definition or_null (o : option string) : option string :=
  match o with
  | Some s => if truthy s then Some s else None
  | None => None
  end.

Definition savePsidMapping (p conversationId : string) (propertyId : option string)
  (t : Table) : Table :=
  if negb (truthy p) then t
  else upsert (MkRow p conversationId (or_null propertyId)) t.

(** [SELECT conversation_id ... WHERE psid=$1 LIMIT 1] *)
Definition getConversationIdByPsid (p : string) (t : Table) : option string :=
  if negb (truthy p) then None
  else option_map conversation_id (find (fun x => String.eqb (psid x) p) t).

End PsidMap.

(* ------------------------------------------------------------------ *)
(** ** Labels of a conversation (adapters/chatwoot_adapter.ts) *)
(* ------------------------------------------------------------------ *)

Module Adapter.
Import JS.

(** [Array.from(new Set(l))]: the first occurrence of each label, in order. *)
Fixpoint distinct (seen : list string) (l : list string) : list string :=
  match l with
  | [] => []
  | x :: l' => if mem x seen then distinct seen l' else x :: distinct (x :: seen) l'
  end.

(** [merged] of [addLabels]: [Array.from(new Set([...current, ...labels]))] *)
Definition merged (current labels : list string) : list string :=
  distinct [] (current ++ labels).

End Adapter.

(* ------------------------------------------------------------------ *)
(** ** What a handler may call and touch *)
(* ------------------------------------------------------------------ *)

Module Conduct.
Import World Config.

(** [ChatwootStatus] and [ChatwootPriority] of the adapter. *)
Definition statuses : list string := ["open"; "resolved"].
Definition priorities : list string := ["low"; "medium"; "high"; "urgent"].

(** A call for the staff of conversation [cid]: labels, priority, status,
    a private note, an assignment. *)
Definition staff_side (cid : string) (ef : effect) : Prop :=
  match ef with
  | AddLabels c _ => c = cid
  | UpdatePriority c p => c = cid /\ In p priorities
  | UpdateStatus c s => c = cid /\ In s statuses
  | PrivateMessage c _ => c = cid
  | AssignToUser c _ _ => c = cid
  | _ => False
  end.

(** A call about conversation [cid]: one for its staff, or one to its
    guest (a bot message, the typing bubble, Messenger buttons for the
    Messenger id of that conversation). *)
Definition about (e : env) (cid : string) (ef : effect) : Prop :=
  match ef with
  | ReplyFromBot c _ _ => c = cid
  | TypingOn c => c = cid
  | TypingOff c => c = cid
  | MessengerButtons psid _ _ => extractPsid e cid = Some psid
  | SavePsidMapping psid c _ => c = cid /\ extractPsid e cid = Some psid
  | _ => staff_side cid ef
  end.

(** The log of [w'] is the log of [w] followed by calls that are all [good]. *)
Definition appends (good : effect -> Prop) (w w' : world) : Prop :=
  exists l, log w' = (log w ++ l)%list /\ Forall good l.

(** The rows of the conversations other than [cid]. *)
Definition others (cid : string) (t : Repo.Table) : Repo.Table :=
  filter (fun r => negb (Repo.is_conv cid r)) t.

(** The rows other than the one of property [pid] and conversation [cid]:
    their keys and states. *)
Definition strangers (pid cid : string) (t : Repo.Table)
  : list (string * string * Repo.ConvState) :=
  map (fun r => (Repo.property_id r, Repo.conversation_id r, Repo.view r))
      (filter (fun r => negb (Repo.is_key pid cid r)) t).

(** From [w] to [w']: only [good] calls, no row of another conversation
    id changed, and no state of a row other than that of [pid] and [cid]
    changed. *)
Definition confined (good : effect -> Prop) (pid cid : string) (w w' : world) : Prop :=
  appends good w w'
  /\ others cid (table w') = others cid (table w)
  /\ strangers pid cid (table w') = strangers pid cid (table w).

(** Whatever it returns, [m] stays within [R]. *)
Definition stays {A} (R : world -> world -> Prop) (m : M A) : Prop :=
  forall w, R w (snd (m w)).

End Conduct.

(* ------------------------------------------------------------------ *)
(** ** Messenger webhook (webhooks/messenger_webhook.ts) *)
(* ------------------------------------------------------------------ *)

Module Messenger.
Import JS World Config Escalation Decision Router.

(** One element of [entry.messaging], as far as the handler reads it:
    [sender.id], [postback.payload], [message.quick_reply.payload] and
    [message.text] when it is a string. *)
Record Messaging : Type := MkMessaging {
  sender_id : option string;
  postback_payload : option string;
  quick_reply_payload : option string;
  message_text : option string
}.

Inductive Response : Type :=
| NotPageEvent
| Done
| DoneWithError.

(** Postback and quick reply both carry payloads; the postback is preferred. *)
Definition text_of (m : Messaging) : string :=
  match Service.nonempty (postback_payload m) with
  | Some p => p
  | None =>
      match Service.nonempty (quick_reply_payload m) with
      | Some q => q
      | None => match message_text m with Some t => t | None => "" end
      end
  end.

(** [routed?.ok && routed?.intent && !routed?.replied]; no result of the
    router carries [replied]. *)
Definition ok_with_intent (routed : Routed) : bool :=
  match routed with
  | Served _ _ | Answered _ | Passed _ _ => true
  | Escalation _ _ _ | Skipped _ => false
  end.

(** The rows of [messenger_psid_map]: those of [map], the table as it was
    before the first call of the log, and what every [savePsidMapping] of
    the log has written since. *)
Definition saved (map : PsidMap.Table) (l : list effect) : PsidMap.Table :=
  fold_left (fun t ef =>
               match ef with
               | SavePsidMapping psid cid property =>
                   PsidMap.savePsidMapping psid cid (Some property) t
               | _ => t
               end) l map.

(** [getConversationIdByPsid(psid)], asked when the message is handled. *)
Definition getConversationIdByPsid (map : PsidMap.Table) (psid : string)
  : M (option string) :=
  fun w => (Ret (PsidMap.getConversationIdByPsid psid (saved map (log w))), w).

(** The body of the loop over [entry.messaging]. *)
Definition handle (e : env) (map : PsidMap.Table) (m : Messaging) : M unit :=
  match Service.nonempty (sender_id m) with
  | None => ret tt
  | Some psid =>
      found <- getConversationIdByPsid map psid ;;
      match Service.nonempty found with
      | None => ret tt
      | Some conversationId =>
          let event := MkEvent (Webhook.property e) conversationId (text_of m) "en" in
          routed <- intentRouter e (Webhook.settings e) event ;;
          if ok_with_intent routed then replyFromBot conversationId "Okay!" else ret tt
      end
  end.

Fixpoint each (e : env) (map : PsidMap.Table) (ms : list Messaging) : M unit :=
  match ms with
  | [] => ret tt
  | m :: rest => handle e map m ;;; each e map rest
  end.

(** The handler of [POST /webhooks/messenger]; [is_page] says that
    [body.object] is [page] and [body.entry] an array, [entries] holds the
    [messaging] array of each entry, and [map] the Messenger ids known
    before the first call of the log. *)
Definition messenger (e : env) (map : PsidMap.Table) (is_page : bool)
  (entries : list (list Messaging)) : M Response :=
  if negb is_page then ret NotPageEvent
  else catch (each e map (concat entries) ;;; ret Done) (ret DoneWithError).

(** The conversation that a table of Messenger ids routes a message to,
    and those it routes a batch to. *)
Definition target (known : PsidMap.Table) (m : Messaging) : option string :=
  match Service.nonempty (sender_id m) with
  | None => None
  | Some psid => Service.nonempty (PsidMap.getConversationIdByPsid psid known)
  end.

Definition targets (known : PsidMap.Table) (ms : list Messaging) : list string :=
  flat_map (fun m => match target known m with Some c => [c] | None => [] end) ms.

(** From [w] to [w']: only calls about one of the conversations [cids];
    the state of every pair other than [pid] with one of [cids], and the
    flow of every conversation id other than [cids], as before. *)
Definition within (e : env) (pid : string) (cids : list string) (w w' : world) : Prop :=
  Conduct.appends (fun ef => exists cid, In cid cids /\ Conduct.about e cid ef) w w'
  /\ (forall pid' cid', ~ (pid' = pid /\ In cid' cids) ->
        Repo.getState pid' cid' (table w') = Repo.getState pid' cid' (table w))
  /\ (forall cid', ~ In cid' cids ->
        Repo.getServiceFlow cid' (table w') = Repo.getServiceFlow cid' (table w)).

End Messenger.

(* ------------------------------------------------------------------ *)
(** ** Further conversations and messages used as test inputs *)
(* ------------------------------------------------------------------ *)

Module Cases.
Import Parser DateJS Config World Escalation Scenario.

(** A second conversation, paused for another hour, beside the busy one. *)
Definition late_row : Repo.Row :=
  Repo.MkRow hotel "43" true (Some (now monday_morning + 3600000)) None false false 0 0 None.
Definition two_rooms : world := MkWorld [busy_row; late_row] [].

(** The same conversation id under two properties. *)
Definition twins : world := MkWorld [Repo.fresh hotel conv; Repo.fresh "hotel_2" conv] [].

(** No conversation has a state row yet. *)
Definition no_rows : world := MkWorld [] [].

(** A public reply typed by a member of staff, a public message that
    carries the bot's prefix, and a guest's question. *)
Definition staff_reply : Webhook.Parsed :=
  Webhook.MkParsed "message_created" conv "user" "outgoing" false
    "I will take it from here" false true.
Definition bot_echo : Webhook.Parsed :=
  Webhook.MkParsed "message_created" conv "user" "outgoing" false
    "Bot: one moment please" false true.
Definition pool_question : Webhook.Parsed :=
  Webhook.MkParsed "message_created" conv "contact" "incoming" false
    "is the pool open?" false true.

(** A booking with all four slots filled, waiting for the guest's yes. *)
Definition at_confirm : world :=
  after "book a table tomorrow at 8pm for 2 people under koen" fresh_world.
Definition confirm_flow : Flow.FlowState :=
  Flow.MkFlow None None (Some "BOOK_TABLE") (Some ["guests"; "time"; "date"; "name"])
    [("guests", Flow.VNum 2); ("time", Flow.VStr "8:00 pm");
     ("date", Flow.VStr "03 November"); ("name", Flow.VStr "koen")]
    (Some "confirm") None.
Definition says (t : string) : Service.ServiceRequest :=
  Service.MkRequest t None (Some hotel) conv.

(** The deployment with the language model switched on; the model finds
    all four fields in every message. *)
Definition llm_deployment : env :=
  MkEnv monday_morning UI.en ""
        true (fun _ => Ok (MkEntities (Some "2") (Some "8pm") (Some "friday") (Some "koen")))
        (Some (7 # 10))
        false (fun _ => None)
        (fun _ _ => Ok None) (fun _ _ => Ok [])
        None None (fun _ => false)
        true 30 true
        (fun _ _ => MkHandled false None)
        None 30 2 ["human"; "agent"; "staff"; "manager"; "real person"]
        (fun _ => true).

(** The Messenger id of the guest of the conversation, and the welcome
    menu's booking button pressed in Messenger. *)
Definition messenger_map : PsidMap.Table :=
  PsidMap.savePsidMapping "psid-1" conv (Some hotel) [].
Definition booking_button : Messenger.Messaging :=
  Messenger.MkMessaging (Some "psid-1") (Some "book a table") None None.

(** Options and a deployment with the staff notification switched off
    ([notifyOnce: false], SOFTWATCH_NOTIFY_ONCE=false). *)
Definition quiet : SoftEscalationOpts := MkOpts None (Some false) None None None None None.
Definition quiet_deployment : env :=
  MkEnv monday_morning UI.en ""
        false (fun _ => Ok (MkEntities None None None None)) (Some (7 # 10))
        false (fun _ => None)
        (fun _ _ => Ok None) (fun _ _ => Ok [])
        None None (fun _ => false)
        false 30 true
        (fun _ _ => MkHandled false None)
        None 30 2 ["human"; "agent"; "staff"; "manager"; "real person"]
        (fun _ => true).

(** An escalated conversation that staff then paused by hand: the pause
    has cleared watch mode, the escalated flag is still set. *)
Definition escalated_then_paused : world :=
  snd (handleHardPause deployment staff_event 30
         (snd (handleSoftEscalation deployment staff_event no_opts fresh_world))).

(** A complaint during a service request, flagged as an issue under a
    label of the caller's. *)
Definition complaint : SoftEscalationOpts :=
  MkOpts None None (Some "vip") (Some SERVICE) (Some 0) (Some "The tap is leaking") (Some true).

(** Slots as a confident model would return them, with a datetime of
    another day beside the date and the time. *)
Definition good_slots : Validator.LlmBookingSlots :=
  Validator.MkSlots (Some " BOOK_TABLE ") (Some "2026-11-06") (Some "8")
    (Some " 2025-09-03T19:00:00Z") None None (Some " EN ") (Some "PM") (Some (9 # 10)) None.

End Cases.

(* ================================================================== *)
(** * Properties *)
(* ================================================================== *)

(* ------------------------------------------------------------------ *)
(** ** Slot parsers *)
(* ------------------------------------------------------------------ *)

Section GuestCount.
Import JS Regex Parser.

Lemma between_bounds (lo hi : Z) (n : option Z) :
  between lo hi n = true -> exists v, n = Some v /\ lo <= v <= hi.
Proof.
  unfold between. destruct n as [v|]; [|discriminate].
  intros H. apply andb_true_iff in H. destruct H as [H1 H2].
  exists v. split; [reflexivity|]. split; [apply Z.leb_le, H1 | apply Z.leb_le, H2].
Qed.

(** Every count an explicit form yields passed the range check. *)
Lemma first_guest_pattern_bounds (ps : list (bool * re)) (s : string) (n : Z) :
  first_guest_pattern ps s = Some n -> 1 <= n <= 50.
Proof.
  induction ps as [|[ci r] ps IH]; cbn [first_guest_pattern]; [discriminate|].
  destruct (exec ci r s) as [mm|]; [|exact IH].
  destruct (between 1 50 (intOf mm 1)) eqn:B; [|exact IH].
  intros E. apply between_bounds in B. destruct B as (v & Ev & Hv).
  rewrite Ev in E. injection E as <-. exact Hv.
Qed.

(** C10. For every input text, [parseGuests] returns either null or an
    integer between 1 and 50: the standalone-number reply, the sum of the
    category counts and every qualified phrase are all range-checked
    before they are returned. *)
Theorem parseGuests_null_or_1_to_50 (text : string) :
  parseGuests text = None \/
  exists n, parseGuests text = Some n /\ 1 <= n <= 50.
Proof.
  unfold parseGuests.
  set (s := trim (toLowerCase text)).
  destruct (test true rx_for_clock s); [left; reflexivity|].
  destruct (test true rx_for_ampm s); [left; reflexivity|].
  destruct (exec false rx_solo s) as [solo|].
  - destruct (between 1 50 (intOf solo 1)) eqn:B; [|left; reflexivity].
    right. apply between_bounds in B. destruct B as (v & Ev & Hv).
    exists v. split; [exact Ev | exact Hv].
  - destruct (category_sum (exec_all true rx_category s) 0 false) as [sum found].
    destruct (found && (1 <=? sum) && (sum <=? 50)) eqn:C.
    + right. exists sum. split; [reflexivity|].
      apply andb_true_iff in C. destruct C as [C Hhi].
      apply andb_true_iff in C. destruct C as [_ Hlo].
      split; [apply Z.leb_le, Hlo | apply Z.leb_le, Hhi].
    + destruct (first_guest_pattern guest_patterns s) as [n|] eqn:F.
      * right. exists n. split; [reflexivity|].
        exact (first_guest_pattern_bounds _ _ _ F).
      * left. destruct (test true rx_looksLikeTime s); reflexivity.
Qed.

End GuestCount.

(* ------------------------------------------------------------------ *)
(** ** Pause gate *)
(* ------------------------------------------------------------------ *)

Section PauseGate.
Import World Config Escalation Router.

(** C7. For every conversation whose stored state has [paused = true],
    an inbound message that is not a staff command is stopped at the pause
    gate: the router returns [{skipped: true, reason: 'paused'}], leaves
    the table as it is and calls the platform not at all (no reply), and
    this whatever the resume deadline and the clock are. *)
Theorem paused_conversation_is_skipped
  (e : env) (opts : Options) (event : Event) (w : world) (st : Repo.ConvState) :
  parseCommand (text event) = None ->
  Repo.getState (propertyId event) (conversationId event) (table w) = Some st ->
  Repo.s_paused st = true ->
  intentRouter e opts event w = (Ret (Skipped "paused"), w).
Proof.
  intros Hcmd Hst Hp.
  unfold intentRouter. rewrite Hcmd.
  unfold pauseGate, bind, query. rewrite Hst, Hp. reflexivity.
Qed.

(** The deadline of [Scenario.busy_row] lies ten minutes ahead; the same
    row with a deadline long past is skipped just the same. *)
Lemma paused_conversation_is_skipped_witness :
  Router.intentRouter Scenario.deployment Router.DEFAULTS
    (Scenario.guest_says "is the pool open?") Scenario.busy_world
  = (Ret (Skipped "paused"), Scenario.busy_world).
Proof.
  apply (paused_conversation_is_skipped Scenario.deployment Router.DEFAULTS
           (Scenario.guest_says "is the pool open?") Scenario.busy_world
           (Repo.view Scenario.busy_row)); reflexivity.
Defined.

End PauseGate.

(* ------------------------------------------------------------------ *)
(** ** Intent decision engine *)
(* ------------------------------------------------------------------ *)

Section Strings.
Import JS.

Lemma space_of_lower (a : ascii) : is_space (lower_char a) = is_space a.
Proof. destruct a as [[] [] [] [] [] [] [] []]; reflexivity. Qed.

Lemma lower_of_lower (a : ascii) : lower_char (lower_char a) = lower_char a.
Proof. destruct a as [[] [] [] [] [] [] [] []]; reflexivity. Qed.

Lemma toLowerCase_idem (s : string) : toLowerCase (toLowerCase s) = toLowerCase s.
Proof.
  induction s as [|a r IH]; [reflexivity|].
  cbn [toLowerCase map_str]. rewrite lower_of_lower. f_equal. exact IH.
Qed.

Lemma trimStart_lower (s : string) :
  toLowerCase (trimStart s) = trimStart (toLowerCase s).
Proof.
  induction s as [|a r IH]; [reflexivity|].
  cbn [trimStart toLowerCase map_str]. rewrite space_of_lower.
  destruct (is_space a); [exact IH | reflexivity].
Qed.

Lemma trimEnd_lower (s : string) :
  toLowerCase (trimEnd s) = trimEnd (toLowerCase s).
Proof.
  induction s as [|a r IH]; [reflexivity|].
  cbn [trimEnd toLowerCase map_str]. fold toLowerCase. rewrite <- IH, space_of_lower.
  destruct (trimEnd r) as [|b r']; cbn [toLowerCase map_str].
  - destruct (is_space a); reflexivity.
  - reflexivity.
Qed.

Lemma trim_lower (s : string) : toLowerCase (trim s) = trim (toLowerCase s).
Proof. unfold trim. rewrite trimEnd_lower, trimStart_lower. reflexivity. Qed.

Lemma trimStart_clean (s : string) : clean_start (trimStart s).
Proof.
  induction s as [|a r IH]; [exact I|].
  cbn [trimStart]. destruct (is_space a) eqn:E; [exact IH | exact E].
Qed.

Lemma trimStart_of_clean (s : string) : clean_start s -> trimStart s = s.
Proof. destruct s as [|a r]; [reflexivity|]. cbn. intros ->. reflexivity. Qed.

Lemma trimEnd_clean (s : string) : clean_start s -> clean_start (trimEnd s).
Proof.
  destruct s as [|a r]; [intros _; exact I|].
  cbn [clean_start trimEnd]. intros E.
  destruct (trimEnd r); [rewrite E|]; exact E.
Qed.

Lemma trimEnd_idem (s : string) : trimEnd (trimEnd s) = trimEnd s.
Proof.
  induction s as [|a r IH]; [reflexivity|].
  cbn [trimEnd]. destruct (trimEnd r) as [|b r'] eqn:E.
  - destruct (is_space a) eqn:Sa; [reflexivity|]. cbn. rewrite Sa. reflexivity.
  - cbn [trimEnd]. cbn [trimEnd] in IH. rewrite IH. reflexivity.
Qed.

Lemma trim_idem (s : string) : trim (trim s) = trim s.
Proof.
  unfold trim.
  rewrite (trimStart_of_clean (trimEnd (trimStart s))).
  - apply trimEnd_idem.
  - apply trimEnd_clean, trimStart_clean.
Qed.

Lemma append_assoc (a b c : string) : (a ++ b) ++ c = a ++ (b ++ c).
Proof. induction a as [|x a IH]; [reflexivity|]. cbn. rewrite IH. reflexivity. Qed.

Lemma startsWith_prefix (s p : string) :
  startsWith s p = true <-> exists rest, s = p ++ rest.
Proof.
  revert s. induction p as [|b p IH]; intros s.
  - destruct s; cbn; split; intros; try reflexivity; eexists; reflexivity.
  - destruct s as [|a s]; cbn [startsWith].
    + split; [discriminate | intros [rest H]; discriminate H].
    + rewrite andb_true_iff, Ascii.eqb_eq, IH. split.
      * intros [-> [rest ->]]. exists rest. reflexivity.
      * intros [rest H]. cbn in H. injection H as -> ->. split; [reflexivity | exists rest; reflexivity].
Qed.

Lemma includes_occurs (s k : string) :
  includes s k = true <-> Spec.occurs_in k s.
Proof.
  unfold Spec.occurs_in. induction s as [|a s IH].
  - cbn [includes]. rewrite orb_false_r, startsWith_prefix. split.
    + intros [rest H]. exists "", rest. exact H.
    + intros (pre & post & H). destruct pre; [exists post; exact H | discriminate H].
  - cbn [includes]. rewrite orb_true_iff, startsWith_prefix, IH. split.
    + intros [[rest H] | (pre & post & H)].
      * exists "", rest. exact H.
      * exists (String a pre), post. cbn. rewrite H. reflexivity.
    + intros (pre & post & H). destruct pre as [|b pre].
      * left. exists post. exact H.
      * right. cbn in H. injection H as -> ->. exists pre, post. reflexivity.
Qed.

Lemma endsWith_suffix (s p : string) :
  endsWith s p = true <-> exists pre, s = pre ++ p.
Proof.
  induction s as [|a s IH].
  - cbn [endsWith]. rewrite orb_false_r, String.eqb_eq. split.
    + intros <-. exists "". reflexivity.
    + intros [pre H]. destruct pre; [exact H | discriminate H].
  - cbn [endsWith]. rewrite orb_true_iff, String.eqb_eq, IH. split.
    + intros [<- | [pre ->]]; [exists "" | exists (String a pre)]; reflexivity.
    + intros [pre H]. destruct pre as [|b pre].
      * left. exact H.
      * right. cbn in H. injection H as -> ->. exists pre. reflexivity.
Qed.

Lemma existsb_includes (s : string) (ks : list string) :
  existsb (includes s) ks = true <-> Spec.keyword_match ks s.
Proof.
  unfold Spec.keyword_match. rewrite existsb_exists.
  split; intros (k & Hin & H); exists k; (split; [exact Hin|]); apply includes_occurs; exact H.
Qed.

End Strings.

Section Decide.
Import JS Config Escalation Decision.

Lemma normalize_idem (t : string) : normalize (normalize t) = normalize t.
Proof.
  unfold normalize. rewrite <- trim_lower, trim_idem, trim_lower, toLowerCase_idem.
  reflexivity.
Qed.

Lemma normalize_trim (t : string) : normalize (trim t) = normalize t.
Proof. unfold normalize. rewrite trim_lower, trim_idem. reflexivity. Qed.

Lemma detects_strong_signal (s : string) :
  detectService (normalize s) || detectNegative (normalize s) = true
  <-> Spec.strong_signal (normalize s).
Proof.
  unfold detectService, detectNegative, Spec.strong_signal.
  rewrite normalize_idem, orb_true_iff, !existsb_includes. tauto.
Qed.

Lemma isQuestion_shaped (s : string) :
  isQuestion (normalize s) = true <-> Spec.question_shaped (normalize s).
Proof.
  unfold isQuestion, Spec.question_shaped. rewrite normalize_idem.
  set (n := normalize s).
  assert (K : includes n "price" || includes n "time" || includes n "open"
              || includes n "hours" = true
              <-> Spec.keyword_match ["price"; "time"; "open"; "hours"] n).
  { rewrite <- existsb_includes. cbn [existsb]. rewrite orb_false_r, !orb_assoc. tauto. }
  assert (L : existsb (fun q => startsWith n (q ++ " "))
                ["what"; "when"; "where"; "how"; "who"; "which"] = true
              <-> exists q rest, In q Spec.interrogatives /\ n = q ++ " " ++ rest).
  { rewrite existsb_exists. split.
    - intros (q & Hin & H). apply startsWith_prefix in H. destruct H as [rest H].
      exists q, rest. split; [exact Hin|]. rewrite H. apply append_assoc.
    - intros (q & rest & Hin & H). exists q. split; [exact Hin|].
      apply startsWith_prefix. exists rest. rewrite H. symmetry. apply append_assoc. }
  destruct n as [|a r] eqn:En.
  - cbn [truthy negb]. split; [discriminate|].
    intros [[pre H] | [(q & rest & _ & H) | (k & Hin & pre & post & H)]].
    + destruct pre; discriminate H.
    + destruct q; discriminate H.
    + cbn in Hin. destruct pre; [|discriminate H].
      destruct Hin as [<- | [<- | [<- | [<- | []]]]]; discriminate H.
  - cbn [truthy negb]. rewrite <- En in *. clear En.
    destruct (endsWith n "?") eqn:E.
    + split; [|reflexivity]. intros _. left. apply endsWith_suffix. exact E.
    + destruct (existsb _ _) eqn:Q.
      * split; [|reflexivity]. intros _. right. left. apply L. reflexivity.
      * rewrite K. split.
        -- intros H. right. right. exact H.
        -- intros [H | [H | H]].
           ++ apply endsWith_suffix in H. congruence.
           ++ apply L in H. discriminate H.
           ++ exact H.
Qed.

(** C9. For every input text, [decide] classifies in the priority order
    of the specification: a negative or service keyword gives SERVICE with
    confidence 0.9; otherwise, with chit-chat enabled, a greeting or thanks
    gives CHITCHAT with 0.99; otherwise a question-shaped text (trailing
    question mark, leading interrogative, or price/time/open/hours) gives
    FAQ with 0.85; otherwise UNKNOWN with 0.5. *)
Theorem decide_follows_priority_order (e : env) (text : string) :
  Spec.classifies (CHITCHAT_ENABLED e) (normalize text)
    (d_intent (decide e text)) (d_confidence (decide e text)).
Proof.
  unfold decide, isSmalltalk. rewrite !normalize_trim.
  pose proof (detects_strong_signal text) as S.
  pose proof (isQuestion_shaped text) as Qs.
  set (n := normalize text) in *.
  destruct (detectService n || detectNegative n) eqn:D.
  - cbn. apply Spec.service_first. apply S. reflexivity.
  - assert (NS : ~ Spec.strong_signal n) by (intros H; apply S in H; discriminate H).
    destruct (CHITCHAT_ENABLED e && (Regex.test true rx_greeting n || Regex.test true rx_thanks n)) eqn:C.
    + cbn. apply andb_true_iff in C. destruct C as [Ce Cm].
      apply Spec.then_chitchat; [exact NS | exact Ce |].
      apply orb_true_iff in Cm. exact Cm.
    + assert (NC : ~ (CHITCHAT_ENABLED e = true /\ Spec.greeting_or_thanks n)).
      { intros [Ce Cm]. unfold Spec.greeting_or_thanks in Cm.
        apply orb_true_iff in Cm. rewrite Ce, Cm in C. discriminate C. }
      destruct (isQuestion n) eqn:I.
      * cbn. apply Spec.then_faq; [exact NS | exact NC | apply Qs; reflexivity].
      * cbn. apply Spec.else_unknown; [exact NS | exact NC |].
        intros H. apply Qs in H. discriminate H.
Qed.

End Decide.

(* ------------------------------------------------------------------ *)
(** ** The state table *)
(* ------------------------------------------------------------------ *)

Section Table.
Import Repo.

Variables pid cid : string.

Lemma find_app_hit {A} (P : A -> bool) (l : list A) (x : A) :
  existsb P l = false -> P x = true -> find P (l ++ [x]) = Some x.
Proof.
  induction l as [|y l IH]; cbn; intros H Px.
  - rewrite Px. reflexivity.
  - apply orb_false_iff in H. destruct H as [Hy Hl]. rewrite Hy. exact (IH Hl Px).
Qed.

Lemma find_none_existsb {A} (P : A -> bool) (l : list A) :
  find P l = None <-> existsb P l = false.
Proof.
  induction l as [|y l IH]; cbn; [tauto|].
  destruct (P y); cbn; [split; discriminate | exact IH].
Qed.

Lemma is_key_fresh : is_key pid cid (fresh pid cid) = true.
Proof. unfold is_key, fresh. cbn. rewrite !String.eqb_refl. reflexivity. Qed.

(** After [ensureState] the conversation has a row: the one it had, or a
    fresh one. *)
Lemma find_ensureState (t : Table) :
  find (is_key pid cid) (ensureState pid cid t)
  = match find (is_key pid cid) t with
    | Some r => Some r
    | None => Some (fresh pid cid)
    end.
Proof.
  unfold ensureState. destruct (existsb (is_key pid cid) t) eqn:E.
  - destruct (find (is_key pid cid) t) eqn:F; [reflexivity|].
    apply find_none_existsb in F. congruence.
  - pose proof (proj2 (find_none_existsb _ _) E) as F. rewrite F.
    apply find_app_hit; [exact E | apply is_key_fresh].
Qed.

(** An [UPDATE] that leaves the key columns alone changes the row that
    [getState] reads, and no other. *)
Lemma find_update (c : Row -> bool) (f : Row -> Row) (t : Table) :
  (forall r, is_key pid cid (f r) = is_key pid cid r) ->
  find (is_key pid cid) (update c f t)
  = option_map (fun r => if c r then f r else r) (find (is_key pid cid) t).
Proof.
  intros K. unfold update. induction t as [|r t IH]; [reflexivity|].
  cbn [map find].
  assert (E : is_key pid cid (if c r then f r else r) = is_key pid cid r)
    by (destruct (c r); [apply K | reflexivity]).
  rewrite E. destruct (is_key pid cid r); [reflexivity | exact IH].
Qed.

Lemma existsb_update (c : Row -> bool) (f : Row -> Row) (t : Table) :
  (forall r, is_key pid cid (f r) = is_key pid cid r) ->
  existsb (is_key pid cid) (update c f t) = existsb (is_key pid cid) t.
Proof.
  intros K. unfold update. induction t as [|r t IH]; [reflexivity|].
  cbn [map existsb]. rewrite IH. f_equal.
  destruct (c r); [apply K | reflexivity].
Qed.

Lemma existsb_ensureState (t : Table) :
  existsb (is_key pid cid) (ensureState pid cid t) = true.
Proof.
  unfold ensureState. destruct (existsb (is_key pid cid) t) eqn:E; [exact E|].
  rewrite existsb_app. cbn. rewrite is_key_fresh. apply orb_true_r.
Qed.

Lemma ensureState_present (t : Table) :
  existsb (is_key pid cid) t = true -> ensureState pid cid t = t.
Proof. unfold ensureState. intros ->. reflexivity. Qed.

Lemma markEscalatedOnce_settles (t : Table) :
  settled pid cid (fst (markEscalatedOnce pid cid t)).
Proof.
  unfold markEscalatedOnce, settled. cbn [fst]. split.
  - rewrite existsb_update; [apply existsb_ensureState | reflexivity].
  - generalize (ensureState pid cid t) as t1. intros t1. unfold update.
    induction t1 as [|r t1 IH]; [reflexivity|].
    cbn [map filter]. rewrite IH.
    destruct (not_yet_escalated pid cid r) eqn:N.
    + unfold not_yet_escalated, set_escalated. cbn.
      unfold not_yet_escalated in N. apply andb_true_iff in N. destruct N as [K _].
      unfold is_key in *. cbn. rewrite K. reflexivity.
    + rewrite N. reflexivity.
Qed.

Lemma enterSoftWatch_settled (t : Table) :
  settled pid cid t -> settled pid cid (enterSoftWatch pid cid t).
Proof.
  unfold settled, enterSoftWatch. intros [E F].
  rewrite (ensureState_present _ E). split.
  - rewrite existsb_update; [exact E | reflexivity].
  - unfold update. clear E. induction t as [|r t IH]; [reflexivity|].
    cbn [map filter] in *.
    assert (N : not_yet_escalated pid cid (if is_key pid cid r then set_watch r else r)
                = not_yet_escalated pid cid r)
      by (destruct (is_key pid cid r); reflexivity).
    rewrite N. destruct (not_yet_escalated pid cid r); [discriminate F | exact (IH F)].
Qed.

Lemma markEscalatedOnce_again (t : Table) :
  settled pid cid t -> snd (markEscalatedOnce pid cid t) = true.
Proof.
  unfold settled, markEscalatedOnce, rowCount. intros [E F]. cbn [snd].
  rewrite (ensureState_present _ E), F. reflexivity.
Qed.

Lemma filter_hit {A} (P Q : A -> bool) (l : list A) (x : A) :
  find P l = Some x -> Q x = true -> filter (fun y => P y && Q y) l <> [].
Proof.
  induction l as [|y l IH]; cbn; [discriminate|].
  destruct (P y) eqn:Py.
  - intros [= ->] Qx. rewrite Qx. cbn. discriminate.
  - cbn. exact IH.
Qed.

(** The first escalation of an episode finds a row that is not escalated. *)
Lemma markEscalatedOnce_first (t : Table) :
  (forall st, getState pid cid t = Some st -> s_escalated st = false) ->
  snd (markEscalatedOnce pid cid t) = false.
Proof.
  intros H. unfold markEscalatedOnce, rowCount. cbn [snd].
  apply Nat.eqb_neq. intros L. apply length_zero_iff_nil in L. revert L.
  pose proof (find_ensureState t) as F.
  unfold getState in H. destruct (find (is_key pid cid) t) as [r|] eqn:Fr.
  - apply (filter_hit (is_key pid cid) (fun r => negb (escalated r)) _ r F).
    specialize (H (view r) eq_refl). cbn in H. rewrite H. reflexivity.
  - apply (filter_hit (is_key pid cid) (fun r => negb (escalated r)) _ _ F). reflexivity.
Qed.

End Table.

(* ------------------------------------------------------------------ *)
(** ** Soft escalation *)
(* ------------------------------------------------------------------ *)

Section SoftEscalation.
Import World Config Escalation.

Variable e : env.
Variable event : Event.

Let pid := propertyId event.
Let cid := conversationId event.

(** What one soft escalation does to a world, in closed form. *)
Lemma handleSoftEscalation_run (opts : SoftEscalationOpts) (w : world) :
  let marked := Repo.markEscalatedOnce pid cid (table w) in
  let notes := if negb (snd marked) && shouldNotify e opts
               then [PrivateMessage cid ESCALATED_NOTE] else [] in
  let w1 := MkWorld (Repo.enterSoftWatch pid cid (fst marked))
              (log w ++ [AddLabels cid (labels_of opts); UpdatePriority cid (priority_of opts);
                         UpdateStatus cid "open"] ++ notes) in
  handleSoftEscalation e event opts w
  = (Ret (MkEscalated true "soft_watch"),
     MkWorld (table w1) (log w1 ++ assignment e cid opts w1)).
Proof.
  unfold handleSoftEscalation, assignment. fold pid cid.
  unfold bind, attempt, emit, exec_sql, ret. cbn [table log].
  destruct (Repo.markEscalatedOnce pid cid (table w)) as [t b]. cbn [fst snd].
  rewrite <- !app_assoc. cbn [app].
  destruct b, (shouldNotify e opts); cbn [negb andb table log];
    rewrite ?app_nil_r;
    (destruct (match assignTo opts with Some a => Some a | None => DEFAULT_ASSIGN e end)
       as [assignee|]; [destruct (assignee =? 0)|]);
    cbn [table log]; rewrite ?app_nil_r, <- ?app_assoc; cbn [app]; try reflexivity;
    repeat match goal with
           | |- context [has_assignee ?a ?b ?c] => destruct (has_assignee a b c)
           end;
    cbn [table log]; rewrite ?app_nil_r, <- ?app_assoc; reflexivity.
Qed.

Lemma escalation_notes_app (l1 l2 : list effect) :
  escalation_notes cid (l1 ++ l2) = (escalation_notes cid l1 + escalation_notes cid l2)%nat.
Proof. unfold escalation_notes. rewrite filter_app, length_app. reflexivity. Qed.

Lemma assignment_no_note (opts : SoftEscalationOpts) (w : world) :
  escalation_notes cid (assignment e cid opts w) = 0%nat.
Proof.
  unfold assignment.
  destruct (match assignTo opts with Some a => Some a | None => DEFAULT_ASSIGN e end) as [a|];
    [|reflexivity].
  destruct (a =? 0); [reflexivity|]. destruct (has_assignee e cid w); reflexivity.
Qed.

Lemma one_note : escalation_notes cid [PrivateMessage cid ESCALATED_NOTE] = 1%nat.
Proof. unfold escalation_notes. cbn. rewrite !String.eqb_refl. reflexivity. Qed.

(** The state a soft escalation leaves: the row it found or a fresh one,
    marked escalated and watched, with nothing else changed. *)
Lemma soft_escalation_state (opts : SoftEscalationOpts) (w : world) :
  Repo.getState pid cid
    (table (snd (handleSoftEscalation e event opts w)))
  = Some match Repo.getState pid cid (table w) with
         | Some st => Repo.MkState (Repo.s_paused st) (Repo.s_resume_at st) true true
                        (Repo.s_clarify_attempts st) (Repo.s_negative_count st)
         | None => Repo.MkState false None true true 0 0
         end.
Proof.
  rewrite handleSoftEscalation_run. cbn [snd table]. fold pid cid.
  unfold Repo.getState, Repo.enterSoftWatch, Repo.markEscalatedOnce. cbn [fst].
  assert (E : existsb (Repo.is_key pid cid)
                (Repo.update (Repo.not_yet_escalated pid cid) Repo.set_escalated
                   (Repo.ensureState pid cid (table w))) = true)
    by (rewrite existsb_update by reflexivity; apply existsb_ensureState).
  rewrite (ensureState_present _ _ _ E).
  rewrite !find_update by reflexivity. rewrite find_ensureState.
  destruct (find (Repo.is_key pid cid) (table w)) as [r|] eqn:F; cbn [option_map].
  - assert (K : Repo.is_key pid cid r = true) by (apply find_some in F; apply F).
    unfold Repo.not_yet_escalated. rewrite K. cbn [andb].
    destruct (Repo.escalated r) eqn:Er; cbn [negb].
    + rewrite K. unfold Repo.view, Repo.set_watch. cbn. rewrite Er. reflexivity.
    + unfold Repo.is_key in *. cbn. rewrite K. reflexivity.
  - unfold Repo.not_yet_escalated. rewrite is_key_fresh. cbn.
    unfold Repo.is_key. cbn. rewrite !String.eqb_refl. reflexivity.
Qed.

Lemma priority_follows_the_signal (opts : SoftEscalationOpts) :
  Spec.soft_priority
    (JS.toLowerCase (match o_text opts with Some t => t | None => "" end))
    (match issue opts with Some true => true | _ => false end)
    (match negativeCount opts with Some n => n | None => 0 end)
    (match intent opts with Some i => i | None => UNKNOWN end)
    (priority_of opts).
Proof.
  unfold priority_of, priorityFromSignal. cbv zeta.
  set (s := JS.toLowerCase _). set (neg := match issue opts with Some true => true | _ => false end).
  set (n := match negativeCount opts with Some n => n | None => 0 end).
  set (i := match intent opts with Some i => i | None => UNKNOWN end).
  destruct (existsb (JS.includes s) EMERGENCY_WORDS) eqn:E.
  - apply Spec.emergency_urgent, existsb_includes, E.
  - assert (N : ~ Spec.keyword_match EMERGENCY_WORDS s)
      by (intros K; apply existsb_includes in K; congruence).
    destruct neg eqn:Hneg; [apply Spec.negative_high; [exact N | left; reflexivity]|].
    destruct (Z.leb_spec 2 n) as [L | L];
      [apply Spec.negative_high; [exact N | right; exact L]|].
    destruct i eqn:Hi;
      try (apply Spec.else_low; [exact N | reflexivity | exact L | discriminate]).
    apply Spec.service_medium; [exact N | reflexivity | exact L | reflexivity].
Qed.

Lemma settled_state (t : Repo.Table) :
  Repo.settled pid cid t ->
  exists st, Repo.getState pid cid t = Some st /\ Repo.s_escalated st = true.
Proof.
  intros [E F]. unfold Repo.getState.
  destruct (find (Repo.is_key pid cid) t) as [r|] eqn:Fr.
  - exists (Repo.view r). split; [reflexivity|]. cbn.
    destruct (Repo.escalated r) eqn:Er; [reflexivity|]. exfalso.
    apply (filter_hit (Repo.is_key pid cid) (fun r => negb (Repo.escalated r)) _ r Fr);
      [rewrite Er; reflexivity | exact F].
  - apply find_none_existsb in Fr. congruence.
Qed.

Lemma assignment_assigns (opts : SoftEscalationOpts) (w : world) (ef : effect) :
  In ef (assignment e cid opts w) -> exists a t, ef = AssignToUser cid a t.
Proof.
  unfold assignment.
  destruct (match assignTo opts with Some a => Some a | None => DEFAULT_ASSIGN e end) as [a|];
    [|intros []].
  destruct (a =? 0); [intros []|]. destruct (has_assignee e cid w); [intros []|].
  intros [<- | []]. eexists. eexists. reflexivity.
Qed.

(** C8. Soft escalation notifies staff at most once per episode.  From a
    state that is not yet escalated, the first call finds
    [escalated = false] and flips it, and posts the note if the
    notification is switched on (SOFTWATCH_NOTIFY_ONCE, or [notifyOnce]
    when the caller gives it); a second call finds the flag flipped and
    posts none.  So two calls produce one notification when the first is
    allowed to notify, and none when it is not.  Any call that finds the
    conversation escalated already, the second one included, posts no
    note whatever its options, and still sets the labels ([needs_staff],
    the caller's own label, [issue_report] for an issue), the priority
    that the signal calls for and the status open, and sets the watch
    flag again even where it had been cleared in between; the pause
    fields and the counters stay. *)
Theorem soft_escalation_notifies_once
  (first second : SoftEscalationOpts) (w w' : world) :
  (forall st, Repo.getState pid cid (table w) = Some st -> Repo.s_escalated st = false) ->
  Repo.settled pid cid (table w') ->
  let w1 := snd (handleSoftEscalation e event first w) in
  let w2 := snd (handleSoftEscalation e event second w1) in
  let again := snd (handleSoftEscalation e event second w') in
  let once := if shouldNotify e first then 1%nat else 0%nat in
  let labels :=
    ("needs_staff"
     :: match label second with
        | Some l => if String.eqb l "" || String.eqb l "needs_staff" then [] else [l]
        | None => []
        end
     ++ match issue second with Some true => ["issue_report"] | _ => [] end)%list in
  (snd (Repo.markEscalatedOnce pid cid (table w)) = false
   /\ snd (Repo.markEscalatedOnce pid cid (table w1)) = true
   /\ Repo.settled pid cid (table w1)
   /\ escalation_notes cid (log w1) = (escalation_notes cid (log w) + once)%nat
   /\ escalation_notes cid (log w2) = (escalation_notes cid (log w) + once)%nat)
  /\ snd (Repo.markEscalatedOnce pid cid (table w')) = true
  /\ escalation_notes cid (log again) = escalation_notes cid (log w')
  /\ (exists prio rest,
        log again = (log w' ++ AddLabels cid labels :: UpdatePriority cid prio
                       :: UpdateStatus cid "open" :: rest)%list
        /\ Spec.soft_priority
             (JS.toLowerCase (match o_text second with Some t => t | None => "" end))
             (match issue second with Some true => true | _ => false end)
             (match negativeCount second with Some n => n | None => 0 end)
             (match intent second with Some i => i | None => UNKNOWN end)
             prio
        /\ forall ef, In ef rest -> exists a t, ef = AssignToUser cid a t)
  /\ (exists st, Repo.getState pid cid (table w') = Some st
                 /\ Repo.getState pid cid (table again)
                    = Some (Repo.MkState (Repo.s_paused st) (Repo.s_resume_at st) true true
                              (Repo.s_clarify_attempts st) (Repo.s_negative_count st))).
Proof.
  intros Hfresh Hset w1 w2 again once labels.
  assert (No : forall opts x,
             Repo.settled pid cid (table x) ->
             escalation_notes cid (log (snd (handleSoftEscalation e event opts x)))
             = escalation_notes cid (log x)).
  { intros opts x Sx. rewrite handleSoftEscalation_run. cbn [snd table log].
    rewrite (markEscalatedOnce_again pid cid (table x) Sx). cbn [negb andb].
    rewrite app_nil_r, !escalation_notes_app, assignment_no_note.
    change (escalation_notes cid
              [AddLabels cid (labels_of opts); UpdatePriority cid (priority_of opts);
               UpdateStatus cid "open"]) with 0%nat.
    lia. }
  pose proof (markEscalatedOnce_first pid cid (table w) Hfresh) as M1.
  assert (S1 : Repo.settled pid cid (table w1)).
  { subst w1. rewrite handleSoftEscalation_run. cbn [snd table].
    apply enterSoftWatch_settled, markEscalatedOnce_settles. }
  assert (N1 : escalation_notes cid (log w1) = (escalation_notes cid (log w) + once)%nat).
  { subst w1 once. rewrite handleSoftEscalation_run. cbn [snd table log].
    rewrite M1. cbn [negb andb].
    rewrite !escalation_notes_app, assignment_no_note.
    change (escalation_notes cid
              [AddLabels cid (labels_of first); UpdatePriority cid (priority_of first);
               UpdateStatus cid "open"]) with 0%nat.
    destruct (shouldNotify e first); [rewrite one_note|]; cbn; lia. }
  split.
  { split; [exact M1|]. split; [exact (markEscalatedOnce_again pid cid _ S1)|].
    split; [exact S1|]. split; [exact N1|].
    subst w2. rewrite (No second w1 S1). exact N1. }
  split; [exact (markEscalatedOnce_again pid cid _ Hset)|].
  split; [exact (No second w' Hset)|].
  split.
  - exists (priority_of second).
    subst again. rewrite handleSoftEscalation_run. cbn [snd table log].
    rewrite (markEscalatedOnce_again pid cid (table w') Hset). cbn [negb andb].
    rewrite app_nil_r. eexists. split; [|split].
    + rewrite <- app_assoc. cbn [app]. f_equal. f_equal. f_equal.
      unfold labels_of, labels, NEEDS_STAFF_LABEL, ISSUE_LABEL. cbn [app]. f_equal. f_equal.
      destruct (label second) as [[|a l]|]; [reflexivity | | reflexivity].
      change (String.eqb (String a l) "") with false.
      change (JS.truthy (String a l)) with true. cbn [andb orb].
      destruct (String.eqb (String a l) "needs_staff"); reflexivity.
    + apply priority_follows_the_signal.
    + intros ef. apply assignment_assigns.
  - destruct (settled_state _ Hset) as (st & G & Es). exists st. split; [exact G|].
    subst again. rewrite soft_escalation_state, G. reflexivity.
Qed.

End SoftEscalation.

(* ------------------------------------------------------------------ *)
(** ** Pause, resume and resolve *)
(* ------------------------------------------------------------------ *)

Section PauseResume.
Import World Config Escalation.

Lemma find_update_key (pid cid : string) (f : Repo.Row -> Repo.Row) (t : Repo.Table) :
  (forall r, Repo.is_key pid cid (f r) = Repo.is_key pid cid r) ->
  find (Repo.is_key pid cid) (Repo.update (Repo.is_key pid cid) f t)
  = option_map f (find (Repo.is_key pid cid) t).
Proof.
  intros K. rewrite find_update by exact K.
  destruct (find (Repo.is_key pid cid) t) as [r|] eqn:F; [|reflexivity].
  cbn. apply find_some in F. destruct F as [_ ->]. reflexivity.
Qed.

Lemma handleHardPause_table (e : env) (event : Event) (minutes : Z) (w : world) :
  table (snd (handleHardPause e event minutes w))
  = Repo.manualPauseForMinutes (DateJS.now (clk e)) (propertyId event) (conversationId event)
      minutes (table w).
Proof.
  unfold handleHardPause, bind, attempt, emit, exec_sql, query, ret. cbn [table log].
  destruct (negb _); reflexivity.
Qed.

(** After a hard pause of a conversation that has a state row, the row is
    paused until [minutes] from now. *)
Lemma handleHardPause_state (e : env) (event : Event) (minutes : Z) (w : world)
  (st0 : Repo.ConvState) :
  Repo.getState (propertyId event) (conversationId event) (table w) = Some st0 ->
  exists st,
    Repo.getState (propertyId event) (conversationId event)
      (table (snd (handleHardPause e event minutes w))) = Some st
    /\ Repo.s_paused st = true
    /\ Repo.s_resume_at st = Some (DateJS.now (clk e) + minutes * 60000).
Proof.
  intros H. rewrite handleHardPause_table.
  unfold Repo.getState, Repo.manualPauseForMinutes in *.
  rewrite find_update_key by reflexivity.
  destruct (find _ (table w)) as [r|]; [|discriminate H].
  eexists. split; [reflexivity|]. split; reflexivity.
Qed.

(** C2, as the code has it.  For a conversation that has a state row, a
    staff note matching [@botoff] (with or without a number after it) and
    a routed message starting with [@botoff] both leave [paused = true]
    with the resume deadline at now plus the configured auto-resume
    minutes (AUTO_RESUME_MINUTES, 30 when unset); the number typed after
    the command is not read. *)
Theorem botoff_pauses_for_configured_minutes
  (e : env) (opts : Router.Options) (cid note : string) (event : Event) (w : world)
  (st0 st1 : Repo.ConvState) :
  Regex.test true (Regex.lit "@botoff") note = true ->
  Repo.getState (Webhook.property e) cid (table w) = Some st0 ->
  Router.parseCommand (text event) = Some Router.pause ->
  Repo.getState (propertyId event) (conversationId event) (table w) = Some st1 ->
  (exists st,
     Repo.getState (Webhook.property e) cid (table (snd (Webhook.staff_command e cid note w)))
     = Some st
     /\ Repo.s_paused st = true
     /\ Repo.s_resume_at st = Some (DateJS.now (clk e) + AUTO_RESUME_MINUTES e * 60000))
  /\
  (exists st,
     Repo.getState (propertyId event) (conversationId event)
       (table (snd (Router.intentRouter e opts event w))) = Some st
     /\ Repo.s_paused st = true
     /\ Repo.s_resume_at st
        = Some (DateJS.now (clk e) + Router.auto_resume_minutes opts * 60000)).
Proof.
  intros Hnote Hrow0 Hcmd Hrow1. split.
  - unfold Webhook.staff_command. rewrite Hnote.
    pose proof (handleHardPause_state e (MkEvent (Webhook.property e) cid "" "")
                  (AUTO_RESUME_MINUTES e) w st0 Hrow0) as (st & G & P & R).
    exists st. split; [|split; assumption].
    rewrite <- G. unfold bind, ret.
    destruct (handleHardPause e _ _ w) as [[r|] w']; reflexivity.
  - unfold Router.intentRouter. rewrite Hcmd.
    pose proof (handleHardPause_state e event (Router.auto_resume_minutes opts) w st1 Hrow1)
      as (st & G & P & R).
    exists st. split; [|split; assumption].
    rewrite <- G. unfold bind, ret.
    destruct (handleHardPause e _ _ w) as [[r|] w']; reflexivity.
Qed.

Lemma resumeBot_table (e : env) (event : Event) (w : world) :
  table (snd (resumeBot e event w))
  = Repo.resetNegativeCount (propertyId event) (conversationId event)
      (Repo.clearPause (propertyId event) (conversationId event) (table w)).
Proof.
  unfold resumeBot, bind, attempt, emit, exec_sql, query, ret. cbn [table log].
  destruct (pause_in_force _ _); reflexivity.
Qed.

Lemma resolveConversation_table (e : env) (event : Event) (w : world) :
  table (snd (resolveConversation e event w))
  = Repo.clearState (propertyId event) (conversationId event) (table w).
Proof. reflexivity. Qed.

(** Every row of the conversation has both counters at zero. *)
Lemma resumeNow_zeroes (pid cid p c : string) (t : Repo.Table) :
  (String.eqb p pid && String.eqb c cid = true \/ Repo.zeroed pid cid t) ->
  Repo.zeroed pid cid (Repo.resumeNow p c t).
Proof.
  intros H r Hin Hk. unfold Repo.resumeNow, Repo.update in Hin.
  apply in_map_iff in Hin. destruct Hin as (r0 & <- & Hin0).
  destruct (Repo.is_key p c r0) eqn:K0.
  - split; reflexivity.
  - unfold Repo.ensureState in Hin0.
    destruct H as [Hsame | Hz].
    + apply andb_true_iff in Hsame. destruct Hsame as [Ep Ec].
      apply String.eqb_eq in Ep. apply String.eqb_eq in Ec. subst p c. congruence.
    + destruct (existsb _ t).
      * exact (Hz r0 Hin0 Hk).
      * apply in_app_or in Hin0. destruct Hin0 as [Hin0 | [<- | []]].
        -- exact (Hz r0 Hin0 Hk).
        -- split; reflexivity.
Qed.

Lemma sweep_zeroes (pid cid : string) (rows : list Repo.Row) (t : Repo.Table) :
  (In (pid, cid) (map (fun r => (Repo.property_id r, Repo.conversation_id r)) rows)
   \/ Repo.zeroed pid cid t) ->
  Repo.zeroed pid cid
    (fold_left (fun t' r => Repo.resumeNow (Repo.property_id r) (Repo.conversation_id r) t')
       rows t).
Proof.
  revert t. induction rows as [|r rows IH]; intros t H; cbn [fold_left map In] in *.
  - destruct H as [[] | H]; exact H.
  - apply IH. destruct H as [[E | Hin] | Hz].
    + right. apply resumeNow_zeroes. left. injection E as -> ->.
      rewrite !String.eqb_refl. reflexivity.
    + left. exact Hin.
    + right. apply resumeNow_zeroes. right. exact Hz.
Qed.

Lemma zeroed_reads_zero (pid cid : string) (t : Repo.Table) :
  Repo.zeroed pid cid t -> Spec.counters_reset (Repo.getState pid cid t).
Proof.
  intros Z s. unfold Repo.getState.
  destruct (find (Repo.is_key pid cid) t) as [r|] eqn:F; [|discriminate].
  intros [= <-]. apply find_some in F. destruct F as [Hin Hk]. exact (Z r Hin Hk).
Qed.

(** C5, as the code has it.  [negative_count] is reset to zero by every
    resume (the staff resume of [@boton] and the auto-resume sweep) and by
    resolve; [clarify_attempts] is reset to zero by the sweep and by
    resolve, while the staff resume leaves it as it was. *)
Theorem counters_after_resume_and_resolve
  (e : env) (event : Event) (w : world) (now : Z) (pid cid : string) (st : Repo.ConvState) :
  Repo.getState (propertyId event) (conversationId event) (table w) = Some st ->
  In (pid, cid) (snd (Repo.autoResumeDueConversations now (table w))) ->
  (exists st',
     Repo.getState (propertyId event) (conversationId event)
       (table (snd (resumeBot e event w))) = Some st'
     /\ Repo.s_negative_count st' = 0
     /\ Repo.s_clarify_attempts st' = Repo.s_clarify_attempts st)
  /\ Spec.counters_reset
       (Repo.getState pid cid (table (snd (autoResumeTick now w))))
  /\ Spec.counters_reset
       (Repo.getState (propertyId event) (conversationId event)
          (table (snd (resolveConversation e event w)))).
Proof.
  intros H Hin. split; [|split].
  - rewrite resumeBot_table.
    unfold Repo.getState, Repo.resetNegativeCount, Repo.clearPause in *.
    rewrite !find_update_key by reflexivity.
    destruct (find _ (table w)) as [r|]; [|discriminate H].
    injection H as <-. eexists. split; [reflexivity|]. split; reflexivity.
  - apply zeroed_reads_zero.
    unfold autoResumeTick, Repo.autoResumeDueConversations in *. cbn [snd table] in *.
    apply sweep_zeroes. left. exact Hin.
  - rewrite resolveConversation_table. intros s.
    unfold Repo.getState, Repo.clearState.
    rewrite find_update_key by reflexivity.
    destruct (find _ (table w)) as [r|]; [|discriminate].
    intros [= <-]. split; reflexivity.
Qed.

End PauseResume.

Section PauseResumeAtInputs.
Import World Config Escalation Scenario.

Lemma botoff_pauses_for_configured_minutes_witness :
  Regex.test true (Regex.lit "@botoff") botoff_15 = true
  /\ Router.parseCommand (text (guest_says botoff_15)) = Some Router.pause
  /\ (exists st, stored_state after_botoff_note = Some st
                 /\ Repo.s_paused st = true
                 /\ Repo.s_resume_at st = Some (DateJS.now monday_morning + 30 * 60000))
  /\ (exists st, stored_state after_botoff_routed = Some st
                 /\ Repo.s_paused st = true
                 /\ Repo.s_resume_at st = Some (DateJS.now monday_morning + 30 * 60000)).
Proof.
  split; [reflexivity|]. split; [reflexivity|].
  exact (botoff_pauses_for_configured_minutes deployment Router.DEFAULTS conv botoff_15
           (guest_says botoff_15) fresh_world
           (Repo.view (Repo.fresh hotel conv)) (Repo.view (Repo.fresh hotel conv))
           eq_refl eq_refl eq_refl eq_refl).
Defined.

(** C2, as the claim states it, fails: after the staff note [@botoff 15]
    under the default configuration the deadline is 30 minutes away, not
    within a minute of 15 minutes. *)
Lemma botoff_15_is_not_15_minutes :
  ~ Spec.paused_for_about 15 60000 (DateJS.now monday_morning) (stored_state after_botoff_note).
Proof.
  intros (s & d & Hs & _ & Hd & Habs).
  vm_compute in Hs. injection Hs as <-. cbn in Hd. injection Hd as <-.
  vm_compute in Habs. apply Habs. reflexivity.
Qed.

Lemma counters_after_resume_and_resolve_witness :
  stored_state busy_world = Some (Repo.view busy_row)
  /\ In (hotel, conv) (snd (Repo.autoResumeDueConversations sweep_time (table busy_world)))
  /\ (exists st', stored_state after_boton = Some st'
                  /\ Repo.s_negative_count st' = 0 /\ Repo.s_clarify_attempts st' = 2)
  /\ Spec.counters_reset (stored_state after_sweep)
  /\ Spec.counters_reset (stored_state after_resolve).
Proof.
  split; [reflexivity|]. split; [left; reflexivity|].
  exact (counters_after_resume_and_resolve deployment staff_event busy_world sweep_time
           hotel conv (Repo.view busy_row) eq_refl (or_introl eq_refl)).
Defined.

(** C5, as the claim states it, fails: the staff resume of a conversation
    with two clarify attempts leaves the two in place. *)
Lemma boton_keeps_clarify_attempts :
  ~ Spec.counters_reset (stored_state after_boton).
Proof.
  intros H. specialize (H _ eq_refl). destruct H as [H _]. discriminate H.
Qed.

(** C3 at a conversation in the middle of a booking: [resolveConversation]
    resets the pause fields, the flags and both counters, and the stored
    service flow is the one that was there before. *)
Theorem resolve_keeps_service_flow :
  stored_state after_resolve = Some (Repo.MkState false None false false 0 0)
  /\ stored_flow after_resolve = Repo.service_flow busy_row
  /\ stored_flow after_resolve <> None.
Proof. split; [reflexivity|]. split; [reflexivity|]. discriminate. Qed.

End PauseResumeAtInputs.

Section SoftEscalationAtInputs.
Import World Config Escalation Scenario.

Lemma soft_escalation_notifies_once_witness :
  (forall st, stored_state fresh_world = Some st -> Repo.s_escalated st = false)
  /\ stored_state Cases.escalated_then_paused
     = Some (Repo.MkState true (Some (DateJS.now monday_morning + 30 * 60000)) true false 0 0)
  /\ escalation_notes conv
       (log (snd (handleSoftEscalation deployment staff_event Cases.complaint
                    (snd (handleSoftEscalation deployment staff_event no_opts fresh_world)))))
     = 1%nat
  /\ stored_state (snd (handleSoftEscalation deployment staff_event Cases.complaint
                          Cases.escalated_then_paused))
     = Some (Repo.MkState true (Some (DateJS.now monday_morning + 30 * 60000)) true true 0 0).
Proof.
  assert (H : forall st, stored_state fresh_world = Some st -> Repo.s_escalated st = false)
    by (intros st [= <-]; reflexivity).
  assert (S : Repo.settled hotel conv (table Cases.escalated_then_paused))
    by (split; reflexivity).
  split; [exact H|]. split; [reflexivity|].
  destruct (soft_escalation_notifies_once deployment staff_event no_opts Cases.complaint
              fresh_world Cases.escalated_then_paused H S)
    as [(_ & _ & _ & _ & N) (_ & _ & _ & st & G & A)].
  split; [exact N|].
  injection G as <-. exact A.
Defined.

(** C8, as the claim states it, fails: with the notification switched
    off, by [notifyOnce: false] or by SOFTWATCH_NOTIFY_ONCE=false, two
    soft escalations of a fresh conversation flip the flag and post no
    note at all. *)
Lemma quiet_escalations_notify_nobody :
  ~ Spec.notified_once conv (log fresh_world)
      (log (snd (handleSoftEscalation deployment staff_event Cases.quiet
                   (snd (handleSoftEscalation deployment staff_event Cases.quiet
                           fresh_world)))))
  /\ ~ Spec.notified_once conv (log fresh_world)
         (log (snd (handleSoftEscalation Cases.quiet_deployment staff_event no_opts
                      (snd (handleSoftEscalation Cases.quiet_deployment staff_event no_opts
                              fresh_world)))))
  /\ stored_state (snd (handleSoftEscalation deployment staff_event Cases.quiet fresh_world))
     = Some (Repo.MkState false None true true 0 0).
Proof.
  split; [|split]; [intros H; vm_compute in H; discriminate H ..| reflexivity].
Qed.

End SoftEscalationAtInputs.

(* ------------------------------------------------------------------ *)
(** ** The dialog engine at the specification's scenarios *)
(* ------------------------------------------------------------------ *)

Section DialogAtInputs.
Import JS Parser World Config Flow Scenario.

(** C6 at its input.  For the sentence of the scenario the parsers find
    the guests, the time and the name, and no date: both date parsers look
    for a weekday in the first word of three or more letters only, which
    is "book".  The flow is stored with [next = "date"] and the bot asks
    for the date instead of showing the confirmation. *)
Theorem booking_sentence_asks_for_date :
  parseGuests booking_sentence = Some 2
  /\ option_map prettyTime (parseTime booking_sentence) = Some "8:00 pm"
  /\ parseName booking_sentence = Some "koen"
  /\ (forall k, parseDate k booking_sentence = None
                /\ normalizeDateToISO k booking_sentence = Ok None)
  /\ stored_flow (after booking_sentence fresh_world)
     = Some (MkFlow None None (Some "BOOK_TABLE") (Some ["guests"; "time"; "date"; "name"])
               [("guests", VNum 2); ("time", VStr "8:00 pm"); ("name", VStr "koen")]
               (Some "date") None)
  /\ last_reply (after booking_sentence fresh_world)
     = Some ("Yes, I can take your booking." ++ Service.newline ++ "Which date?").
Proof.
  split; [vm_compute; reflexivity|]. split; [vm_compute; reflexivity|].
  split; [vm_compute; reflexivity|]. split.
  - intros k. split; vm_compute; reflexivity.
  - split; vm_compute; reflexivity.
Qed.

(** C1 at its inputs.  The bot had asked for the time, got the bare hour
    7 and asked "morning or evening?".  The guest answers with another
    bare hour, 8: the clarifier takes it as a time typed anew, stores
    "8:00" and moves the flow to Confirm, where the summary shows it as
    8:00 AM; the hour 8 was never held for clarification.  The edit step
    of the short flow shape stores a bare hour the same way, and a time
    such as "13 o'clock" reaches the summary with no am/pm at all. *)
Theorem bare_hour_after_clarify_reaches_confirm :
  option_map pending_time_raw (stored_flow asked_morning_or_evening) = Some (Some "7")
  /\ option_map next (stored_flow answered_with_bare_hour) = Some (Some "confirm")
  /\ option_map (fun f => get "time" (collected f)) (stored_flow answered_with_bare_hour)
     = Some (Some (VStr "8:00"))
  /\ option_map pending_time_raw (stored_flow answered_with_bare_hour) <> Some (Some "8")
  /\ option_map (fun r => includes r "Time: 8:00 AM") (last_reply answered_with_bare_hour)
     = Some true
  /\ Service.tryFieldUpdate monday_morning "at 7" (Details None None None None)
     = Ok (Some (Details None None None (Some "7:00")))
  /\ option_map next (stored_flow answered_with_oclock) = Some (Some "confirm")
  /\ option_map (fun r => includes r "Time: 13 o'clock\nDate") (last_reply answered_with_oclock)
     = Some true.
Proof.
  split; [vm_compute; reflexivity|]. split; [vm_compute; reflexivity|].
  split; [vm_compute; reflexivity|]. split; [vm_compute; discriminate|].
  split; [vm_compute; reflexivity|]. split; [vm_compute; reflexivity|].
  split; vm_compute; reflexivity.
Qed.

(** C4, as the claim states it, fails: a late-checkout flow
    ([required = [time, name]]) started by a message that mentions a party
    size stores [guests] in [collected]. *)
Lemma late_checkout_collects_guests :
  exists f, stored_flow late_checkout_for_two = Some f
            /\ required f = Some ["time"; "name"]
            /\ ~ Spec.collected_within_required f.
Proof.
  eexists. split; [vm_compute; reflexivity|]. split; [reflexivity|].
  intros H. specialize (H "guests" (or_introl eq_refl)).
  cbn in H. destruct H as [H | [H | []]]; discriminate H.
Qed.

End DialogAtInputs.

(* ------------------------------------------------------------------ *)
(** ** What the handlers keep of the stored flows *)
(* ------------------------------------------------------------------ *)

Section Keeping.
Import World Reach.
Import Flow Config Service.

Lemma keeps_ret {A} (a : A) (Q : A -> Prop) : Q a -> keeps (ret a) Q.
Proof. intros H w I. split; [exact I|]. cbn. intros a' [= <-]. exact H. Qed.

Lemma keeps_bind {A B} (m : M A) (f : A -> M B) (Q : A -> Prop) (R : B -> Prop) :
  keeps m Q -> (forall a, Q a -> keeps (f a) R) -> keeps (bind m f) R.
Proof.
  intros Hm Hf w I. unfold bind. specialize (Hm w I).
  destruct (m w) as [[a|] w']; cbn [fst snd] in *.
  - destruct Hm as [I' Qa]. exact (Hf a (Qa a eq_refl) w' I').
  - split; [exact (proj1 Hm) | discriminate].
Qed.

Lemma keeps_weaken {A} (m : M A) (Q R : A -> Prop) :
  keeps m Q -> (forall a, Q a -> R a) -> keeps m R.
Proof.
  intros Hm QR w I. destruct (Hm w I) as [I' Qa].
  split; [exact I' | intros a E; exact (QR a (Qa a E))].
Qed.

Lemma safe_of_keeps {A} (m : M A) (Q : A -> Prop) : keeps m Q -> safe m.
Proof. intros H. apply (keeps_weaken m Q); [exact H | intros; exact I]. Qed.

Lemma safe_ret {A} (a : A) : safe (ret a).
Proof. apply keeps_ret. exact I. Qed.

Lemma safe_bind {A B} (m : M A) (f : A -> M B) :
  safe m -> (forall a, safe (f a)) -> safe (bind m f).
Proof. intros Hm Hf. apply (keeps_bind m f (fun _ => True)); [exact Hm | intros a _; apply Hf]. Qed.

Lemma safe_throw {A} : safe (@throw A).
Proof. intros w I. split; [exact I | discriminate]. Qed.

Lemma safe_lift {A} (r : Parser.res A) : safe (lift r).
Proof. destruct r; [apply safe_ret | apply safe_throw]. Qed.

Lemma safe_emit (ef : effect) : safe (emit ef).
Proof. intros w I. split; [exact I | intros; exact Logic.I]. Qed.

Lemma safe_attempt (m : M unit) : safe m -> safe (attempt m).
Proof.
  intros H w I. unfold attempt. destruct (H w I) as [I' _].
  destruct (m w) as [[u|] w']; (split; [exact I' | intros; exact Logic.I]).
Qed.

Lemma keeps_catch {A} (m h : M A) (Q : A -> Prop) :
  keeps m Q -> keeps h Q -> keeps (catch m h) Q.
Proof.
  intros Hm Hh w I. unfold catch. specialize (Hm w I).
  destruct (m w) as [[a|] w']; cbn [fst snd] in *.
  - exact Hm.
  - exact (Hh w' (proj1 Hm)).
Qed.

Lemma safe_finally {A} (m : M A) (f : M unit) : safe m -> safe f -> safe (finally m f).
Proof.
  intros Hm Hf w I. unfold finally. destruct (Hm w I) as [I' _].
  destruct (m w) as [r w']. cbn [snd] in I'. destruct (Hf w' I') as [I'' _].
  destruct (f w') as [r' w'']. split; [exact I'' | intros; exact Logic.I].
Qed.

Lemma keeps_query {A} (f : Repo.Table -> A) (Q : A -> Prop) :
  (forall t, flows_within_slots t -> Q (f t)) -> keeps (query f) Q.
Proof. intros H w I. split; [exact I|]. cbn. intros a [= <-]. exact (H _ I). Qed.

Lemma safe_query {A} (f : Repo.Table -> A) : safe (query f).
Proof. apply keeps_query. intros; exact I. Qed.

Lemma safe_exec_sql (g : Repo.Table -> Repo.Table) :
  (forall t, flows_within_slots t -> flows_within_slots (g t)) -> safe (exec_sql g).
Proof. intros H w I. split; [exact (H _ I) | intros; exact Logic.I]. Qed.

Lemma same_flows_within (t t' : Repo.Table) :
  same_flows t t' -> flows_within_slots t -> flows_within_slots t'.
Proof.
  intros S I r f Hin Hf. destruct (S r f Hin Hf) as (r0 & Hin0 & Hf0).
  exact (I r0 f Hin0 Hf0).
Qed.

Lemma same_flows_refl (t : Repo.Table) : same_flows t t.
Proof. intros r f Hin Hf. exists r. split; assumption. Qed.

Lemma same_flows_trans (t1 t2 t3 : Repo.Table) :
  same_flows t1 t2 -> same_flows t2 t3 -> same_flows t1 t3.
Proof.
  intros S12 S23 r f Hin Hf. destruct (S23 r f Hin Hf) as (r2 & Hin2 & Hf2).
  exact (S12 r2 f Hin2 Hf2).
Qed.

(** An [UPDATE] of other columns stores no new flow. *)
Lemma update_same_flows (c : Repo.Row -> bool) (g : Repo.Row -> Repo.Row) (t : Repo.Table) :
  (forall r, Repo.service_flow (g r) = Repo.service_flow r) ->
  same_flows t (Repo.update c g t).
Proof.
  intros K r f Hin Hf. unfold Repo.update in Hin. apply in_map_iff in Hin.
  destruct Hin as (r0 & <- & Hin0). exists r0. split; [exact Hin0|].
  destruct (c r0); [rewrite <- K|]; exact Hf.
Qed.

Lemma ensureState_same_flows (pid cid : string) (t : Repo.Table) :
  same_flows t (Repo.ensureState pid cid t).
Proof.
  unfold Repo.ensureState. destruct (existsb _ t); [apply same_flows_refl|].
  intros r f Hin Hf. apply in_app_or in Hin. destruct Hin as [Hin | [<- | []]].
  - exists r. split; assumption.
  - discriminate Hf.
Qed.

(** Storing a flow keeps the invariant when the flow itself is within the
    slots. *)
Lemma safe_setState (cid : string) (flow : option Flow.FlowState) :
  (forall f, flow = Some f -> within_slots (Flow.collected f)) ->
  safe (Service.setState cid flow).
Proof.
  intros H. apply safe_exec_sql. intros t I r f Hin Hf.
  unfold Repo.setServiceFlow, Repo.update in Hin. apply in_map_iff in Hin.
  destruct Hin as (r0 & <- & Hin0). destruct (Repo.is_conv cid r0).
  - cbn in Hf. exact (H f Hf).
  - exact (I r0 f Hin0 Hf).
Qed.

Lemma keeps_getServiceFlow (cid : string) :
  keeps (query (Repo.getServiceFlow cid))
        (fun o => forall f, o = Some f -> within_slots (Flow.collected f)).
Proof.
  apply keeps_query. intros t I f. unfold Repo.getServiceFlow.
  destruct (find (Repo.is_conv cid) t) as [r|] eqn:F; [|discriminate].
  intros Hf. apply find_some in F. exact (I r f (proj1 F) Hf).
Qed.

Lemma within_slots_nil : within_slots [].
Proof. intros k []. Qed.

Lemma within_slots_set (k : string) (v : Flow.val) (c : Flow.obj) :
  In k Spec.slot_names -> within_slots c -> within_slots (Flow.set k v c).
Proof.
  intros Hk. induction c as [|[k' v'] c IH]; intros W x Hx.
  - destruct Hx as [<- | []]. exact Hk.
  - cbn [Flow.set] in Hx. destruct (String.eqb k k').
    + destruct Hx as [<- | Hx]; [exact Hk|]. apply W. right. exact Hx.
    + destruct Hx as [<- | Hx]; [apply W; left; reflexivity|].
      apply IH; [|exact Hx]. intros y Hy. apply W. right. exact Hy.
Qed.

Lemma keeps_throw {A} (Q : A -> Prop) : keeps throw Q.
Proof. intros w I. split; [exact I | discriminate]. Qed.

Lemma step_cases {A} (P : A -> Prop) (s : option string) (X Y Z : A) :
  P X -> P Y -> P Z ->
  P (match s with Some "confirm" => X | Some "ask_change" => Y | _ => Z end).
Proof.
  intros HX HY HZ.
  repeat match goal with |- context [match ?x with _ => _ end] => destruct x end; assumption.
Qed.

Lemma confirm_cases {A} (P : A -> Prop) (s : option string) (X Z : A) :
  P X -> P Z -> P (match s with Some "confirm" => X | _ => Z end).
Proof.
  intros HX HZ.
  repeat match goal with |- context [match ?x with _ => _ end] => destruct x end; assumption.
Qed.

Lemma safe_setState_none (cid : string) : safe (setState cid None).
Proof. apply safe_setState. discriminate. Qed.

Lemma safe_setState_some (cid : string) (f : FlowState) :
  within_slots (collected f) -> safe (setState cid (Some f)).
Proof. intros H. apply safe_setState. intros f' [= <-]. exact H. Qed.

Lemma slot_time : In "time" Spec.slot_names.
Proof. cbn. auto. Qed.

Lemma slot_date : In "date" Spec.slot_names.
Proof. cbn. auto. Qed.

Create HintDb keep.
#[local] Hint Resolve within_slots_nil within_slots_set slot_time slot_date : keep.
#[local] Hint Resolve safe_ret safe_throw safe_lift safe_emit safe_query
  safe_setState_none : keep.
#[local] Hint Extern 1 (keeps (setState _ (Some _)) _) =>
  apply safe_setState_some; cbn [collected with_slots without_raw] : keep.
#[local] Hint Extern 1 (keeps (ret _) _) => apply keeps_ret; cbn : keep.

Ltac keeps_step :=
  first
  [ solve [auto 4 with keep]
  | match goal with
    | |- keeps (attempt _) _ => apply safe_attempt
    | |- keeps (finally _ _) _ => apply safe_finally
    | |- keeps (bind _ _) _ => apply (keeps_bind _ _ (fun _ => True)); [| intros ? _]
    | |- keeps (if ?b then _ else _) _ => destruct b
    | |- keeps (match ?x with _ => _ end) _ => destruct x
    end ].
Ltac keeps_auto := repeat keeps_step.

Lemma safe_maybeSendMessengerQR e cid text qrs : safe (maybeSendMessengerQR e cid text qrs).
Proof. unfold maybeSendMessengerQR. keeps_auto. Qed.
#[local] Hint Resolve safe_maybeSendMessengerQR : keep.

Lemma safe_say e cid text qrs key step : safe (say e cid text qrs key step).
Proof. unfold say. keeps_auto. Qed.
#[local] Hint Resolve safe_say : keep.

Lemma safe_notifyStaff cid d : safe (notifyStaff cid d).
Proof. unfold notifyStaff. keeps_auto. Qed.
#[local] Hint Resolve safe_notifyStaff : keep.

Lemma safe_pending_step e cid message p st m :
  pending_step e cid message p st = Some m -> safe m.
Proof.
  unfold pending_step.
  apply (step_cases (fun o => o = Some m -> safe m)); try discriminate; intros [= <-];
    keeps_auto.
Qed.

Lemma safe_confirm_step e cid message key flow required collected :
  safe (confirm_step e cid message key flow required collected).
Proof. unfold confirm_step. cbv zeta. keeps_auto. Qed.
#[local] Hint Resolve safe_confirm_step : keep.

Lemma safe_ask_confirm e cid key flow required collected step :
  within_slots collected -> safe (ask_confirm e cid key flow required collected step).
Proof. intros W. unfold ask_confirm. keeps_auto. Qed.
#[local] Hint Resolve safe_ask_confirm : keep.

Lemma safe_clarify_step e cid message key flow required collected hasPending m :
  within_slots collected ->
  clarify_step e cid message key flow required collected hasPending = Some m -> safe m.
Proof.
  intros W. unfold clarify_step. cbv zeta.
  destruct (nonempty _) as [combined|]; [|discriminate]. intros [= <-].
  keeps_auto.
Qed.

Lemma parseForField_slot k field text v :
  parseForField k field text = Some v -> In field Spec.slot_names.
Proof.
  unfold parseForField, Spec.slot_names.
  destruct (String.eqb_spec field "guests"); [subst; cbn; auto|].
  destruct (String.eqb_spec field "time"); [subst; cbn; auto|].
  destruct (String.eqb_spec field "date"); [subst; cbn; auto|].
  destruct (String.eqb_spec field "name"); [subst; cbn; auto|].
  discriminate.
Qed.

Lemma keeps_fill_field e cid message key flow required collected currentField :
  within_slots collected ->
  keeps (fill_field e cid message key flow required collected currentField) goes_on.
Proof.
  intros W. unfold fill_field. cbv zeta.
  destruct (parseForField (clk e) currentField message) as [v0|] eqn:P;
    [pose proof (parseForField_slot _ _ _ _ P) as S; destruct (val_truthy v0)|];
    destruct (String.eqb currentField "time"); keeps_auto.
Qed.

Lemma safe_ask_next e cid key flow required collected :
  within_slots collected -> safe (ask_next e cid key flow required collected).
Proof. intros W. unfold ask_next. keeps_auto. Qed.
#[local] Hint Resolve safe_ask_next : keep.

Lemma safe_slot_step e cid message key flow :
  within_slots (collected flow) -> safe (slot_step e cid message key flow).
Proof.
  intros W. unfold slot_step. cbv zeta.
  apply (confirm_cases (fun m => safe m)); [keeps_auto|].
  assert (G : forall f : option string,
             safe (filled <- match f with
                             | Some f => fill_field e cid message key flow (required_of flow key)
                                                    (collected flow) f
                             | None => ret (inr (collected flow))
                             end ;;
                   match filled with
                   | inl r => ret r
                   | inr collected' => ask_next e cid key flow (required_of flow key) collected'
                   end)).
  { intros f. apply (keeps_bind _ _ goes_on).
    - destruct f; [apply keeps_fill_field; exact W | apply keeps_ret; exact W].
    - intros [r|c] H; [apply safe_ret | apply safe_ask_next; exact H]. }
  destruct (nonempty (pending_time_raw flow)) as [hasPending|]; [|apply G].
  destruct (clarify_step _ _ _ _ _ _ _ _) as [m|] eqn:C; [|apply G].
  exact (safe_clarify_step _ _ _ _ _ _ _ _ _ W C).
Qed.


Lemma within_collect_prefill pre : within_slots (collect_prefill pre).
Proof.
  unfold collect_prefill.
  destruct (nonzero _), (nonempty (p_time pre)), (nonempty (p_date pre)), (nonempty (p_name pre));
    intros k; cbn; intuition auto.
Qed.
#[local] Hint Resolve within_collect_prefill : keep.

Lemma safe_withTyping {A} cid (work : M A) : safe work -> safe (withTyping cid work).
Proof. intros H. unfold withTyping. keeps_auto. Qed.

Lemma safe_start_flow e cid message key required tag :
  safe (start_flow e cid message key required tag).
Proof.
  unfold start_flow. cbv zeta.
  apply (keeps_bind _ _ (fun _ => True)); [apply safe_withTyping, safe_lift | intros pre _].
  keeps_auto.
Qed.
#[local] Hint Resolve safe_start_flow : keep.

Lemma safe_announce cid key : safe (announce cid key).
Proof. unfold announce. keeps_auto. Qed.
#[local] Hint Resolve safe_announce : keep.

Lemma safe_db_lookup e cid message tenant : safe (db_lookup e cid message tenant).
Proof. unfold db_lookup. apply keeps_catch; keeps_auto. Qed.
#[local] Hint Resolve safe_db_lookup : keep.

Lemma safe_regex_fallback e cid message : safe (regex_fallback e cid message).
Proof. unfold regex_fallback. keeps_auto. Qed.
#[local] Hint Resolve safe_regex_fallback : keep.

Lemma safe_handleService e req : safe (handleService e req).
Proof.
  unfold handleService. cbv zeta.
  destruct (negb _); [apply safe_ret|].
  eapply keeps_bind; [apply keeps_getServiceFlow|]. cbv beta.
  intros existingFlow W.
  assert (L : safe (found <- db_lookup e (conversationId req)
                                (JS.trim match nonempty (norm req) with
                                         | Some n => n | None => text req end)
                                match nonempty (tenantId req) with
                                | Some t => t | None => "default" end ;;
                    match found with
                    | Some r => ret r
                    | None => regex_fallback e (conversationId req)
                                (JS.trim match nonempty (norm req) with
                                         | Some n => n | None => text req end)
                    end)) by keeps_auto.
  destruct existingFlow as [flow|]; [|exact L].
  specialize (W flow eq_refl).
  assert (F : safe match nonempty (service_key flow) with
                   | Some key => slot_step e (conversationId req)
                                   (JS.trim match nonempty (norm req) with
                                            | Some n => n | None => text req end) key flow
                   | None => found <- db_lookup e (conversationId req)
                                (JS.trim match nonempty (norm req) with
                                         | Some n => n | None => text req end)
                                match nonempty (tenantId req) with
                                | Some t => t | None => "default" end ;;
                             match found with
                             | Some r => ret r
                             | None => regex_fallback e (conversationId req)
                                         (JS.trim match nonempty (norm req) with
                                                  | Some n => n | None => text req end)
                             end
                   end).
  { destruct (nonempty (service_key flow)); [apply safe_slot_step; exact W | exact L]. }
  destruct (pending flow) as [p|]; [|exact F].
  destruct (pending_step _ _ _ _ _) as [m|] eqn:P; [|exact F].
  exact (safe_pending_step _ _ _ _ _ _ P).
Qed.


Lemma safe_exec_same (g : Repo.Table -> Repo.Table) :
  (forall t, same_flows t (g t)) -> safe (exec_sql g).
Proof.
  intros H. apply safe_exec_sql. intros t I. exact (same_flows_within _ _ (H t) I).
Qed.

Lemma update_ensure_same_flows c g pid cid t :
  (forall r, Repo.service_flow (g r) = Repo.service_flow r) ->
  same_flows t (Repo.update c g (Repo.ensureState pid cid t)).
Proof.
  intros K. eapply same_flows_trans;
    [apply ensureState_same_flows | apply update_same_flows; exact K].
Qed.

Lemma resumeNow_same_flows pid cid t : same_flows t (Repo.resumeNow pid cid t).
Proof. apply update_ensure_same_flows. reflexivity. Qed.

Lemma sweep_same_flows rows t :
  same_flows t (fold_left (fun t' r => Repo.resumeNow (Repo.property_id r)
                                         (Repo.conversation_id r) t') rows t).
Proof.
  revert t. induction rows as [|r rows IH]; intros t; [apply same_flows_refl|].
  cbn [fold_left]. eapply same_flows_trans; [apply resumeNow_same_flows | apply IH].
Qed.

#[local] Hint Extern 1 (keeps (exec_sql _) _) =>
  apply safe_exec_same; intros ?;
  first [ apply update_same_flows; reflexivity
        | apply update_ensure_same_flows; reflexivity ] : keep.

Import Escalation.

Lemma safe_mark pid cid :
  safe (fun w => let '(t, b) := Repo.markEscalatedOnce pid cid (table w) in
                 (Ret b, MkWorld t (log w))).
Proof.
  intros w I. unfold Repo.markEscalatedOnce. cbn. split; [|intros; exact Logic.I].
  refine (same_flows_within _ _ _ I). apply update_ensure_same_flows. reflexivity.
Qed.

Lemma safe_assign e cid assignee :
  safe (fun w => if has_assignee e cid w then (Ret tt, w)
                 else emit (AssignToUser cid assignee (DEFAULT_TEAM e)) w).
Proof.
  intros w I. destruct (has_assignee e cid w); (split; [exact I | intros; exact Logic.I]).
Qed.
#[local] Hint Resolve safe_mark safe_assign : keep.

Lemma safe_handleSoftEscalation e event opts : safe (handleSoftEscalation e event opts).
Proof. unfold handleSoftEscalation. cbv zeta. keeps_auto. Qed.

Lemma safe_handleHardPause e event minutes : safe (handleHardPause e event minutes).
Proof. unfold handleHardPause. cbv zeta. keeps_auto. Qed.

Lemma safe_resumeBot e event : safe (resumeBot e event).
Proof. unfold resumeBot. cbv zeta. keeps_auto. Qed.

Lemma safe_resolveConversation e event : safe (resolveConversation e event).
Proof. unfold resolveConversation. cbv zeta. keeps_auto. Qed.

Lemma safe_autoResumeTick now : safe (autoResumeTick now).
Proof.
  intros w I. unfold autoResumeTick, Repo.autoResumeDueConversations. cbn.
  split; [|intros; exact Logic.I].
  exact (same_flows_within _ _ (sweep_same_flows _ _) I).
Qed.
#[local] Hint Resolve safe_handleSoftEscalation safe_handleHardPause safe_resumeBot
  safe_resolveConversation safe_handleService : keep.

Import Decision Router.

Lemma safe_handleSmalltalk e cid text l : safe (handleSmalltalk e cid text l).
Proof. unfold handleSmalltalk. cbv zeta. keeps_auto. Qed.
#[local] Hint Resolve safe_handleSmalltalk : keep.

Lemma safe_replyFromBot cid content : safe (replyFromBot cid content).
Proof. apply safe_emit. Qed.
#[local] Hint Resolve safe_replyFromBot : keep.

Lemma safe_dispatch e opts event state result : safe (dispatch e opts event state result).
Proof. unfold dispatch. cbv zeta. keeps_auto. Qed.

Lemma safe_welcome_shortcut e event : safe (welcome_shortcut e event).
Proof.
  unfold welcome_shortcut. cbv zeta. destruct (existsb _ _); [|apply safe_ret].
  apply keeps_catch; keeps_auto.
Qed.

Lemma safe_active_flow e event : safe (active_flow e event).
Proof. unfold active_flow. keeps_auto. Qed.
#[local] Hint Resolve safe_dispatch safe_welcome_shortcut safe_active_flow : keep.

Lemma safe_pauseGate pid cid : safe (pauseGate pid cid).
Proof. unfold pauseGate. keeps_auto. Qed.

Lemma safe_route e opts event : safe (route e opts event).
Proof. unfold route. keeps_auto. Qed.
#[local] Hint Resolve safe_pauseGate safe_route : keep.

Lemma safe_intentRouter e opts event : safe (intentRouter e opts event).
Proof. unfold intentRouter. keeps_auto. Qed.
#[local] Hint Resolve safe_intentRouter : keep.

Import Webhook.

Lemma safe_safetyAssign e cid : safe (safetyAssign e cid).
Proof. unfold safetyAssign. keeps_auto. Qed.

Lemma safe_staff_command e cid text : safe (staff_command e cid text).
Proof. unfold staff_command. cbv zeta. keeps_auto. Qed.
#[local] Hint Resolve safe_safetyAssign safe_staff_command : keep.

Lemma safe_chatwoot e m : safe (chatwoot e m).
Proof.
  unfold chatwoot. cbv zeta.
  destruct (negb _); [apply safe_ret|].
  destruct (_ && _); [apply safe_ret|].
  apply keeps_catch; keeps_auto.
Qed.

Lemma reachable_within w : reachable w -> flows_within_slots (table w).
Proof.
  induction 1 as [w H | e opts event w _ IH | e m w _ IH | now w _ IH].
  - intros r f Hin Hf. rewrite (H r Hin) in Hf. discriminate.
  - exact (proj1 (safe_intentRouter e opts event w IH)).
  - exact (proj1 (safe_chatwoot e m w IH)).
  - exact (proj1 (safe_autoResumeTick now w IH)).
Qed.

(** C4, as the code has it.  In every world the system can reach, from a
    table without flows through any routed messages, webhook calls and
    auto-resume ticks under any configuration, the slots a stored service
    flow has collected are among the four slots of the engine: guests,
    time, date and name, whether the flow requires them or not. *)
Theorem stored_flows_collect_only_slots (w : world) (r : Repo.Row) (f : FlowState) :
  reachable w -> In r (table w) -> Repo.service_flow r = Some f ->
  Spec.collected_within_slots f.
Proof.
  intros R Hin Hf. exact (reachable_within w R r f Hin Hf).
Qed.

Lemma stored_flows_collect_only_slots_witness :
  reachable Scenario.late_checkout_for_two
  /\ exists f, Scenario.stored_flow Scenario.late_checkout_for_two = Some f
               /\ Spec.collected_within_slots f.
Proof.
  assert (R : reachable Scenario.late_checkout_for_two).
  { apply reach_routed, reach_start. intros r [<- | []]. reflexivity. }
  split; [exact R|].
  eexists. split; [vm_compute; reflexivity|].
  eapply (stored_flows_collect_only_slots Scenario.late_checkout_for_two _ _ R).
  - vm_compute. left. reflexivity.
  - reflexivity.
Defined.

End Keeping.

(* ------------------------------------------------------------------ *)
(** ** State rows: creation, service flow, the resume sweep *)
(* ------------------------------------------------------------------ *)

Section StateRows.
Import Repo.

Lemma is_key_other (pid cid pid' cid' : string) (r : Row) :
  (pid', cid') <> (pid, cid) -> is_key pid cid r = true -> is_key pid' cid' r = false.
Proof.
  unfold is_key. intros N K. apply andb_true_iff in K. destruct K as [Kp Kc].
  apply String.eqb_eq in Kp. apply String.eqb_eq in Kc.
  destruct (String.eqb_spec (property_id r) pid'); [|reflexivity].
  destruct (String.eqb_spec (conversation_id r) cid'); [|reflexivity].
  exfalso. apply N. congruence.
Qed.

Lemma find_app_miss {A} (P : A -> bool) (l : list A) (x : A) :
  P x = false -> find P (l ++ [x]) = find P l.
Proof.
  intros Px. induction l as [|y l IH]; cbn; [rewrite Px; reflexivity|].
  destruct (P y); [reflexivity | exact IH].
Qed.

Lemma getServiceFlow_ensureState (c pid cid : string) (t : Table) :
  getServiceFlow c (ensureState pid cid t) = getServiceFlow c t.
Proof.
  unfold getServiceFlow, ensureState.
  destruct (existsb (is_key pid cid) t); [reflexivity|].
  induction t as [|r t IH]; cbn.
  - destruct (String.eqb cid c); reflexivity.
  - destruct (is_conv c r); [reflexivity | exact IH].
Qed.

(** X1. [ensureState] leaves an existing row as it is and otherwise
    inserts the default row (not paused, no deadline, not escalated, no
    watch mode, both counters 0): afterwards the conversation has a state,
    the one it had or the default one; a second call changes nothing; the
    state of every other (property, conversation) pair and every stored
    service flow are as before. *)
Theorem ensureState_keeps_or_creates (pid cid : string) (t : Table) :
  getState pid cid (ensureState pid cid t)
  = Some (match getState pid cid t with
          | Some st => st
          | None => MkState false None false false 0 0
          end)
  /\ ensureState pid cid (ensureState pid cid t) = ensureState pid cid t
  /\ (forall pid' cid', (pid', cid') <> (pid, cid) ->
        getState pid' cid' (ensureState pid cid t) = getState pid' cid' t)
  /\ forall c, getServiceFlow c (ensureState pid cid t) = getServiceFlow c t.
Proof.
  split; [|split; [|split]].
  - unfold getState. rewrite find_ensureState.
    destruct (find (is_key pid cid) t); reflexivity.
  - apply ensureState_present, existsb_ensureState.
  - intros pid' cid' N. unfold getState, ensureState.
    destruct (existsb (is_key pid cid) t); [reflexivity|].
    rewrite find_app_miss; [reflexivity|].
    apply (is_key_other pid cid); [exact N | apply is_key_fresh].
  - intros c. apply getServiceFlow_ensureState.
Qed.


Lemma find_conv_update (cid : string) (g : Row -> Row) (t : Table) :
  (forall r, conversation_id (g r) = conversation_id r) ->
  find (is_conv cid) (update (is_conv cid) g t) = option_map g (find (is_conv cid) t).
Proof.
  intros K. unfold update. induction t as [|r t IH]; [reflexivity|]. cbn [map find].
  destruct (is_conv cid r) eqn:C.
  - unfold is_conv in *. rewrite K, C. reflexivity.
  - rewrite C. exact IH.
Qed.

Lemma find_update_elsewhere (P c : Row -> bool) (g : Row -> Row) (t : Table) :
  (forall r, c r = true -> P r = false) ->
  (forall r, c r = true -> P (g r) = false) ->
  find P (update c g t) = find P t.
Proof.
  intros N N'. unfold update. induction t as [|r t IH]; [reflexivity|]. cbn [map find].
  destruct (c r) eqn:C.
  - rewrite (N r C), (N' r C). exact IH.
  - destruct (P r); [reflexivity | exact IH].
Qed.

Lemma update_nowhere (c : Row -> bool) (g : Row -> Row) (t : Table) :
  existsb c t = false -> update c g t = t.
Proof.
  unfold update. induction t as [|r t IH]; [reflexivity|]. cbn [existsb map].
  intros H. apply orb_false_iff in H. destruct H as [C E]. rewrite C, (IH E). reflexivity.
Qed.

Lemma find_update_same_key (pid cid : string) (c : Row -> bool) (g : Row -> Row) (t : Table) :
  (forall r, is_key pid cid (g r) = is_key pid cid r) ->
  (forall r, view (g r) = view r) ->
  option_map view (find (is_key pid cid) (update c g t))
  = option_map view (find (is_key pid cid) t).
Proof.
  intros K V. rewrite find_update by exact K.
  destruct (find (is_key pid cid) t) as [r|]; [|reflexivity].
  cbn. destruct (c r); [rewrite V|]; reflexivity.
Qed.

(** X2. [setServiceFlow] followed by [getServiceFlow] gives back the flow
    that was stored when the conversation has a state row, and null when
    it has none: the update creates no row, so the table is then
    unchanged. The flows of other conversations and the state of every
    conversation are as before. *)
Theorem service_flow_round_trip (cid : string) (flow : option Flow.FlowState) (t : Table) :
  getServiceFlow cid (setServiceFlow cid flow t)
  = (if existsb (is_conv cid) t then flow else None)
  /\ (existsb (is_conv cid) t = false -> setServiceFlow cid flow t = t)
  /\ (forall cid', cid' <> cid ->
        getServiceFlow cid' (setServiceFlow cid flow t) = getServiceFlow cid' t)
  /\ (forall pid c, getState pid c (setServiceFlow cid flow t) = getState pid c t).
Proof.
  split; [|split; [|split]].
  - unfold getServiceFlow, setServiceFlow. rewrite find_conv_update by reflexivity.
    destruct (find (is_conv cid) t) as [r|] eqn:F; cbn.
    + assert (E : existsb (is_conv cid) t = true).
      { destruct (existsb (is_conv cid) t) eqn:E; [reflexivity|].
        apply find_none_existsb in E. congruence. }
      rewrite E. reflexivity.
    + apply find_none_existsb in F. rewrite F. reflexivity.
  - intros E. apply update_nowhere. exact E.
  - intros cid' N. unfold getServiceFlow, setServiceFlow.
    rewrite find_update_elsewhere; [reflexivity| |].
    + intros r C. unfold is_conv in *. apply String.eqb_eq in C.
      apply String.eqb_neq. congruence.
    + intros r C. unfold is_conv in *. cbn. apply String.eqb_eq in C.
      apply String.eqb_neq. congruence.
  - intros pid c. unfold getState, setServiceFlow.
    apply find_update_same_key; reflexivity.
Qed.


Lemma find_resumeNow_other (pid cid p c : string) (t : Table) :
  (p, c) <> (pid, cid) ->
  find (is_key pid cid) (resumeNow p c t) = find (is_key pid cid) t.
Proof.
  intros N. unfold resumeNow.
  rewrite find_update_elsewhere.
  - unfold ensureState. destruct (existsb (is_key p c) t); [reflexivity|].
    apply find_app_miss. apply (is_key_other p c); [congruence | apply is_key_fresh].
  - intros r K. apply (is_key_other p c); [congruence | exact K].
  - intros r K. apply (is_key_other p c); [congruence | exact K].
Qed.

Lemma find_sweep_other (pid cid : string) (rows : list Row) (t : Table) :
  ~ In (pid, cid) (map (fun r => (property_id r, conversation_id r)) rows) ->
  find (is_key pid cid)
    (fold_left (fun t' r => resumeNow (property_id r) (conversation_id r) t') rows t)
  = find (is_key pid cid) t.
Proof.
  revert t. induction rows as [|r rows IH]; intros t N; [reflexivity|].
  cbn [fold_left map In] in *. rewrite IH by tauto.
  apply find_resumeNow_other. intros E. apply N. left. exact E.
Qed.

Lemma resumeNow_rests (pid cid p c : string) (t : Table) :
  ((p, c) = (pid, cid) \/ forall r, In r t -> is_key pid cid r = true -> resumed r = r) ->
  forall r, In r (resumeNow p c t) -> is_key pid cid r = true -> resumed r = r.
Proof.
  intros H r Hin Hk. unfold resumeNow, update in Hin.
  apply in_map_iff in Hin. destruct Hin as (r0 & <- & Hin0).
  destruct (is_key p c r0) eqn:K0; [reflexivity|].
  destruct H as [E | Hz]; [injection E as -> ->; congruence|].
  unfold ensureState in Hin0. destruct (existsb _ t).
  - exact (Hz r0 Hin0 Hk).
  - apply in_app_or in Hin0. destruct Hin0 as [Hin0 | [<- | []]];
      [exact (Hz r0 Hin0 Hk) | reflexivity].
Qed.

Lemma sweep_rests (pid cid : string) (rows : list Row) (t : Table) :
  (In (pid, cid) (map (fun r => (property_id r, conversation_id r)) rows)
   \/ forall r, In r t -> is_key pid cid r = true -> resumed r = r) ->
  forall r,
    In r (fold_left (fun t' r => resumeNow (property_id r) (conversation_id r) t') rows t) ->
    is_key pid cid r = true -> resumed r = r.
Proof.
  revert t. induction rows as [|r0 rows IH]; intros t H; cbn [fold_left map In] in *.
  - destruct H as [[] | H]; exact H.
  - apply IH. destruct H as [[E | Hin] | Hz].
    + right. apply resumeNow_rests. left. exact E.
    + left. exact Hin.
    + right. apply resumeNow_rests. right. exact Hz.
Qed.

Lemma existsb_resumeNow (pid cid p c : string) (t : Table) :
  existsb (is_key pid cid) t = true -> existsb (is_key pid cid) (resumeNow p c t) = true.
Proof.
  intros E. unfold resumeNow. rewrite existsb_update by reflexivity.
  unfold ensureState. destruct (existsb (is_key p c) t); [exact E|].
  rewrite existsb_app, E. reflexivity.
Qed.

Lemma existsb_sweep (pid cid : string) (rows : list Row) (t : Table) :
  existsb (is_key pid cid) t = true ->
  existsb (is_key pid cid)
    (fold_left (fun t' r => resumeNow (property_id r) (conversation_id r) t') rows t) = true.
Proof.
  revert t. induction rows as [|r rows IH]; intros t E; [exact E|].
  cbn [fold_left]. apply IH, existsb_resumeNow, E.
Qed.

Lemma getServiceFlow_update (cid : string) (c : Row -> bool) (g : Row -> Row) (t : Table) :
  (forall r, conversation_id (g r) = conversation_id r) ->
  (forall r, service_flow (g r) = service_flow r) ->
  getServiceFlow cid (update c g t) = getServiceFlow cid t.
Proof.
  intros K F. unfold getServiceFlow, update.
  induction t as [|r t IH]; [reflexivity|]. cbn [map find].
  assert (E : is_conv cid (if c r then g r else r) = is_conv cid r)
    by (unfold is_conv; destruct (c r); [rewrite K|]; reflexivity).
  rewrite E. destruct (is_conv cid r); [|exact IH].
  destruct (c r); [apply F | reflexivity].
Qed.

Lemma getServiceFlow_resumeNow (c p q : string) (t : Table) :
  getServiceFlow c (resumeNow p q t) = getServiceFlow c t.
Proof.
  unfold resumeNow.
  transitivity (getServiceFlow c (ensureState p q t));
    [|apply getServiceFlow_ensureState].
  unfold getServiceFlow, update. generalize (ensureState p q t) as t1.
  induction t1 as [|r t1 IH]; [reflexivity|]. cbn [map find].
  assert (E : is_conv c (if is_key p q r then resumed r else r) = is_conv c r)
    by (destruct (is_key p q r); reflexivity).
  rewrite E. destruct (is_conv c r); [|exact IH].
  destruct (is_key p q r); reflexivity.
Qed.

Lemma getServiceFlow_sweep (c : string) (rows : list Row) (t : Table) :
  getServiceFlow c
    (fold_left (fun t' r => resumeNow (property_id r) (conversation_id r) t') rows t)
  = getServiceFlow c t.
Proof.
  revert t. induction rows as [|r rows IH]; intros t; [reflexivity|].
  cbn [fold_left]. rewrite IH. apply getServiceFlow_resumeNow.
Qed.

Lemma due_rows_due (now : Z) (t : Table) (r : Row) :
  In r (due_rows now t) -> In r t /\ due now r = true.
Proof.
  unfold due_rows. intros H. apply filter_In.
  rewrite <- (firstn_skipn 200 (filter (due now) t)). apply in_or_app. left. exact H.
Qed.

Lemma resumed_idem (r : Row) : resumed (resumed r) = resumed r.
Proof. reflexivity. Qed.

Lemma find_resumeNow_same (pid cid : string) (t : Table) :
  existsb (is_key pid cid) t = true ->
  find (is_key pid cid) (resumeNow pid cid t) = option_map resumed (find (is_key pid cid) t).
Proof.
  intros E. unfold resumeNow. rewrite (ensureState_present _ _ _ E).
  rewrite find_update by reflexivity.
  destruct (find (is_key pid cid) t) as [r|] eqn:F; [|reflexivity].
  cbn. apply find_some in F. destruct F as [_ ->]. reflexivity.
Qed.

Lemma find_sweep_same (pid cid : string) (rows : list Row) (t : Table) :
  In (pid, cid) (map (fun r => (property_id r, conversation_id r)) rows) ->
  existsb (is_key pid cid) t = true ->
  find (is_key pid cid)
    (fold_left (fun t' r => resumeNow (property_id r) (conversation_id r) t') rows t)
  = option_map resumed (find (is_key pid cid) t).
Proof.
  assert (dec : forall x y : string * string, {x = y} + {x <> y})
    by (decide equality; apply string_dec).
  revert t. induction rows as [|r rows IH]; intros t Hin E; [destruct Hin|].
  cbn [fold_left map In] in *.
  destruct (dec (property_id r, conversation_id r) (pid, cid)) as [K | K].
  - injection K as Kp Kc. rewrite Kp, Kc.
    destruct (in_dec dec (pid, cid)
                (map (fun r => (property_id r, conversation_id r)) rows)) as [I | I].
    + rewrite IH by (try apply existsb_resumeNow; assumption).
      rewrite find_resumeNow_same by exact E.
      destruct (find _ t); reflexivity.
    + rewrite find_sweep_other by exact I. apply find_resumeNow_same, E.
  - destruct Hin as [Hin | Hin]; [contradiction|].
    rewrite IH by (try apply existsb_resumeNow; assumption).
    rewrite find_resumeNow_other by exact K. reflexivity.
Qed.

(** X3. One sweep of [autoResumeDueConversations] reports at most 200
    conversations. Each reported conversation had a row that was due
    (paused, with resume_at or paused_until not after now); afterwards
    its state is not paused, has no deadline and no watch mode, both
    counters are 0, and its escalated flag is the old one. No stored
    service flow changes. *)
Theorem sweep_resumes_what_is_due (now : Z) (t : Table) :
  let swept := autoResumeDueConversations now t in
  (List.length (snd swept) <= 200)%nat
  /\ (forall c, getServiceFlow c (fst swept) = getServiceFlow c t)
  /\ forall pid cid, In (pid, cid) (snd swept) ->
       (exists r, In r t /\ is_key pid cid r = true /\ due now r = true)
       /\ getState pid cid (fst swept)
          = Some (MkState false None
                    (match getState pid cid t with Some st => s_escalated st | None => false end)
                    false 0 0).
Proof.
  unfold autoResumeDueConversations. cbn [fst snd]. split; [|split].
  - rewrite length_map. unfold due_rows. apply firstn_le_length.
  - intros c. apply getServiceFlow_sweep.
  - intros pid cid Hin.
    assert (D : exists r, In r t /\ is_key pid cid r = true /\ due now r = true).
    { apply in_map_iff in Hin. destruct Hin as (r & E & Hr).
      apply due_rows_due in Hr. exists r. injection E as <- <-.
      split; [tauto|]. split; [|tauto].
      unfold is_key. rewrite !String.eqb_refl. reflexivity. }
    split; [exact D|].
    destruct D as (r & Hr & K & _).
    assert (E : existsb (is_key pid cid) t = true)
      by (apply existsb_exists; exists r; split; assumption).
    unfold getState. rewrite find_sweep_same by assumption.
    destruct (find (is_key pid cid) t) as [r0|] eqn:F; [reflexivity|].
    apply find_none_existsb in F. congruence.
Qed.

(** X4. A conversation that the sweep does not report keeps its state:
    paused conversations whose deadline lies ahead stay paused. *)
Theorem sweep_leaves_the_rest (now : Z) (t : Table) (pid cid : string) :
  ~ In (pid, cid) (snd (autoResumeDueConversations now t)) ->
  getState pid cid (fst (autoResumeDueConversations now t)) = getState pid cid t.
Proof.
  unfold autoResumeDueConversations, getState. cbn [fst snd]. intros N.
  rewrite find_sweep_other by exact N. reflexivity.
Qed.

Lemma sweep_leaves_the_rest_witness :
  Repo.getState Scenario.hotel "43"
    (fst (Repo.autoResumeDueConversations Scenario.sweep_time (World.table Cases.two_rooms)))
  = Some (Repo.MkState true (Some (DateJS.now Scenario.monday_morning + 3600000))
            false false 0 0).
Proof.
  rewrite (sweep_leaves_the_rest Scenario.sweep_time (World.table Cases.two_rooms)
             Scenario.hotel "43").
  - reflexivity.
  - intros H. vm_compute in H. destruct H as [H | []]. discriminate H.
Defined.

End StateRows.

(* ------------------------------------------------------------------ *)
(** ** Hard pause and resume, one after the other *)
(* ------------------------------------------------------------------ *)

Section PauseMachine.
Import World Config Escalation.

(** What one hard pause does to a world, in closed form. *)
Lemma handleHardPause_run (e : env) (event : Event) (minutes : Z) (w : world) :
  let pid := propertyId event in
  let cid := conversationId event in
  let now := DateJS.now (clk e) in
  handleHardPause e event minutes w
  = (Ret (MkEscalated true "hard_pause"),
     MkWorld (Repo.manualPauseForMinutes now pid cid minutes (table w))
       (log w ++ UpdateStatus cid "open"
          :: (if pause_in_force now (Repo.getState pid cid (table w)) then []
              else [PrivateMessage cid "⏸️ Bot paused"]))).
Proof.
  cbv zeta. unfold handleHardPause, bind, attempt, emit, exec_sql, query, ret.
  cbn [table log].
  destruct (pause_in_force _ _); cbn [negb table log]; rewrite <- ?app_assoc; reflexivity.
Qed.

Lemma resumeBot_run (e : env) (event : Event) (w : world) :
  let pid := propertyId event in
  let cid := conversationId event in
  let now := DateJS.now (clk e) in
  resumeBot e event w
  = (Ret (MkEscalated false "resume"),
     MkWorld (Repo.resetNegativeCount pid cid (Repo.clearPause pid cid (table w)))
       (log w ++ UpdateStatus cid "open"
          :: (if pause_in_force now (Repo.getState pid cid (table w))
              then [PrivateMessage cid "▶️ Bot resumed"] else []))).
Proof.
  cbv zeta. unfold resumeBot, bind, attempt, emit, exec_sql, query, ret.
  cbn [table log].
  destruct (pause_in_force _ _); cbn [table log]; rewrite <- ?app_assoc; reflexivity.
Qed.

(** X5. [handleHardPause] on a conversation that has no state row answers
    [{escalated: true, mode: 'hard_pause'}], reopens the conversation and
    posts the note that the bot is paused, but stores nothing: the table
    is unchanged and the pause gate still lets the conversation through. *)
Theorem hard_pause_needs_a_state_row (e : env) (event : Event) (minutes : Z) (w : world) :
  Repo.getState (propertyId event) (conversationId event) (table w) = None ->
  let w' := snd (handleHardPause e event minutes w) in
  fst (handleHardPause e event minutes w) = Ret (MkEscalated true "hard_pause")
  /\ table w' = table w
  /\ log w' = (log w ++ [UpdateStatus (conversationId event) "open";
                         PrivateMessage (conversationId event) "⏸️ Bot paused"])%list
  /\ Router.pauseGate (propertyId event) (conversationId event) w' = (Ret false, w').
Proof.
  intros H w'. subst w'. rewrite handleHardPause_run. cbn [fst snd table log].
  rewrite H. cbn [pause_in_force].
  assert (T : Repo.manualPauseForMinutes (DateJS.now (clk e)) (propertyId event)
                (conversationId event) minutes (table w) = table w).
  { unfold Repo.manualPauseForMinutes, Repo.update. unfold Repo.getState in H.
    destruct (find _ (table w)) eqn:F; [discriminate H|].
    pose proof (find_none _ _ F) as N. clear F H.
    induction (table w) as [|r t IH]; [reflexivity|]. cbn [map].
    rewrite (N r (or_introl eq_refl)). f_equal. apply IH.
    intros x Hx. apply N. right. exact Hx. }
  rewrite T. split; [reflexivity|]. split; [reflexivity|]. split; [reflexivity|].
  unfold Router.pauseGate, bind, query, ret. cbn [table]. rewrite H. reflexivity.
Qed.

Lemma hard_pause_needs_a_state_row_witness :
  Repo.getState Scenario.hotel Scenario.conv (table Cases.no_rows) = None
  /\ table (snd (handleHardPause Scenario.deployment Scenario.staff_event 30 Cases.no_rows))
     = table Cases.no_rows.
Proof.
  split; [reflexivity|].
  exact (proj1 (proj2 (hard_pause_needs_a_state_row Scenario.deployment Scenario.staff_event
                         30 Cases.no_rows eq_refl))).
Defined.

(** X6. A hard pause of a conversation that a hard pause has just paused
    posts no second note: its only platform call is the status update to
    open. It does move the deadline, to the second call's clock plus the
    second call's minutes; the escalated flag and the counters stay. *)
Theorem second_hard_pause_posts_no_note
  (e1 e2 : env) (event : Event) (m1 m2 : Z) (w : world) (st0 : Repo.ConvState) :
  Repo.getState (propertyId event) (conversationId event) (table w) = Some st0 ->
  let w1 := snd (handleHardPause e1 event m1 w) in
  let w2 := snd (handleHardPause e2 event m2 w1) in
  log w2 = (log w1 ++ [UpdateStatus (conversationId event) "open"])%list
  /\ Repo.getState (propertyId event) (conversationId event) (table w2)
     = Some (Repo.MkState true (Some (DateJS.now (clk e2) + m2 * 60000))
               (Repo.s_escalated st0) false
               (Repo.s_clarify_attempts st0) (Repo.s_negative_count st0)).
Proof.
  intros H w1 w2. subst w1 w2. rewrite !handleHardPause_run. cbn [fst snd table log].
  assert (G : Repo.getState (propertyId event) (conversationId event)
                (Repo.manualPauseForMinutes (DateJS.now (clk e1)) (propertyId event)
                   (conversationId event) m1 (table w))
              = Some (Repo.MkState true (Some (DateJS.now (clk e1) + m1 * 60000))
                        (Repo.s_escalated st0) false
                        (Repo.s_clarify_attempts st0) (Repo.s_negative_count st0))).
  { unfold Repo.getState, Repo.manualPauseForMinutes in *.
    rewrite find_update_key by reflexivity.
    destruct (find _ (table w)) as [r|]; [|discriminate H].
    injection H as <-. reflexivity. }
  rewrite G. cbn [pause_in_force Repo.s_paused Repo.s_resume_at].
  rewrite orb_true_r. split; [reflexivity|]. clear G.
  unfold Repo.getState, Repo.manualPauseForMinutes in *.
  rewrite !find_update_key by reflexivity.
  destruct (find _ (table w)) as [r|]; [|discriminate H].
  injection H as <-. reflexivity.
Qed.

Lemma second_hard_pause_posts_no_note_witness :
  log (snd (handleHardPause Scenario.deployment Scenario.staff_event 15
              (snd (handleHardPause Scenario.deployment Scenario.staff_event 30
                      Scenario.fresh_world))))
  = (log (snd (handleHardPause Scenario.deployment Scenario.staff_event 30
                 Scenario.fresh_world))
     ++ [UpdateStatus Scenario.conv "open"])%list.
Proof.
  exact (proj1 (second_hard_pause_posts_no_note Scenario.deployment Scenario.deployment
                  Scenario.staff_event 30 15 Scenario.fresh_world
                  (Repo.view (Repo.fresh Scenario.hotel Scenario.conv)) eq_refl)).
Defined.

(** X7. A hard pause followed by [resumeBot], on a conversation with a
    state row: the pause gate stops the conversation in between and lets
    it through afterwards; the final state is not paused, without
    deadline and watch mode, with negative_count 0, and with the escalated
    flag and clarify_attempts it had before the pause; the resume reopens
    the conversation and posts the note that the bot is resumed; the
    stored service flow is the one from before the pause. *)
Theorem pause_then_resume (e1 e2 : env) (event : Event) (minutes : Z) (w : world)
  (st0 : Repo.ConvState) :
  Repo.getState (propertyId event) (conversationId event) (table w) = Some st0 ->
  let w1 := snd (handleHardPause e1 event minutes w) in
  let w2 := snd (resumeBot e2 event w1) in
  Repo.getState (propertyId event) (conversationId event) (table w2)
  = Some (Repo.MkState false None (Repo.s_escalated st0) false
            (Repo.s_clarify_attempts st0) 0)
  /\ log w2 = (log w1 ++ [UpdateStatus (conversationId event) "open";
                          PrivateMessage (conversationId event) "▶️ Bot resumed"])%list
  /\ Router.pauseGate (propertyId event) (conversationId event) w1 = (Ret true, w1)
  /\ Router.pauseGate (propertyId event) (conversationId event) w2 = (Ret false, w2)
  /\ Repo.getServiceFlow (conversationId event) (table w2)
     = Repo.getServiceFlow (conversationId event) (table w).
Proof.
  intros H w1 w2. subst w1 w2. rewrite resumeBot_run, !handleHardPause_run.
  cbn [fst snd table log].
  assert (G : Repo.getState (propertyId event) (conversationId event)
                (Repo.manualPauseForMinutes (DateJS.now (clk e1)) (propertyId event)
                   (conversationId event) minutes (table w))
              = Some (Repo.MkState true (Some (DateJS.now (clk e1) + minutes * 60000))
                        (Repo.s_escalated st0) false
                        (Repo.s_clarify_attempts st0) (Repo.s_negative_count st0))).
  { unfold Repo.getState, Repo.manualPauseForMinutes in *.
    rewrite find_update_key by reflexivity.
    destruct (find _ (table w)) as [r|]; [|discriminate H].
    injection H as <-. reflexivity. }
  rewrite G. cbn [pause_in_force Repo.s_paused Repo.s_resume_at]. rewrite orb_true_r.
  assert (G2 : Repo.getState (propertyId event) (conversationId event)
                 (Repo.resetNegativeCount (propertyId event) (conversationId event)
                    (Repo.clearPause (propertyId event) (conversationId event)
                       (Repo.manualPauseForMinutes (DateJS.now (clk e1)) (propertyId event)
                          (conversationId event) minutes (table w))))
               = Some (Repo.MkState false None (Repo.s_escalated st0) false
                         (Repo.s_clarify_attempts st0) 0)).
  { clear G. unfold Repo.getState, Repo.manualPauseForMinutes, Repo.clearPause,
      Repo.resetNegativeCount in *.
    rewrite !find_update_key by reflexivity.
    destruct (find _ (table w)) as [r|]; [|discriminate H].
    injection H as <-. reflexivity. }
  split; [exact G2|]. split; [reflexivity|].
  split; [|split].
  - unfold Router.pauseGate, bind, query, ret. cbn [table]. rewrite G. reflexivity.
  - unfold Router.pauseGate, bind, query, ret. cbn [table]. rewrite G2. reflexivity.
  - unfold Repo.manualPauseForMinutes, Repo.clearPause, Repo.resetNegativeCount.
    rewrite !getServiceFlow_update by reflexivity. reflexivity.
Qed.

Lemma pause_then_resume_witness :
  Repo.getState Scenario.hotel Scenario.conv
    (table (snd (resumeBot Scenario.deployment Scenario.staff_event
                   (snd (handleHardPause Scenario.deployment Scenario.staff_event 30
                           Scenario.busy_world)))))
  = Some (Repo.MkState false None true false 2 0).
Proof.
  exact (proj1 (pause_then_resume Scenario.deployment Scenario.deployment
                  Scenario.staff_event 30 Scenario.busy_world
                  (Repo.view Scenario.busy_row) eq_refl)).
Defined.

End PauseMachine.


(* ------------------------------------------------------------------ *)
(** ** Handlers stay with their conversation *)
(* ------------------------------------------------------------------ *)

Section Confinement.
Import World Config Conduct.

Variable good : effect -> Prop.
Variable pid cid : string.

Let R := confined good pid cid.

Lemma confined_refl (w : world) : confined good pid cid w w.
Proof.
  split; [|split; reflexivity].
  exists []. split; [symmetry; apply app_nil_r | constructor].
Qed.

Lemma confined_trans (w1 w2 w3 : world) :
  confined good pid cid w1 w2 -> confined good pid cid w2 w3 -> confined good pid cid w1 w3.
Proof.
  intros [(l1 & E1 & F1) [T1 S1]] [(l2 & E2 & F2) [T2 S2]]. split; [|split].
  - exists (l1 ++ l2)%list. split.
    + rewrite E2, E1, app_assoc. reflexivity.
    + apply Forall_app. split; assumption.
  - rewrite T2. exact T1.
  - rewrite S2. exact S1.
Qed.

Lemma stays_ret {A} (a : A) : stays R (ret a).
Proof. intros w. apply confined_refl. Qed.

Lemma stays_throw {A} : stays R (@throw A).
Proof. intros w. apply confined_refl. Qed.

Lemma stays_lift {A} (r : Parser.res A) : stays R (lift r).
Proof. destruct r; [apply stays_ret | apply stays_throw]. Qed.

Lemma stays_query {A} (f : Repo.Table -> A) : stays R (query f).
Proof. intros w. apply confined_refl. Qed.

Lemma stays_bind {A B} (m : M A) (f : A -> M B) :
  stays R m -> (forall a, stays R (f a)) -> stays R (bind m f).
Proof.
  intros Hm Hf w. unfold bind. specialize (Hm w).
  destruct (m w) as [[a|] w1]; cbn [snd] in *; [|exact Hm].
  exact (confined_trans _ _ _ Hm (Hf a w1)).
Qed.

Lemma stays_attempt (m : M unit) : stays R m -> stays R (attempt m).
Proof.
  intros Hm w. unfold attempt. specialize (Hm w).
  destruct (m w) as [[a|] w1]; exact Hm.
Qed.

Lemma stays_catch {A} (m h : M A) : stays R m -> stays R h -> stays R (catch m h).
Proof.
  intros Hm Hh w. unfold catch. specialize (Hm w).
  destruct (m w) as [[a|] w1]; cbn [snd] in *; [exact Hm|].
  exact (confined_trans _ _ _ Hm (Hh w1)).
Qed.

Lemma stays_finally {A} (m : M A) (f : M unit) :
  stays R m -> stays R f -> stays R (finally m f).
Proof.
  intros Hm Hf w. unfold finally. specialize (Hm w).
  destruct (m w) as [r w1]. specialize (Hf w1). destruct (f w1) as [r' w2].
  exact (confined_trans _ _ _ Hm Hf).
Qed.

Lemma stays_emit (ef : effect) : good ef -> stays R (emit ef).
Proof.
  intros G w. split; [|split; reflexivity]. exists [ef]. split; [reflexivity|].
  constructor; [exact G | constructor].
Qed.

Lemma stays_exec_sql (g : Repo.Table -> Repo.Table) :
  (forall t, others cid (g t) = others cid t) ->
  (forall t, strangers pid cid (g t) = strangers pid cid t) ->
  stays R (exec_sql g).
Proof.
  intros G H w. split; [|split; [apply G | apply H]].
  exists []. split; [symmetry; apply app_nil_r | constructor].
Qed.

(** An update of the row of [pid] and [cid] alone. *)
Lemma strangers_update_own (c : Repo.Row -> bool) (g : Repo.Row -> Repo.Row)
  (t : Repo.Table) :
  (forall r, c r = true -> Repo.is_key pid cid r = true) ->
  (forall r, Repo.is_key pid cid (g r) = Repo.is_key pid cid r) ->
  strangers pid cid (Repo.update c g t) = strangers pid cid t.
Proof.
  intros C K. unfold strangers, Repo.update. induction t as [|r t IH]; [reflexivity|].
  cbn [map filter]. destruct (c r) eqn:Cr.
  - rewrite K, (C r Cr). cbn [negb]. exact IH.
  - destruct (negb (Repo.is_key pid cid r)); cbn [map]; rewrite IH; reflexivity.
Qed.

(** An update that leaves keys and states as they are. *)
Lemma strangers_update_flow (c : Repo.Row -> bool) (g : Repo.Row -> Repo.Row)
  (t : Repo.Table) :
  (forall r, Repo.property_id (g r) = Repo.property_id r) ->
  (forall r, Repo.conversation_id (g r) = Repo.conversation_id r) ->
  (forall r, Repo.view (g r) = Repo.view r) ->
  strangers pid cid (Repo.update c g t) = strangers pid cid t.
Proof.
  intros P K V. unfold strangers, Repo.update. induction t as [|r t IH]; [reflexivity|].
  cbn [map filter].
  assert (E : Repo.is_key pid cid (if c r then g r else r) = Repo.is_key pid cid r)
    by (destruct (c r); [unfold Repo.is_key; rewrite P, K|]; reflexivity).
  rewrite E. destruct (negb (Repo.is_key pid cid r)); [|exact IH].
  cbn [map]. rewrite IH. destruct (c r); [rewrite P, K, V|]; reflexivity.
Qed.

Lemma strangers_ensureState (t : Repo.Table) :
  strangers pid cid (Repo.ensureState pid cid t) = strangers pid cid t.
Proof.
  unfold strangers, Repo.ensureState. destruct (existsb _ t); [reflexivity|].
  rewrite filter_app, map_app. cbn [filter]. rewrite is_key_fresh. cbn. apply app_nil_r.
Qed.

Lemma others_update (c : Repo.Row -> bool) (g : Repo.Row -> Repo.Row) (t : Repo.Table) :
  (forall r, c r = true -> Repo.is_conv cid r = true) ->
  (forall r, Repo.conversation_id (g r) = Repo.conversation_id r) ->
  others cid (Repo.update c g t) = others cid t.
Proof.
  intros C K. unfold others, Repo.update. induction t as [|r t IH]; [reflexivity|].
  cbn [map filter]. rewrite IH. destruct (c r) eqn:Cr; [|reflexivity].
  unfold Repo.is_conv in *. rewrite K. rewrite (C r Cr). reflexivity.
Qed.

Lemma others_ensureState (p : string) (t : Repo.Table) :
  others cid (Repo.ensureState p cid t) = others cid t.
Proof.
  unfold others, Repo.ensureState. destruct (existsb _ t); [reflexivity|].
  rewrite filter_app. cbn. unfold Repo.is_conv. cbn. rewrite String.eqb_refl.
  apply app_nil_r.
Qed.

Lemma is_key_conv (p : string) (r : Repo.Row) :
  Repo.is_key p cid r = true -> Repo.is_conv cid r = true.
Proof. unfold Repo.is_key, Repo.is_conv. intros H. apply andb_true_iff in H. tauto. Qed.

End Confinement.

Section ConfinedHandlers.
Import World Config Conduct Escalation.

Lemma stays_weaken {A} (good good' : effect -> Prop) (pid cid : string) (m : M A) :
  (forall ef, good ef -> good' ef) ->
  stays (confined good pid cid) m -> stays (confined good' pid cid) m.
Proof.
  intros G H w. destruct (H w) as [(l & E & F) T]. split; [|exact T].
  exists l. split; [exact E|]. apply (Forall_impl _ G F).
Qed.

Lemma staff_side_about (e : env) (cid : string) (ef : effect) :
  staff_side cid ef -> about e cid ef.
Proof. destruct ef; cbn; tauto. Qed.

Lemma priorityFromSignal_valid (intent : IntentKind) (n : Z) (text : string) (neg : bool) :
  In (priorityFromSignal intent n text neg) priorities.
Proof.
  unfold priorityFromSignal, priorities.
  destruct (existsb _ _); [cbn; tauto|]. destruct neg; [cbn; tauto|].
  destruct (2 <=? n); [cbn; tauto|]. destruct intent; cbn; tauto.
Qed.

Ltac others_tac :=
  intros ?;
  repeat first
    [ reflexivity
    | rewrite others_update
    | rewrite others_ensureState
    | apply is_key_conv
    | match goal with
      | |- forall r, _ = true -> Repo.is_conv _ r = true => intros ? ?
      | |- forall r, Repo.conversation_id _ = Repo.conversation_id r => intros ?
      | H : Repo.not_yet_escalated _ _ _ = true |- _ =>
          unfold Repo.not_yet_escalated in H; apply andb_true_iff in H; destruct H as [H _]
      | H : Repo.is_key _ ?c ?r = true |- Repo.is_conv ?c ?r = true =>
          exact (is_key_conv c _ r H)
      | H : Repo.is_conv ?c ?r = true |- Repo.is_conv ?c ?r = true => exact H
      end ].

Lemma others_enterSoftWatch (pid cid : string) (t : Repo.Table) :
  others cid (Repo.enterSoftWatch pid cid t) = others cid t.
Proof. revert t. unfold Repo.enterSoftWatch. others_tac. Qed.

Lemma others_markEscalatedOnce (pid cid : string) (t : Repo.Table) :
  others cid (fst (Repo.markEscalatedOnce pid cid t)) = others cid t.
Proof. revert t. unfold Repo.markEscalatedOnce. cbn [fst]. others_tac. Qed.

Lemma others_incrementClarify (pid cid : string) (t : Repo.Table) :
  others cid (Repo.incrementClarify pid cid t) = others cid t.
Proof. revert t. unfold Repo.incrementClarify. others_tac. Qed.

Lemma others_incrementNegative (pid cid : string) (t : Repo.Table) :
  others cid (Repo.incrementNegative pid cid t) = others cid t.
Proof. revert t. unfold Repo.incrementNegative. others_tac. Qed.

Lemma others_manualPause (now : Z) (pid cid : string) (m : Z) (t : Repo.Table) :
  others cid (Repo.manualPauseForMinutes now pid cid m t) = others cid t.
Proof. revert t. unfold Repo.manualPauseForMinutes. others_tac. Qed.

Lemma others_clearPause (pid cid : string) (t : Repo.Table) :
  others cid (Repo.clearPause pid cid t) = others cid t.
Proof. revert t. unfold Repo.clearPause. others_tac. Qed.

Lemma others_resetNegativeCount (pid cid : string) (t : Repo.Table) :
  others cid (Repo.resetNegativeCount pid cid t) = others cid t.
Proof. revert t. unfold Repo.resetNegativeCount. others_tac. Qed.

Lemma others_clearState (pid cid : string) (t : Repo.Table) :
  others cid (Repo.clearState pid cid t) = others cid t.
Proof. revert t. unfold Repo.clearState. others_tac. Qed.

Lemma others_setServiceFlow (cid : string) (f : option Flow.FlowState) (t : Repo.Table) :
  others cid (Repo.setServiceFlow cid f t) = others cid t.
Proof. revert t. unfold Repo.setServiceFlow. others_tac. Qed.

Ltac strangers_tac :=
  intros ?;
  repeat first
    [ reflexivity
    | rewrite strangers_update_own
    | rewrite strangers_ensureState
    | match goal with
      | |- forall r, _ = true -> Repo.is_key _ _ r = true => intros ? ?
      | |- forall r, Repo.is_key _ _ _ = Repo.is_key _ _ r => intros ?
      | H : Repo.not_yet_escalated _ _ _ = true |- _ =>
          unfold Repo.not_yet_escalated in H; apply andb_true_iff in H; destruct H as [H _]
      | H : Repo.is_key ?p ?c ?r = true |- Repo.is_key ?p ?c ?r = true => exact H
      end ].

Lemma strangers_enterSoftWatch (pid cid : string) (t : Repo.Table) :
  strangers pid cid (Repo.enterSoftWatch pid cid t) = strangers pid cid t.
Proof. revert t. unfold Repo.enterSoftWatch. strangers_tac. Qed.

Lemma strangers_markEscalatedOnce (pid cid : string) (t : Repo.Table) :
  strangers pid cid (fst (Repo.markEscalatedOnce pid cid t)) = strangers pid cid t.
Proof. revert t. unfold Repo.markEscalatedOnce. cbn [fst]. strangers_tac. Qed.

Lemma strangers_incrementClarify (pid cid : string) (t : Repo.Table) :
  strangers pid cid (Repo.incrementClarify pid cid t) = strangers pid cid t.
Proof. revert t. unfold Repo.incrementClarify. strangers_tac. Qed.

Lemma strangers_incrementNegative (pid cid : string) (t : Repo.Table) :
  strangers pid cid (Repo.incrementNegative pid cid t) = strangers pid cid t.
Proof. revert t. unfold Repo.incrementNegative. strangers_tac. Qed.

Lemma strangers_manualPause (now : Z) (pid cid : string) (m : Z) (t : Repo.Table) :
  strangers pid cid (Repo.manualPauseForMinutes now pid cid m t) = strangers pid cid t.
Proof. revert t. unfold Repo.manualPauseForMinutes. strangers_tac. Qed.

Lemma strangers_clearPause (pid cid : string) (t : Repo.Table) :
  strangers pid cid (Repo.clearPause pid cid t) = strangers pid cid t.
Proof. revert t. unfold Repo.clearPause. strangers_tac. Qed.

Lemma strangers_resetNegativeCount (pid cid : string) (t : Repo.Table) :
  strangers pid cid (Repo.resetNegativeCount pid cid t) = strangers pid cid t.
Proof. revert t. unfold Repo.resetNegativeCount. strangers_tac. Qed.

Lemma strangers_clearState (pid cid : string) (t : Repo.Table) :
  strangers pid cid (Repo.clearState pid cid t) = strangers pid cid t.
Proof. revert t. unfold Repo.clearState. strangers_tac. Qed.

(** The flow is written by conversation id, under whatever property. *)
Lemma strangers_setServiceFlow (pid cid c : string) (f : option Flow.FlowState)
  (t : Repo.Table) :
  strangers pid cid (Repo.setServiceFlow c f t) = strangers pid cid t.
Proof. unfold Repo.setServiceFlow. apply strangers_update_flow; intros r; reflexivity. Qed.


Lemma priority_of_valid (opts : SoftEscalationOpts) : In (priority_of opts) priorities.
Proof. apply priorityFromSignal_valid. Qed.

Lemma nonempty_some (o : option string) (s : string) :
  Service.nonempty o = Some s -> o = Some s.
Proof.
  destruct o as [x|]; [|discriminate]. cbn. destruct (JS.truthy x); [|discriminate].
  intros H. exact H.
Qed.

Lemma stays_mark (good : effect -> Prop) (pid cid : string) :
  stays (confined good pid cid)
    (fun w => let '(t, b) := Repo.markEscalatedOnce pid cid (table w) in
              (Ret b, MkWorld t (log w))).
Proof.
  intros w. pose proof (others_markEscalatedOnce pid cid (table w)) as O.
  pose proof (strangers_markEscalatedOnce pid cid (table w)) as S.
  destruct (Repo.markEscalatedOnce pid cid (table w)) as [t b]. cbn [fst snd table log] in *.
  split; [|split; [exact O | exact S]].
  exists []. split; [symmetry; apply app_nil_r | constructor].
Qed.

Lemma stays_assign (good : effect -> Prop) (e : env) (pid cid : string) (a : Z) :
  good (AssignToUser cid a (DEFAULT_TEAM e)) ->
  stays (confined good pid cid)
    (fun w => if has_assignee e cid w then (Ret tt, w)
              else emit (AssignToUser cid a (DEFAULT_TEAM e)) w).
Proof.
  intros G w. destruct (has_assignee e cid w).
  - apply confined_refl.
  - apply (stays_emit good pid cid _ G w).
Qed.

Create HintDb conf.
#[local] Hint Resolve priority_of_valid priorityFromSignal_valid nonempty_some : conf.
#[local] Hint Resolve others_enterSoftWatch others_incrementClarify others_incrementNegative
  others_manualPause others_clearPause others_resetNegativeCount others_clearState
  others_setServiceFlow : conf.
#[local] Hint Resolve strangers_enterSoftWatch strangers_incrementClarify
  strangers_incrementNegative strangers_manualPause strangers_clearPause
  strangers_resetNegativeCount strangers_clearState strangers_setServiceFlow : conf.
#[local] Hint Resolve stays_mark : conf.
#[local] Hint Extern 1 (In _ statuses) => cbn; tauto : conf.
#[local] Hint Extern 1 (In _ priorities) => cbn; tauto : conf.

Ltac good_call :=
  cbn [staff_side about]; repeat split; solve [reflexivity | auto 3 with conf].

Ltac stays_step :=
  first
  [ solve [auto 2 with conf]
  | match goal with
    | |- stays _ (ret _) => apply stays_ret
    | |- stays _ throw => apply stays_throw
    | |- stays _ (lift _) => apply stays_lift
    | |- stays _ (query _) => apply stays_query
    | |- stays _ (attempt _) => apply stays_attempt
    | |- stays _ (catch _ _) => apply stays_catch
    | |- stays _ (finally _ _) => apply stays_finally
    | |- stays _ (bind _ _) => apply stays_bind; [| intros ?]
    | |- stays _ (emit _) => apply stays_emit; good_call
    | |- stays _ (exec_sql _) => apply stays_exec_sql; intros ?; solve [auto with conf]
    | |- stays _ (fun w => if has_assignee _ _ w then _ else _) =>
        apply stays_assign; good_call
    | |- stays _ (if ?b then _ else _) => destruct b eqn:?
    | |- stays _ (match ?x with _ => _ end) => destruct x eqn:?
    end ].
Ltac stays_auto := repeat stays_step.

Section StaffSide.
Variable e : env.
Variable event : Event.
Let pid := propertyId event.
Let cid := conversationId event.

Lemma staff_handleSoftEscalation (opts : SoftEscalationOpts) :
  stays (confined (staff_side cid) pid cid) (handleSoftEscalation e event opts).
Proof. unfold handleSoftEscalation. cbv zeta. fold pid cid. stays_auto. Qed.

Lemma staff_handleHardPause (minutes : Z) :
  stays (confined (staff_side cid) pid cid) (handleHardPause e event minutes).
Proof. unfold handleHardPause. cbv zeta. fold pid cid. stays_auto. Qed.

Lemma staff_resumeBot : stays (confined (staff_side cid) pid cid) (resumeBot e event).
Proof. unfold resumeBot. cbv zeta. fold pid cid. stays_auto. Qed.

Lemma staff_resolveConversation :
  stays (confined (staff_side cid) pid cid) (resolveConversation e event).
Proof. unfold resolveConversation. cbv zeta. fold pid cid. stays_auto. Qed.

End StaffSide.


#[local] Hint Resolve stays_ret stays_throw stays_lift stays_query : conf.

Section AboutService.
Import Flow Service.
Variable e : env.
Variable pid cid : string.

Let R := confined (about e cid) pid cid.

Lemma about_setState (flow : option FlowState) : stays R (setState cid flow).
Proof. unfold setState. stays_auto. Qed.

Lemma about_maybeSendMessengerQR text qrs : stays R (maybeSendMessengerQR e cid text qrs).
Proof. unfold maybeSendMessengerQR. stays_auto. Qed.
#[local] Hint Resolve about_setState about_maybeSendMessengerQR : conf.

Lemma about_say text qrs key step : stays R (say e cid text qrs key step).
Proof. unfold say. stays_auto. Qed.

Lemma about_notifyStaff d : stays R (notifyStaff cid d).
Proof. unfold notifyStaff. stays_auto. Qed.
#[local] Hint Resolve about_say about_notifyStaff : conf.

Lemma about_pending_step message p st m :
  pending_step e cid message p st = Some m -> stays R m.
Proof.
  unfold pending_step.
  apply (step_cases (fun o => o = Some m -> stays R m)); try discriminate; intros [= <-];
    stays_auto.
Qed.

Lemma about_confirm_step message key flow required collected :
  stays R (confirm_step e cid message key flow required collected).
Proof. unfold confirm_step. cbv zeta. stays_auto. Qed.

Lemma about_ask_confirm key flow required collected step :
  stays R (ask_confirm e cid key flow required collected step).
Proof. unfold ask_confirm. stays_auto. Qed.
#[local] Hint Resolve about_confirm_step about_ask_confirm : conf.

Lemma about_clarify_step message key flow required collected hasPending m :
  clarify_step e cid message key flow required collected hasPending = Some m -> stays R m.
Proof.
  unfold clarify_step. cbv zeta.
  destruct (nonempty _) as [combined|]; [|discriminate]. intros [= <-]. stays_auto.
Qed.

Lemma about_fill_field message key flow required collected currentField :
  stays R (fill_field e cid message key flow required collected currentField).
Proof. unfold fill_field. cbv zeta. stays_auto. Qed.

Lemma about_ask_next key flow required collected :
  stays R (ask_next e cid key flow required collected).
Proof. unfold ask_next. stays_auto. Qed.
#[local] Hint Resolve about_fill_field about_ask_next : conf.

Lemma about_slot_step message key flow : stays R (slot_step e cid message key flow).
Proof.
  unfold slot_step. cbv zeta.
  apply (confirm_cases (fun m => stays R m)); [stays_auto|].
  assert (G : forall f : option string,
             stays R (filled <- match f with
                                | Some f => fill_field e cid message key flow
                                              (required_of flow key) (collected flow) f
                                | None => ret (inr (collected flow))
                                end ;;
                      match filled with
                      | inl r => ret r
                      | inr collected' => ask_next e cid key flow (required_of flow key) collected'
                      end)) by (intros f; stays_auto).
  destruct (nonempty (pending_time_raw flow)) as [hasPending|]; [|apply G].
  destruct (clarify_step _ _ _ _ _ _ _ _) as [m|] eqn:C; [|apply G].
  exact (about_clarify_step _ _ _ _ _ _ _ C).
Qed.

Lemma about_withTyping {A} (work : M A) : stays R work -> stays R (withTyping cid work).
Proof. intros H. unfold withTyping. stays_auto. Qed.

Lemma about_start_flow message key required tag :
  stays R (start_flow e cid message key required tag).
Proof.
  unfold start_flow. cbv zeta.
  apply stays_bind; [apply about_withTyping, stays_lift | intros pre]. stays_auto.
Qed.

Lemma about_announce key : stays R (announce cid key).
Proof. unfold announce. stays_auto. Qed.
#[local] Hint Resolve about_start_flow about_announce about_slot_step : conf.

Lemma about_db_lookup message tenant : stays R (db_lookup e cid message tenant).
Proof. unfold db_lookup. stays_auto. Qed.

Lemma about_regex_fallback message : stays R (regex_fallback e cid message).
Proof. unfold regex_fallback. stays_auto. Qed.
#[local] Hint Resolve about_db_lookup about_regex_fallback : conf.

End AboutService.

Lemma about_handleService (e : env) (pid : string) (req : Service.ServiceRequest) :
  stays (confined (about e (Service.conversationId req)) pid (Service.conversationId req))
    (Service.handleService e req).
Proof.
  unfold Service.handleService. cbv zeta.
  destruct (negb _); [apply stays_ret|].
  apply stays_bind; [apply stays_query | intros existingFlow].
  set (cid := Service.conversationId req).
  set (message := JS.trim _).
  set (tenant := match Service.nonempty (Service.tenantId req) with
                 | Some t => t | None => "default" end).
  assert (L : stays (confined (about e cid) pid cid)
                (found <- Service.db_lookup e cid message tenant ;;
                 match found with
                 | Some r => ret r
                 | None => Service.regex_fallback e cid message
                 end)).
  { apply stays_bind; [apply about_db_lookup | intros [r|]];
      [apply stays_ret | apply about_regex_fallback]. }
  destruct existingFlow as [flow|]; [|exact L].
  assert (F : stays (confined (about e cid) pid cid)
                match Service.nonempty (Flow.service_key flow) with
                | Some key => Service.slot_step e cid message key flow
                | None => found <- Service.db_lookup e cid message tenant ;;
                          match found with
                          | Some r => ret r
                          | None => Service.regex_fallback e cid message
                          end
                end).
  { destruct (Service.nonempty (Flow.service_key flow)); [apply about_slot_step | exact L]. }
  destruct (Flow.pending flow) as [p|]; [|exact F].
  destruct (Service.pending_step _ _ _ _ _) as [m|] eqn:P; [|exact F].
  exact (about_pending_step _ _ _ _ _ _ _ P).
Qed.


Section AboutRouter.
Import Decision Router.
Variable e : env.
Variable event : Event.
Let pid := propertyId event.
Let cid := conversationId event.
Let R := confined (about e cid) pid cid.

Lemma about_handleSoftEscalation opts : stays R (handleSoftEscalation e event opts).
Proof.
  apply (stays_weaken (staff_side cid)); [apply staff_side_about|].
  apply staff_handleSoftEscalation.
Qed.

Lemma about_handleHardPause minutes : stays R (handleHardPause e event minutes).
Proof.
  apply (stays_weaken (staff_side cid)); [apply staff_side_about|].
  apply staff_handleHardPause.
Qed.

Lemma about_resumeBot : stays R (resumeBot e event).
Proof.
  apply (stays_weaken (staff_side cid)); [apply staff_side_about|]. apply staff_resumeBot.
Qed.

Lemma about_resolveConversation : stays R (resolveConversation e event).
Proof.
  apply (stays_weaken (staff_side cid)); [apply staff_side_about|].
  apply staff_resolveConversation.
Qed.

Lemma about_service : stays R (Service.handleService e (service_request event)).
Proof. exact (about_handleService e pid (service_request event)). Qed.

Lemma about_handleSmalltalk text l : stays R (handleSmalltalk e cid text l).
Proof. unfold handleSmalltalk. cbv zeta. stays_auto. Qed.

Lemma about_replyFromBot content : stays R (replyFromBot cid content).
Proof. unfold replyFromBot. stays_auto. Qed.
#[local] Hint Resolve about_handleSoftEscalation about_handleHardPause about_resumeBot
  about_resolveConversation about_service about_handleSmalltalk about_replyFromBot : conf.

Lemma about_dispatch opts state result : stays R (dispatch e opts event state result).
Proof. unfold dispatch. cbv zeta. fold pid cid. stays_auto. Qed.

Lemma about_welcome_shortcut : stays R (welcome_shortcut e event).
Proof. unfold welcome_shortcut. cbv zeta. fold pid cid. stays_auto. Qed.

Lemma about_active_flow : stays R (active_flow e event).
Proof. unfold active_flow. fold pid cid. stays_auto. Qed.

Lemma about_pauseGate p : stays R (pauseGate p cid).
Proof. unfold pauseGate. stays_auto. Qed.
#[local] Hint Resolve about_dispatch about_welcome_shortcut about_active_flow
  about_pauseGate : conf.

Lemma about_route opts : stays R (route e opts event).
Proof. unfold route. stays_auto. Qed.
#[local] Hint Resolve about_route : conf.

Lemma about_intentRouter opts : stays R (intentRouter e opts event).
Proof. unfold intentRouter. fold pid cid. stays_auto. Qed.

End AboutRouter.

Section AboutWebhook.
Import Decision Router Webhook.
Variable e : env.
Variable m : Parsed.
Let pid := property e.
Let cid := Webhook.conversationId m.
Let R := confined (about e cid) pid cid.

Lemma about_safetyAssign : stays R (safetyAssign e cid).
Proof. unfold safetyAssign. stays_auto. Qed.

Lemma about_staff_command text : stays R (staff_command e cid text).
Proof.
  unfold staff_command. cbv zeta.
  pose proof (about_handleHardPause e (MkEvent (property e) cid "" "")) as P.
  pose proof (about_resumeBot e (MkEvent (property e) cid "" "")) as Q.
  pose proof (about_replyFromBot e (MkEvent (property e) cid "" "")) as B.
  cbn [conversationId propertyId] in P, Q, B. fold pid in P, Q, B. stays_auto.
Qed.

Lemma about_chatwoot : stays R (chatwoot e m).
Proof.
  unfold chatwoot. cbv zeta. fold cid.
  pose proof (about_intentRouter e (MkEvent (property e) cid (content m) "en")) as I.
  pose proof (about_handleSmalltalk e (MkEvent (property e) cid (content m) "en")) as S.
  pose proof about_safetyAssign as A. pose proof about_staff_command as C.
  cbn [conversationId propertyId] in I, S. fold pid in I, S.
  destruct (negb _); [apply stays_ret|].
  destruct (_ && _); [apply stays_ret|].
  stays_auto.
Qed.

End AboutWebhook.


Lemma find_others (cid : string) (P : Repo.Row -> bool) (t : Repo.Table) :
  (forall r, P r = true -> Repo.is_conv cid r = false) ->
  find P (others cid t) = find P t.
Proof.
  intros N. unfold others. induction t as [|r t IH]; [reflexivity|]. cbn [filter find].
  destruct (P r) eqn:Pr.
  - rewrite (N r Pr). cbn [negb find]. rewrite Pr. reflexivity.
  - destruct (negb (Repo.is_conv cid r)); [cbn [find]; rewrite Pr|]; exact IH.
Qed.

Lemma others_read (cid pid' cid' : string) (t t' : Repo.Table) :
  cid' <> cid ->
  others cid t' = others cid t ->
  Repo.getState pid' cid' t' = Repo.getState pid' cid' t
  /\ Repo.getServiceFlow cid' t' = Repo.getServiceFlow cid' t.
Proof.
  intros N O.
  assert (K : forall r, Repo.is_conv cid' r = true -> Repo.is_conv cid r = false).
  { intros r C. unfold Repo.is_conv in *. apply String.eqb_eq in C.
    apply String.eqb_neq. congruence. }
  split.
  - unfold Repo.getState.
    rewrite <- (find_others cid _ t'), <- (find_others cid _ t), O; [reflexivity| |];
      intros r H; apply K; unfold Repo.is_key, Repo.is_conv in *;
      apply andb_true_iff in H; tauto.
  - unfold Repo.getServiceFlow.
    rewrite <- (find_others cid _ t'), <- (find_others cid _ t), O; [reflexivity| |];
      exact K.
Qed.

(** X8. Whatever the message, the stored state and the deployment, every
    platform call the router makes for an event, and every call the
    Chatwoot webhook makes for a message, names the conversation of that
    event or message (Messenger buttons go to the Messenger id of that
    conversation); every status it sets is open or resolved and every
    priority is one of low, medium, high, urgent. *)
Theorem platform_calls_are_about_the_conversation
  (e : env) (opts : Router.Options) (event : Event) (m : Webhook.Parsed) (w : world) :
  appends (about e (conversationId event)) w (snd (Router.intentRouter e opts event w))
  /\ appends (about e (Webhook.conversationId m)) w (snd (Webhook.chatwoot e m w)).
Proof.
  split.
  - exact (proj1 (about_intentRouter e event opts w)).
  - exact (proj1 (about_chatwoot e m w)).
Qed.

Lemma strangers_read (pid cid pid' cid' : string) (t t' : Repo.Table) :
  (pid', cid') <> (pid, cid) ->
  strangers pid cid t' = strangers pid cid t ->
  Repo.getState pid' cid' t' = Repo.getState pid' cid' t.
Proof.
  intros N S.
  assert (F : forall u,
             Repo.getState pid' cid' u
             = option_map snd
                 (find (fun x => String.eqb (fst (fst x)) pid' && String.eqb (snd (fst x)) cid')
                    (strangers pid cid u))).
  { intros u. unfold Repo.getState, strangers.
    induction u as [|r u IH]; [reflexivity|]. cbn [find filter].
    destruct (Repo.is_key pid' cid' r) eqn:K.
    - assert (K' : Repo.is_key pid cid r = false).
      { unfold Repo.is_key in *. apply andb_true_iff in K. destruct K as [Kp Kc].
        apply String.eqb_eq in Kp. apply String.eqb_eq in Kc.
        destruct (String.eqb_spec (Repo.property_id r) pid); [|reflexivity].
        destruct (String.eqb_spec (Repo.conversation_id r) cid); [|reflexivity].
        exfalso. apply N. congruence. }
      rewrite K'. cbn [negb map find fst snd]. unfold Repo.is_key in K. rewrite K.
      reflexivity.
    - destruct (negb (Repo.is_key pid cid r)); [|exact IH].
      cbn [map find fst snd]. unfold Repo.is_key in K. rewrite K. exact IH. }
  rewrite (F t'), (F t), S. reflexivity.
Qed.

(** X9. The router and the Chatwoot webhook change the state of no
    (property, conversation) pair other than the one the event or message
    belongs to, the same conversation id under another property included,
    and the service flow of no other conversation id.  The flow itself is
    kept per conversation id: where the same id exists under another
    property, that row gets the flow as well, as a booking that starts in
    one of two such rows shows. *)
Theorem other_conversations_are_untouched
  (e : env) (opts : Router.Options) (event : Event) (m : Webhook.Parsed) (w : world)
  (pid' cid' : string) :
  let routed := table (snd (Router.intentRouter e opts event w)) in
  let hooked := table (snd (Webhook.chatwoot e m w)) in
  ((pid', cid') <> (propertyId event, conversationId event) ->
   Repo.getState pid' cid' routed = Repo.getState pid' cid' (table w))
  /\ (cid' <> conversationId event ->
      Repo.getServiceFlow cid' routed = Repo.getServiceFlow cid' (table w))
  /\ ((pid', cid') <> (Webhook.property e, Webhook.conversationId m) ->
      Repo.getState pid' cid' hooked = Repo.getState pid' cid' (table w))
  /\ (cid' <> Webhook.conversationId m ->
      Repo.getServiceFlow cid' hooked = Repo.getServiceFlow cid' (table w))
  /\ exists e0 event0 w0 r,
       (forall r0, In r0 (table w0) -> Repo.service_flow r0 = None)
       /\ In r (table (snd (Router.intentRouter e0 opts event0 w0)))
       /\ Repo.property_id r <> propertyId event0
       /\ Repo.conversation_id r = conversationId event0
       /\ Repo.service_flow r <> None.
Proof.
  intros routed hooked.
  destruct (about_intentRouter e event opts w) as (_ & O1 & S1).
  destruct (about_chatwoot e m w) as (_ & O2 & S2).
  split; [|split; [|split; [|split]]].
  - intros N. exact (strangers_read _ _ _ _ _ _ N S1).
  - intros N. exact (proj2 (others_read _ pid' cid' _ _ N O1)).
  - intros N. exact (strangers_read _ _ _ _ _ _ N S2).
  - intros N. exact (proj2 (others_read _ pid' cid' _ _ N O2)).
  - exists Scenario.deployment, (Scenario.guest_says "book a table"), Cases.twins.
    eexists. split; [|split; [right; left; reflexivity|]].
    + intros r0 [<- | [<- | []]]; reflexivity.
    + cbn. repeat split; discriminate.
Qed.

(** X10. The four escalation handlers (soft escalation, hard pause,
    resume, resolve) never write to the guest: all their platform calls
    are labels, a priority, a status (open or resolved), a private note or
    an assignment, each on the conversation of the event. *)
Theorem escalation_calls_are_for_staff
  (e : env) (event : Event) (opts : SoftEscalationOpts) (minutes : Z) (w : world) :
  let cid := conversationId event in
  appends (staff_side cid) w (snd (handleSoftEscalation e event opts w))
  /\ appends (staff_side cid) w (snd (handleHardPause e event minutes w))
  /\ appends (staff_side cid) w (snd (resumeBot e event w))
  /\ appends (staff_side cid) w (snd (resolveConversation e event w)).
Proof.
  cbv zeta. split; [|split; [|split]].
  - exact (proj1 (staff_handleSoftEscalation e event opts w)).
  - exact (proj1 (staff_handleHardPause e event minutes w)).
  - exact (proj1 (staff_resumeBot e event w)).
  - exact (proj1 (staff_resolveConversation e event w)).
Qed.

End ConfinedHandlers.

(* ------------------------------------------------------------------ *)
(** ** The webhook's guards *)
(* ------------------------------------------------------------------ *)

Section WebhookGuards.
Import JS World Config Escalation Router Webhook.

Lemma catch_returns {A} (m h : M A) (w : world) :
  (forall w', exists a, fst (h w') = Ret a) -> exists a, fst (catch m h w) = Ret a.
Proof.
  intros H. unfold catch. destruct (m w) as [[a|] w1]; [exists a; reflexivity | apply H].
Qed.

(** X11. The Chatwoot webhook handler never lets an exception escape: for
    every message and every stored state it returns a response. And an
    exception does occur inside: in the middle of a booking that waits
    for the date, the guest message [constructor] makes the router throw,
    and the webhook answers with the server error. *)
Theorem webhook_always_answers :
  (forall e m w, exists r, fst (chatwoot e m w) = Ret r)
  /\ exists e m w,
       fst (intentRouter e (settings e) (MkEvent (property e) (conversationId m) (content m) "en") w)
       = Thrown
       /\ fst (chatwoot e m w) = Ret ServerError.
Proof.
  split.
  - intros e m w. unfold chatwoot.
    destruct (negb _); [eexists; reflexivity|].
    destruct (_ && _); [eexists; reflexivity|].
    apply catch_returns. intros w'. eexists. reflexivity.
  - exists Scenario.deployment.
    exists (MkParsed "message_created" Scenario.conv "contact" "incoming" false
              "constructor" false true).
    exists (Scenario.after "book a table for 2 people under koen at 8pm" Scenario.fresh_world).
    split; vm_compute; reflexivity.
Qed.

(** X12. An outgoing message that carries the bot's mark, or a public
    outgoing message whose text looks like the bot's (its prefix, or BOT:
    within the first characters), is ignored by the webhook: nothing is
    stored and nothing is sent, so the bot never pauses itself on its own
    replies. *)
Theorem own_messages_are_ignored (e : env) (m : Parsed) (w : world) :
  messageType m = "outgoing" ->
  (loopdup_bot m = true
   \/ (isPrivate m = false /\ looksLikeBotOutgoingText e (content m) = true)) ->
  exists why, chatwoot e m w = (Ret (Ignored why), w).
Proof.
  intros T B. unfold chatwoot.
  destruct (negb _); [eexists; reflexivity|].
  destruct (_ && _); [eexists; reflexivity|].
  rewrite T. cbn [String.eqb Ascii.eqb Bool.eqb andb orb].
  assert (N : (String.eqb (senderType m) "agent" || String.eqb (senderType m) "user")
              && (false || isPrivate m)
              && negb (loopdup_bot m || looksLikeOurAutoPauseNote (content m)) = false).
  { destruct B as [B | [P _]]; [rewrite B | rewrite P]; cbn;
      rewrite ?andb_false_r; reflexivity. }
  assert (S : negb (isPrivate m)
              && (String.eqb (senderType m) "agent" || String.eqb (senderType m) "user")
              && truthy (trim (content m))
              && negb (loopdup_bot m || looksLikeBotOutgoingText e (content m)) = false).
  { destruct B as [B | [_ L]]; [rewrite B | rewrite L; rewrite orb_true_r];
      cbn; rewrite ?andb_false_r; reflexivity. }
  unfold catch, bind, ret. rewrite S.
  destruct (String.eqb (senderType m) "agent" || String.eqb (senderType m) "user") eqn:St;
    cbn [andb orb negb] in *.
  - destruct (isPrivate m) eqn:P; cbn [andb orb negb] in *.
    + destruct (loopdup_bot m || looksLikeOurAutoPauseNote (content m)); [|discriminate N].
      eexists. reflexivity.
    + eexists. reflexivity.
  - eexists. reflexivity.
Qed.

Lemma own_messages_are_ignored_witness :
  looksLikeBotOutgoingText Scenario.deployment (content Cases.bot_echo) = true
  /\ exists why,
       chatwoot Scenario.deployment Cases.bot_echo Scenario.fresh_world
       = (Ret (Ignored why), Scenario.fresh_world).
Proof.
  split; [reflexivity|].
  apply (own_messages_are_ignored Scenario.deployment Cases.bot_echo Scenario.fresh_world);
    [reflexivity | right; split; reflexivity].
Defined.


(** X13. A public outgoing message with text from a member of staff, in a
    conversation with a state row, pauses the bot for
    MANUAL_REPLY_PAUSE_MINUTES from now (moving the deadline when the
    conversation is paused already) and clears watch mode; the escalated
    flag and the counters stay. The note that the bot is paused is posted
    only when the conversation was not paused before. The message itself
    is not routed: the webhook answers that it is no guest message. *)
Theorem staff_reply_pauses_the_bot (e : env) (m : Parsed) (w : world) (st0 : Repo.ConvState) :
  truthy (conversationId m) = true ->
  eventType m = "message_created" ->
  messageType m = "outgoing" ->
  isPrivate m = false ->
  (senderType m = "agent" \/ senderType m = "user") ->
  truthy (trim (content m)) = true ->
  loopdup_bot m = false ->
  looksLikeBotOutgoingText e (content m) = false ->
  Repo.getState (property e) (conversationId m) (table w) = Some st0 ->
  let w' := snd (chatwoot e m w) in
  fst (chatwoot e m w) = Ret (Ignored "not_guest_inbound")
  /\ Repo.getState (property e) (conversationId m) (table w')
     = Some (Repo.MkState true
               (Some (DateJS.now (clk e) + MANUAL_REPLY_PAUSE_MINUTES e * 60000))
               (Repo.s_escalated st0) false
               (Repo.s_clarify_attempts st0) (Repo.s_negative_count st0))
  /\ log w' = (log w ++ (if Repo.s_paused st0 then []
                         else [PrivateMessage (conversationId m) NOTE_PAUSED]))%list.
Proof.
  intros C Ev T P S X B L G w'. subst w'. unfold chatwoot.
  rewrite C, Ev, T, P, X, B, L. cbn [negb andb orb String.eqb Ascii.eqb Bool.eqb truthy].
  assert (St : String.eqb (senderType m) "agent" || String.eqb (senderType m) "user" = true)
    by (destruct S as [-> | ->]; reflexivity).
  rewrite St. cbn [negb andb orb].
  unfold catch, bind, ret, query, exec_sql, emit. cbv beta. cbn [table log]. rewrite G.
  assert (G' : Repo.getState (property e) (conversationId m)
                 (Repo.manualPauseForMinutes (DateJS.now (clk e)) (property e)
                    (conversationId m) (MANUAL_REPLY_PAUSE_MINUTES e) (table w))
               = Some (Repo.MkState true
                         (Some (DateJS.now (clk e) + MANUAL_REPLY_PAUSE_MINUTES e * 60000))
                         (Repo.s_escalated st0) false
                         (Repo.s_clarify_attempts st0) (Repo.s_negative_count st0))).
  { unfold Repo.getState, Repo.manualPauseForMinutes in *.
    rewrite find_update_key by reflexivity.
    destruct (find _ (table w)) as [r|]; [|discriminate G].
    injection G as <-. reflexivity. }
  destruct (Repo.s_paused st0); cbn [fst snd table log];
    (split; [reflexivity|]); (split; [exact G'|]);
    rewrite ?app_nil_r; reflexivity.
Qed.

Lemma staff_reply_pauses_the_bot_witness :
  Repo.getState (property Scenario.deployment) (conversationId Cases.staff_reply)
    (table (snd (chatwoot Scenario.deployment Cases.staff_reply Scenario.fresh_world)))
  = Some (Repo.MkState true (Some (DateJS.now Scenario.monday_morning + 30 * 60000))
            false false 0 0).
Proof.
  exact (proj1 (proj2 (staff_reply_pauses_the_bot Scenario.deployment Cases.staff_reply
                         Scenario.fresh_world
                         (Repo.view (Repo.fresh Scenario.hotel Scenario.conv))
                         eq_refl eq_refl eq_refl eq_refl (or_intror eq_refl)
                         eq_refl eq_refl eq_refl eq_refl))).
Defined.

(** X14. While a conversation is paused, the webhook drops a guest's
    message before classifying it: the response is skipped_paused, the
    table is unchanged and no platform call is made. *)
Theorem paused_guest_message_is_dropped (e : env) (m : Parsed) (w : world)
  (st : Repo.ConvState) :
  truthy (conversationId m) = true ->
  eventType m = "message_created" ->
  messageType m = "incoming" ->
  isPrivate m = false ->
  truthy (trim (content m)) = true ->
  starts_with_prefix e (content m) = false ->
  Repo.getState (property e) (conversationId m) (table w) = Some st ->
  Repo.s_paused st = true ->
  chatwoot e m w = (Ret SkippedPaused, w).
Proof.
  intros C Ev T P X B G Pz. unfold chatwoot.
  rewrite C, Ev, T, P, X, B. cbn [negb andb orb String.eqb Ascii.eqb Bool.eqb truthy].
  rewrite !andb_false_r. cbn [negb andb orb].
  unfold catch, bind, ret, query. cbv beta. cbn [table]. rewrite G, Pz. reflexivity.
Qed.

Lemma paused_guest_message_is_dropped_witness :
  chatwoot Scenario.deployment Cases.pool_question Scenario.busy_world
  = (Ret SkippedPaused, Scenario.busy_world).
Proof.
  exact (paused_guest_message_is_dropped Scenario.deployment Cases.pool_question
           Scenario.busy_world (Repo.view Scenario.busy_row)
           eq_refl eq_refl eq_refl eq_refl eq_refl eq_refl eq_refl eq_refl).
Defined.

End WebhookGuards.


(* ------------------------------------------------------------------ *)
(** ** The router's paths *)
(* ------------------------------------------------------------------ *)

Section RouterPaths.
Import JS World Config Escalation Decision Router.

(** X15. After the router has handled a resume or a resolve command
    ([@boton], [@resolve]), the pause gate lets the conversation through,
    whatever its state was. *)
Theorem resume_and_resolve_open_the_gate
  (e : env) (opts : Options) (event : Event) (w : world) :
  (parseCommand (text event) = Some resume \/ parseCommand (text event) = Some resolve) ->
  let w' := snd (intentRouter e opts event w) in
  pauseGate (propertyId event) (conversationId event) w' = (Ret false, w').
Proof.
  intros H w'.
  assert (G : forall st, Repo.getState (propertyId event) (conversationId event) (table w')
                         = Some st -> Repo.s_paused st = false).
  { subst w'. unfold intentRouter. destruct H as [-> | ->].
    - assert (E : forall x, snd ((resumeBot e event ;;;
                                  ret (Escalation false "resume" "command_resume")) x)
                            = snd (resumeBot e event x)).
      { intros x. unfold bind, ret. destruct (resumeBot e event x) as [[r|] y]; reflexivity. }
      rewrite E, resumeBot_table. intros st.
      unfold Repo.getState, Repo.resetNegativeCount, Repo.clearPause.
      rewrite !find_update_key by reflexivity.
      destruct (find _ (table w)) as [r|]; [|discriminate].
      intros [= <-]. reflexivity.
    - assert (E : forall x, snd ((resolveConversation e event ;;;
                                  ret (Escalation false "resolved" "command_resolve")) x)
                            = snd (resolveConversation e event x)).
      { intros x. unfold bind, ret.
        destruct (resolveConversation e event x) as [[r|] y]; reflexivity. }
      rewrite E, resolveConversation_table. intros st.
      unfold Repo.getState, Repo.clearState.
      rewrite !find_update_key by reflexivity.
      destruct (find _ (table w)) as [r|]; [|discriminate].
      intros [= <-]. reflexivity. }
  unfold pauseGate, bind, query, ret.
  destruct (Repo.getState _ _ (table w')) as [st|]; [|reflexivity].
  rewrite (G st eq_refl). reflexivity.
Qed.

Lemma resume_and_resolve_open_the_gate_witness :
  pauseGate Scenario.hotel Scenario.conv Scenario.busy_world
  = (Ret true, Scenario.busy_world)
  /\ pauseGate Scenario.hotel Scenario.conv
       (snd (intentRouter Scenario.deployment DEFAULTS (Scenario.guest_says "@boton")
               Scenario.busy_world))
     = (Ret false,
        snd (intentRouter Scenario.deployment DEFAULTS (Scenario.guest_says "@boton")
               Scenario.busy_world)).
Proof.
  split; [reflexivity|].
  exact (resume_and_resolve_open_the_gate Scenario.deployment DEFAULTS
           (Scenario.guest_says "@boton") Scenario.busy_world (or_introl eq_refl)).
Defined.


(** X16. [handleSoftEscalation] always answers
    [{escalated: true, mode: 'soft_watch'}]. Afterwards the conversation
    has a state with escalated and watch mode set; its pause fields and
    counters are the old ones (or the defaults when there was no row), so
    a soft escalation never pauses the bot: the pause gate's verdict is
    the same as before. *)
Theorem soft_escalation_marks_and_watches
  (e : env) (event : Event) (opts : SoftEscalationOpts) (w : world) :
  let w' := snd (handleSoftEscalation e event opts w) in
  fst (handleSoftEscalation e event opts w) = Ret (MkEscalated true "soft_watch")
  /\ Repo.getState (propertyId event) (conversationId event) (table w')
     = Some match Repo.getState (propertyId event) (conversationId event) (table w) with
            | Some st => Repo.MkState (Repo.s_paused st) (Repo.s_resume_at st) true true
                           (Repo.s_clarify_attempts st) (Repo.s_negative_count st)
            | None => Repo.MkState false None true true 0 0
            end
  /\ pauseGate (propertyId event) (conversationId event) w'
     = (fst (pauseGate (propertyId event) (conversationId event) w), w').
Proof.
  intros w'. split; [rewrite handleSoftEscalation_run; reflexivity|].
  pose proof (soft_escalation_state e event opts w) as S. fold w' in S.
  split; [exact S|].
  unfold pauseGate, bind, query, ret. rewrite S.
  destruct (Repo.getState _ _ (table w)) as [st|]; cbn [Repo.s_paused fst];
    [destruct (Repo.s_paused st)|]; reflexivity.
Qed.


Lemma welcome_payload (t : string) :
  existsb (fun i => String.eqb (toLowerCase (snd i)) t && negb (startsWith (snd i) "WELCOME_"))
    UI.getWelcomeQuickReplies
  = String.eqb "book a table" t.
Proof.
  unfold UI.getWelcomeQuickReplies. cbn [existsb snd].
  change (toLowerCase "Book a table") with "book a table".
  change (startsWith "Book a table" "WELCOME_") with false.
  change (startsWith "WELCOME_CHECKIN_INFO" "WELCOME_") with true.
  change (startsWith "WELCOME_BREAKFAST_HOURS" "WELCOME_") with true.
  cbn [negb]. rewrite !andb_false_r, andb_true_r, !orb_false_r. reflexivity.
Qed.

Lemma bind_run {A B} (m : M A) (f : A -> M B) (w w' : world) (a : A) :
  m w = (Ret a, w') -> bind m f w = f a w'.
Proof. intros H. unfold bind. rewrite H. reflexivity. Qed.

Lemma pauseGate_open (pid cid : string) (w : world) :
  (forall st, Repo.getState pid cid (table w) = Some st -> Repo.s_paused st = false) ->
  pauseGate pid cid w = (Ret false, w).
Proof.
  intros P. unfold pauseGate, bind, query, ret.
  destruct (Repo.getState pid cid (table w)) as [st|]; [|reflexivity].
  rewrite (P st eq_refl). reflexivity.
Qed.

Lemma welcome_shortcut_none (e : env) (event : Event) (w : world) :
  toLowerCase (text event) <> "book a table" ->
  welcome_shortcut e event w = (Ret None, w).
Proof.
  intros W. unfold welcome_shortcut. rewrite welcome_payload.
  destruct (String.eqb_spec "book a table" (toLowerCase (text event))) as [E | _];
    [symmetry in E; contradiction | reflexivity].
Qed.

Lemma active_flow_none (e : env) (event : Event) (w : world) :
  Repo.getServiceFlow (conversationId event) (table w) = None ->
  active_flow e event w = (Ret None, w).
Proof.
  intros F. unfold active_flow.
  rewrite (bind_run _ _ w w None); [reflexivity|]. unfold query. rewrite F. reflexivity.
Qed.

(** A message that is no command, of a conversation that is not paused
    and has no service flow going, and that is not the welcome menu's
    booking button, reaches the dispatch on intent. *)
Lemma router_reaches_dispatch (e : env) (opts : Options) (event : Event) (w : world) :
  parseCommand (text event) = None ->
  (forall st, Repo.getState (propertyId event) (conversationId event) (table w) = Some st ->
              Repo.s_paused st = false) ->
  toLowerCase (text event) <> "book a table" ->
  Repo.getServiceFlow (conversationId event) (table w) = None ->
  intentRouter e opts event w
  = dispatch e opts event
      (Repo.getState (propertyId event) (conversationId event) (table w))
      (decide e (text event)) w.
Proof.
  intros C P W F. unfold intentRouter. rewrite C.
  rewrite (bind_run _ _ w w false (pauseGate_open _ _ w P)).
  unfold route.
  rewrite (bind_run _ _ w w None (welcome_shortcut_none e event w W)).
  rewrite (bind_run (query _) _ w w _ eq_refl).
  rewrite (bind_run _ _ w w None (active_flow_none e event w F)).
  reflexivity.
Qed.


Lemma handleSoftEscalation_returns (e : env) (event : Event) (opts : SoftEscalationOpts)
  (w : world) :
  handleSoftEscalation e event opts w
  = (Ret (MkEscalated true "soft_watch"), snd (handleSoftEscalation e event opts w)).
Proof. rewrite handleSoftEscalation_run. reflexivity. Qed.

(** X17. A message that contains one of the escalate keywords, in a
    conversation that is not paused and has no service flow going (and
    that is neither a command nor the welcome menu's booking button), is
    soft-escalated with [issue: false] and answered with the
    human-escalation text: the router returns reason
    keyword_request_human, the only call after the escalation's is that
    reply, and the state afterwards is escalated, in watch mode and not
    paused. *)
Theorem asking_for_a_human_escalates (e : env) (opts : Options) (event : Event) (w : world) :
  parseCommand (text event) = None ->
  (forall st, Repo.getState (propertyId event) (conversationId event) (table w) = Some st ->
              Repo.s_paused st = false) ->
  toLowerCase (text event) <> "book a table" ->
  Repo.getServiceFlow (conversationId event) (table w) = None ->
  containsEscalateKeyword (text event) (escalate_keywords opts) = true ->
  let before := Repo.getState (propertyId event) (conversationId event) (table w) in
  let w1 := snd (handleSoftEscalation e event
                   (soft (d_intent (decide e (text event)))
                      (match before with Some s => Repo.s_negative_count s | None => 0 end)
                      event (Some false)) w) in
  intentRouter e opts event w
  = (Ret (Escalation true "soft_watch" "keyword_request_human"),
     MkWorld (table w1)
       (log w1 ++ [ReplyFromBot (conversationId event)
                     (UI.human_escalation (UI.UI (pickLang e (lang event)))) None]))
  /\ Repo.getState (propertyId event) (conversationId event) (table w1)
     = Some match before with
            | Some st => Repo.MkState false (Repo.s_resume_at st) true true
                           (Repo.s_clarify_attempts st) (Repo.s_negative_count st)
            | None => Repo.MkState false None true true 0 0
            end.
Proof.
  intros C P W F K before w1.
  rewrite (router_reaches_dispatch e opts event w C P W F).
  split.
  - unfold dispatch. cbv zeta. rewrite K. fold before.
    rewrite (bind_run _ _ w w1 _ (handleSoftEscalation_returns _ _ _ _)).
    reflexivity.
  - subst w1. rewrite soft_escalation_state. fold before.
    assert (P' : forall st, before = Some st -> Repo.s_paused st = false) by exact P.
    destruct before as [st|]; [|reflexivity].
    rewrite (P' st eq_refl). reflexivity.
Qed.

Lemma asking_for_a_human_escalates_witness :
  fst (intentRouter Scenario.deployment DEFAULTS (Scenario.guest_says "I want a human")
         Scenario.fresh_world)
  = Ret (Escalation true "soft_watch" "keyword_request_human").
Proof.
  refine (f_equal fst
            (proj1 (asking_for_a_human_escalates Scenario.deployment DEFAULTS
                      (Scenario.guest_says "I want a human") Scenario.fresh_world
                      eq_refl _ _ eq_refl eq_refl))).
  - intros st H. vm_compute in H. injection H as <-. reflexivity.
  - intros H. vm_compute in H. discriminate H.
Defined.

Lemma decide_negative_is_service (e : env) (text : string) :
  d_intent (decide e text) <> SERVICE -> d_negative (decide e text) = false.
Proof.
  unfold decide.
  destruct (detectService _) eqn:S, (detectNegative _) eqn:N; cbn [orb];
    try (intros H; exfalso; apply H; reflexivity).
  intros _. destruct (CHITCHAT_ENABLED e && isSmalltalk (trim text));
    [reflexivity|]. destruct (isQuestion _); reflexivity.
Qed.

(** X18. A message the classifier cannot place (intent UNKNOWN, no
    escalate keyword), in a conversation that is not paused and has no
    service flow going, is always soft-escalated. While fewer than
    max_clarify_attempts clarifications have been asked, the router asks
    one more (the first wording when none was asked yet, the second
    otherwise) and adds 1 to clarify_attempts; once the budget is used up
    it sends nothing more and leaves the counter as it is. *)
Theorem clarification_has_a_budget (e : env) (opts : Options) (event : Event) (w : world) :
  parseCommand (text event) = None ->
  (forall st, Repo.getState (propertyId event) (conversationId event) (table w) = Some st ->
              Repo.s_paused st = false) ->
  toLowerCase (text event) <> "book a table" ->
  Repo.getServiceFlow (conversationId event) (table w) = None ->
  containsEscalateKeyword (text event) (escalate_keywords opts) = false ->
  d_intent (decide e (text event)) = UNKNOWN ->
  let before := Repo.getState (propertyId event) (conversationId event) (table w) in
  let asked := match before with Some s => Repo.s_clarify_attempts s | None => 0 end in
  let w1 := snd (handleSoftEscalation e event
                   (soft UNKNOWN
                      (match before with Some s => Repo.s_negative_count s | None => 0 end)
                      event None) w) in
  intentRouter e opts event w
  = if max_clarify_attempts opts <=? asked
    then (Ret (Escalation true "soft_watch" "clarify_exhausted_soft"), w1)
    else (Ret (Escalation true "soft_watch" "clarify"),
          MkWorld (Repo.incrementClarify (propertyId event) (conversationId event) (table w1))
            (log w1 ++ [ReplyFromBot (conversationId event)
                          (if asked =? 0
                           then UI.clarify_generic_1 (UI.UI (pickLang e (lang event)))
                           else UI.clarify_generic_2 (UI.UI (pickLang e (lang event))))
                          None])).
Proof.
  intros C P W F K U before asked w1.
  rewrite (router_reaches_dispatch e opts event w C P W F).
  assert (N : d_negative (decide e (text event)) = false)
    by (apply decide_negative_is_service; rewrite U; discriminate).
  unfold dispatch. cbv zeta. rewrite K, U, N. fold before. fold asked.
  rewrite (bind_run _ _ w w1 _ (handleSoftEscalation_returns _ _ _ _)).
  destruct (max_clarify_attempts opts <=? asked); [reflexivity|].
  unfold bind, exec_sql, replyFromBot, emit, ret. cbn [table log].
  replace (asked + 1 =? 1) with (asked =? 0)
    by (destruct (Z.eqb_spec asked 0), (Z.eqb_spec (asked + 1) 1); try reflexivity; lia).
  reflexivity.
Qed.

Lemma clarification_has_a_budget_witness :
  fst (intentRouter Scenario.deployment DEFAULTS (Scenario.guest_says "hmm")
         Scenario.fresh_world)
  = Ret (Escalation true "soft_watch" "clarify").
Proof.
  refine (f_equal fst
            (clarification_has_a_budget Scenario.deployment DEFAULTS
               (Scenario.guest_says "hmm") Scenario.fresh_world
               eq_refl _ _ eq_refl eq_refl eq_refl)).
  - intros st H. vm_compute in H. injection H as <-. reflexivity.
  - intros H. vm_compute in H. discriminate H.
Defined.

End RouterPaths.


(* ------------------------------------------------------------------ *)
(** ** The confirm stage of the dialog *)
(* ------------------------------------------------------------------ *)

Section ConfirmStage.
Import JS Regex World Config Flow Service.

Lemma slot_step_confirm (e : env) (cid message key : string) (flow : FlowState) :
  next flow = Some "confirm" ->
  slot_step e cid message key flow
  = confirm_step e cid message key flow (required_of flow key) (collected flow).
Proof. intros H. unfold slot_step. rewrite H. reflexivity. Qed.

(** A message for a stored flow of the slot-filling shape goes to its
    current step. *)
Lemma handleService_in_flow (e : env) (req : ServiceRequest) (w : world)
  (flow : FlowState) (key : string) :
  truthy (trim (match nonempty (norm req) with Some n => n | None => text req end)) = true ->
  Repo.getServiceFlow (conversationId req) (table w) = Some flow ->
  pending flow = None ->
  nonempty (service_key flow) = Some key ->
  handleService e req w
  = slot_step e (conversationId req)
      (trim (match nonempty (norm req) with Some n => n | None => text req end)) key flow w.
Proof.
  intros T F P K. unfold handleService. cbv zeta. rewrite T. cbn [negb].
  unfold bind at 1. unfold query. rewrite F, P, K. reflexivity.
Qed.

Lemma getServiceFlow_cleared (cid : string) (t : Repo.Table) :
  Repo.getServiceFlow cid (Repo.setServiceFlow cid None t) = None.
Proof.
  unfold Repo.getServiceFlow, Repo.setServiceFlow, Repo.update.
  induction t as [|r t IH]; [reflexivity|]. cbn [map find].
  destruct (Repo.is_conv cid r) eqn:C.
  - unfold Repo.is_conv in *. cbn. rewrite C. reflexivity.
  - rewrite C. exact IH.
Qed.

(** X19. At the confirm stage of a service flow, a message that is [yes]
    or [y] (in any case, spaces around it aside) completes the request: the stored flow is cleared, the conversation
    gets the labels service_request, svc_<key> and needs_staff and the
    priority high, staff get a private note with the service key and the
    collected values, and the reply to the guest starts with [Got it];
    nothing else is stored or sent by the handler. *)
Theorem confirming_hands_the_request_to_staff (e : env) (req : ServiceRequest) (w : world)
  (flow : FlowState) (key : string) :
  let message := trim (match nonempty (norm req) with Some n => n | None => text req end) in
  let cid := conversationId req in
  truthy message = true ->
  Repo.getServiceFlow cid (table w) = Some flow ->
  pending flow = None ->
  nonempty (service_key flow) = Some key ->
  next flow = Some "confirm" ->
  test true rx_yes (toLowerCase message) = true ->
  let w' := snd (handleService e req w) in
  table w' = Repo.setServiceFlow cid None (table w)
  /\ Repo.getServiceFlow cid (table w') = None
  /\ log w' = (log w ++ [AddLabels cid ["service_request"; ("svc_" ++ toLowerCase key)%string;
                                         "needs_staff"];
                         UpdatePriority cid "high";
                         PrivateMessage cid ("👀 Completed " ++ key ++ " — "
                                             ++ summary_of (collected flow))%string])%list
  /\ exists r, fst (handleService e req w) = Ret r
               /\ handled r = true /\ escalate r = false
               /\ option_map (fun t => startsWith t "Got it") (reply r) = Some true.
Proof.
  intros message cid T F P K N Y w'. subst w'.
  rewrite (handleService_in_flow e req w flow key T F P K).
  fold message cid. rewrite (slot_step_confirm _ _ _ _ _ N).
  unfold confirm_step. cbv zeta. rewrite Y.
  assert (Q : forall text x, maybeSendMessengerQR e cid text [] x = (Ret false, x)).
  { intros text x. unfold maybeSendMessengerQR. destruct (negb _); reflexivity. }
  unfold bind, attempt, emit, setState, exec_sql, ret. cbn [table log].
  rewrite Q. cbn [fst snd table log].
  split; [reflexivity|]. split; [apply getServiceFlow_cleared|].
  split; [rewrite <- !app_assoc; reflexivity|].
  eexists. split; [reflexivity|]. cbn [handled escalate reply option_map].
  split; [reflexivity|]. split; reflexivity.
Qed.

Lemma confirming_hands_the_request_to_staff_witness :
  Repo.getServiceFlow Scenario.conv (table Cases.at_confirm) = Some Cases.confirm_flow
  /\ Repo.getServiceFlow Scenario.conv
       (table (snd (handleService Scenario.deployment (Cases.says " Yes ")
                      Cases.at_confirm)))
     = None.
Proof.
  split; [vm_compute; reflexivity|].
  refine (proj1 (proj2 (confirming_hands_the_request_to_staff Scenario.deployment
                          (Cases.says " Yes ") Cases.at_confirm Cases.confirm_flow
                          "BOOK_TABLE" _ _ _ _ _ _)));
    vm_compute; reflexivity.
Defined.


Lemma maybeSendMessengerQR_table (e : env) (cid text : string) (qrs : list (string * string))
  (x : world) :
  table (snd (maybeSendMessengerQR e cid text qrs x)) = table x.
Proof.
  unfold maybeSendMessengerQR. destruct (negb _); [reflexivity|].
  destruct qrs; [reflexivity|]. destruct (nonempty _); reflexivity.
Qed.

Lemma say_table (e : env) (cid text : string) (qrs : list (string * string))
  (key : option string) (step : string) (x : world) :
  table (snd (say e cid text qrs key step x)) = table x.
Proof.
  unfold say, bind. pose proof (maybeSendMessengerQR_table e cid text qrs x) as T.
  destruct (maybeSendMessengerQR e cid text qrs x) as [[[]|] y]; exact T.
Qed.

Lemma getServiceFlow_stored (cid : string) (f : option FlowState) (t : Repo.Table)
  (f0 : FlowState) :
  Repo.getServiceFlow cid t = Some f0 ->
  Repo.getServiceFlow cid (Repo.setServiceFlow cid f t) = f.
Proof.
  unfold Repo.getServiceFlow, Repo.setServiceFlow, Repo.update.
  induction t as [|r t IH]; [discriminate|]. cbn [map find].
  destruct (Repo.is_conv cid r) eqn:C.
  - intros _. unfold Repo.is_conv in *. cbn. rewrite C. reflexivity.
  - rewrite C. exact IH.
Qed.

(** X20. At the confirm stage, a message other than [yes] or [y]
    completes nothing. If it is [no] or [n], the flow starts over: the
    collected values are dropped and the next slot is the first required
    one. Any other message leaves the stored flow as it is, still waiting
    for the confirmation. *)
Theorem declining_restarts_the_flow (e : env) (req : ServiceRequest) (w : world)
  (flow : FlowState) (key : string) :
  let message := trim (match nonempty (norm req) with Some n => n | None => text req end) in
  let cid := conversationId req in
  truthy message = true ->
  Repo.getServiceFlow cid (table w) = Some flow ->
  pending flow = None ->
  nonempty (service_key flow) = Some key ->
  next flow = Some "confirm" ->
  test true rx_yes (toLowerCase message) = false ->
  let w' := snd (handleService e req w) in
  let restart := MkFlow None (step flow) (service_key flow) (Some (required_of flow key))
                   [] (hd_error (required_of flow key)) (pending_time_raw flow) in
  Repo.getServiceFlow cid (table w')
  = Some (if test true rx_no (toLowerCase message) then restart else flow).
Proof.
  intros message cid T F P K N Y w' restart. subst w'.
  rewrite (handleService_in_flow e req w flow key T F P K).
  fold message cid. rewrite (slot_step_confirm _ _ _ _ _ N).
  unfold confirm_step. cbv zeta. rewrite Y.
  destruct (test true rx_no (toLowerCase message)).
  - unfold bind at 1. unfold setState, exec_sql.
    destruct (buildPrompt _ _) as [ptext qrs]. rewrite say_table. cbn [table].
    rewrite (getServiceFlow_stored _ _ _ _ F). subst restart. rewrite P. reflexivity.
  - rewrite say_table. exact F.
Qed.

Lemma declining_restarts_the_flow_witness :
  Repo.getServiceFlow Scenario.conv
    (table (snd (handleService Scenario.deployment (Cases.says "no") Cases.at_confirm)))
  = Some (MkFlow None None (Some "BOOK_TABLE") (Some ["guests"; "time"; "date"; "name"])
            [] (Some "guests") None).
Proof.
  refine (declining_restarts_the_flow Scenario.deployment (Cases.says "no")
            Cases.at_confirm Cases.confirm_flow "BOOK_TABLE" _ _ _ _ _ _);
    vm_compute; reflexivity.
Defined.

End ConfirmStage.


(* ------------------------------------------------------------------ *)
(** ** Classifying and planning *)
(* ------------------------------------------------------------------ *)

Section Classifying.
Import JS Config Escalation Decision Events.

Lemma trim_normalize (t : string) : trim (normalize t) = normalize t.
Proof. unfold normalize. apply trim_idem. Qed.

(** X21. [decide] depends on the text only through its lower-cased,
    trimmed form. The negative flag it returns is set exactly when that
    form contains one of the negative keywords, and a negative message is
    always classified SERVICE with confidence 0.9. *)
Theorem decide_reads_the_normalized_text (e : env) (text : string) :
  decide e text = decide e (normalize text)
  /\ (d_negative (decide e text) = true
      <-> exists k, In k negatives /\ exists pre post, normalize text = pre ++ k ++ post)
  /\ (d_negative (decide e text) = true ->
      d_intent (decide e text) = SERVICE /\ d_confidence (decide e text) = 9 # 10).
Proof.
  split; [|split].
  - unfold decide, isSmalltalk.
    rewrite trim_normalize, !normalize_trim, !normalize_idem. reflexivity.
  - assert (N : d_negative (decide e text) = detectNegative (normalize (trim text))).
    { unfold decide. destruct (_ || _); [reflexivity|].
      destruct (_ && _); [reflexivity|]. destruct (isQuestion _); reflexivity. }
    rewrite N, normalize_trim. unfold detectNegative. rewrite normalize_idem.
    exact (existsb_includes (normalize text) negatives).
  - unfold decide. destruct (detectService _) eqn:S, (detectNegative _) eqn:N; cbn [orb];
      try (intros _; split; reflexivity).
    destruct (_ && _); [cbn; discriminate|]. destruct (isQuestion _); cbn; discriminate.
Qed.

(** X22. On the decisions [decide] produces, [planAction] escalates
    exactly the intents SERVICE and UNKNOWN and replies to FAQ and
    CHITCHAT: the low-confidence-FAQ escalation never applies, since
    [decide] gives every FAQ the confidence 0.85, above the threshold. *)
Theorem plan_follows_the_intent (e : env) (text : string) :
  isLowConfidenceFAQ (decide e text) = false
  /\ planAction (decide e text)
     = match d_intent (decide e text) with
       | SERVICE => ESCALATE SERVICE
       | UNKNOWN => ESCALATE UNKNOWN
       | FAQ => REPLY FAQ
       | CHITCHAT => REPLY CHITCHAT
       end.
Proof.
  unfold planAction, isLowConfidenceFAQ, decide. cbv zeta.
  destruct (detectService _ || detectNegative _) eqn:S; [split; reflexivity|].
  apply orb_false_iff in S. destruct S as [_ N]. rewrite N.
  destruct (CHITCHAT_ENABLED e && isSmalltalk (trim text)); [split; reflexivity|].
  destruct (isQuestion _); split; reflexivity.
Qed.

End Classifying.

(* ------------------------------------------------------------------ *)
(** ** Weekday arithmetic *)
(* ------------------------------------------------------------------ *)

Section Weekdays.
Import DateJS Parser.

Lemma local_day_midnight (k : clock) (t j : Z) :
  local_day k (local_midnight k t + j * msPerDay) = local_day k t + j.
Proof.
  unfold local_midnight, local_day at 1, msPerDay.
  replace (local_day k t * 86400000 - tz k * 60000 + j * 86400000 + tz k * 60000)
    with ((local_day k t + j) * 86400000) by ring.
  apply Z.div_mul. discriminate.
Qed.

Lemma local_day_of_midnight (k : clock) (t : Z) :
  local_day k (local_midnight k t) = local_day k t.
Proof.
  pose proof (local_day_midnight k t 0) as H. change (0 * msPerDay) with 0 in H.
  rewrite !Z.add_0_r in H. exact H.
Qed.

Lemma local_day_addDays (k : clock) (t j : Z) :
  local_day k (addDays k (local_midnight k t) j) = local_day k t + j.
Proof.
  unfold addDays. rewrite local_day_of_midnight. apply local_day_midnight.
Qed.

Lemma addDays_midnight (k : clock) (t j : Z) :
  addDays k (local_midnight k t) j = local_midnight k t + j * msPerDay.
Proof.
  unfold addDays. unfold local_midnight at 1. rewrite local_day_midnight.
  unfold local_midnight. ring.
Qed.

Lemma weekday_reached (L n : Z) :
  0 <= n <= 6 -> (L + 4 + (n - (L + 4) mod 7 + 7) mod 7) mod 7 = n.
Proof.
  intros Hn. rewrite Z.add_mod_idemp_r by lia.
  pose proof (Z.mod_pos_bound (L + 4) 7 ltac:(lia)) as B.
  replace (L + 4 + (n - (L + 4) mod 7 + 7)) with (n + (((L + 4) / 7 + 1) * 7))
    by (pose proof (Z.div_mod (L + 4) 7 ltac:(lia)); lia).
  rewrite Z.mod_add by lia. apply Z.mod_small. lia.
Qed.

(** X23. For a weekday index from 0 (Sunday) to 6, and local time at a
    fixed offset from UTC, [nextWeekday] returns the local midnight of the
    first day from today on that falls on that weekday, today included
    (0 to 6 days ahead), and [nextWeekdayStrict] the first such day from a
    week ahead on (7 to 13 days ahead). *)
Theorem nextWeekday_is_the_next_such_day (k : clock) (n : Z) :
  0 <= n <= 6 ->
  (exists d delta,
     nextWeekday k (Num n) = Some d
     /\ d = today k + delta * msPerDay
     /\ local_day k d = local_day k (now k) + delta
     /\ 0 <= delta <= 6
     /\ getDay k d = n)
  /\ (exists d delta,
        nextWeekdayStrict k (Num n) = Some d
        /\ d = today k + delta * msPerDay
        /\ local_day k d = local_day k (now k) + delta
        /\ 7 <= delta <= 13
        /\ getDay k d = n).
Proof.
  intros Hn.
  assert (G0 : getDay k (today k) = (local_day k (now k) + 4) mod 7)
    by (unfold getDay, today; rewrite local_day_of_midnight; reflexivity).
  split.
  - unfold nextWeekday. rewrite G0.
    set (L := local_day k (now k)).
    set (diff := (n - (L + 4) mod 7 + 7) mod 7).
    assert (D : 0 <= diff < 7) by (apply Z.mod_pos_bound; lia).
    replace (if diff =? 0 then 0 else diff) with diff
      by (destruct (Z.eqb_spec diff 0); lia).
    exists (addDays k (today k) diff), diff.
    split; [reflexivity|]. unfold today.
    split; [apply addDays_midnight|].
    split; [apply local_day_addDays|]. split; [lia|].
    unfold getDay. rewrite local_day_addDays. fold L. subst diff.
    replace (L + (n - (L + 4) mod 7 + 7) mod 7 + 4)
      with (L + 4 + (n - (L + 4) mod 7 + 7) mod 7) by ring.
    apply weekday_reached, Hn.
  - unfold nextWeekdayStrict.
    assert (B0 : addDays k (today k) 7 = local_midnight k (now k) + 7 * msPerDay)
      by (unfold today; apply addDays_midnight).
    assert (LB : local_day k (addDays k (today k) 7) = local_day k (now k) + 7)
      by (unfold today; apply local_day_addDays).
    assert (B1 : addDays k (today k) 7 = local_midnight k (addDays k (today k) 7)).
    { unfold local_midnight. rewrite LB. rewrite B0. unfold local_midnight. ring. }
    assert (GB : getDay k (addDays k (today k) 7) = (local_day k (now k) + 7 + 4) mod 7)
      by (unfold getDay; rewrite LB; reflexivity).
    rewrite GB.
    set (L := local_day k (now k)) in *.
    set (diff := (n - (L + 7 + 4) mod 7 + 7) mod 7).
    assert (D : 0 <= diff < 7) by (apply Z.mod_pos_bound; lia).
    exists (addDays k (addDays k (today k) 7) diff), (7 + diff).
    split; [reflexivity|].
    assert (LD : local_day k (addDays k (addDays k (today k) 7) diff) = L + (7 + diff)).
    { rewrite B1, local_day_addDays, LB. ring. }
    split.
    { rewrite B1, addDays_midnight, <- B1, B0. unfold today. ring. }
    split; [exact LD|]. split; [lia|].
    unfold getDay. rewrite LD. subst diff.
    replace (L + (7 + (n - (L + 7 + 4) mod 7 + 7) mod 7) + 4)
      with (L + 7 + 4 + (n - (L + 7 + 4) mod 7 + 7) mod 7) by ring.
    apply weekday_reached, Hn.
Qed.

Lemma nextWeekday_is_the_next_such_day_witness :
  exists d delta,
    nextWeekday Scenario.monday_morning (Num 5) = Some d
    /\ d = today Scenario.monday_morning + delta * msPerDay
    /\ local_day Scenario.monday_morning d
       = local_day Scenario.monday_morning (now Scenario.monday_morning) + delta
    /\ 0 <= delta <= 6
    /\ getDay Scenario.monday_morning d = 5.
Proof.
  apply (nextWeekday_is_the_next_such_day Scenario.monday_morning 5). lia.
Defined.

End Weekdays.


(* ------------------------------------------------------------------ *)
(** ** Fuzzy weekday and month names *)
(* ------------------------------------------------------------------ *)

Section FuzzyNames.
Import JS DateJS Parser.

Lemma assoc_in {A} (w : string) (t : list (string * A)) (v : A) :
  assoc w t = Some v -> In (w, v) t.
Proof.
  induction t as [|[k x] t IH]; cbn; [discriminate|].
  destruct (String.eqb_spec w k) as [-> | _].
  - intros [= ->]. left. reflexivity.
  - intros H. right. exact (IH H).
Qed.

Lemma lookup_num (t : list (string * Z)) (w : string) (n lo hi : Z) :
  forallb (fun kv => (lo <=? snd kv) && (snd kv <=? hi)) t = true ->
  lookup t w = Num n -> lo <= n <= hi.
Proof.
  intros F. unfold lookup. destruct (assoc w t) as [v|] eqn:A.
  - intros [= <-]. apply assoc_in in A. rewrite forallb_forall in F.
    specialize (F _ A). cbn in F. apply andb_true_iff in F. lia.
  - destruct (mem w prototype_keys); discriminate.
Qed.

Lemma lookup_inherited (t : list (string * Z)) (w : string) :
  forallb (fun kv => negb (mem (fst kv) prototype_keys)) t = true ->
  (lookup t w = Inherited <-> mem w prototype_keys = true).
Proof.
  intros F. unfold lookup. destruct (assoc w t) as [v|] eqn:A.
  - apply assoc_in in A. rewrite forallb_forall in F. specialize (F _ A). cbn [fst] in F.
    apply negb_true_iff in F. rewrite F. split; discriminate.
  - destruct (mem w prototype_keys); split; (reflexivity || discriminate).
Qed.

Lemma closest_index (w : string) (names : list string) (i : Z) (best : option (Z * nat))
  (lo : Z) (idx : Z) (d : nat) :
  lo <= i ->
  (forall b bd, best = Some (b, bd) -> lo <= b < i) ->
  closest w names i best = Some (idx, d) ->
  lo <= idx < i + Z.of_nat (List.length names).
Proof.
  revert i best. induction names as [|n names IH]; intros i best Hi Hb; cbn [closest].
  - intros E. specialize (Hb _ _ E). cbn. lia.
  - intros E. apply IH in E; [cbn [List.length] in *; lia | lia |].
    intros b bd. destruct best as [[b0 bd0]|].
    + destruct (Nat.ltb (lev w n) bd0).
      * intros [= <- <-]. lia.
      * intros E'. specialize (Hb _ _ E'). lia.
    + intros [= <- <-]. lia.
Qed.

Lemma first_month_index (w : string) (names : list string) (i idx : Z) :
  first_month w names i = Some (Num idx) ->
  i <= idx < i + Z.of_nat (List.length names).
Proof.
  revert i. induction names as [|n names IH]; intros i; cbn [first_month]; [discriminate|].
  destruct (_ || _).
  - intros [= <-]. cbn [List.length]. lia.
  - intros E. apply IH in E. cbn [List.length]. lia.
Qed.

Lemma first_month_num (w : string) (names : list string) (i : Z) :
  first_month w names i <> Some Inherited /\ first_month w names i <> Some Undefined.
Proof.
  revert i. induction names as [|n names IH]; intros i; cbn [first_month];
    [split; discriminate|].
  destruct (_ || _); [split; discriminate | apply IH].
Qed.

(** X24. Whatever the word, a number that [fuzzyWeekday] returns is an
    index into the seven weekday names (0 to 6), and one that [fuzzyMonth]
    returns an index into the twelve month names (0 to 11). Each of them
    returns an inherited property of the lookup table instead of a number
    exactly when the lower-cased word is the name of such a property
    ([constructor], [toString], ...). *)
Theorem fuzzy_names_give_valid_indices (word : string) :
  (forall i, fuzzyWeekday word = Some (Num i) ->
             0 <= i <= 6 /\ nth_error WEEKDAYS (Z.to_nat i) <> None)
  /\ (forall i, fuzzyMonth word = Some (Num i) ->
                0 <= i <= 11 /\ nth_error MONTHS (Z.to_nat i) <> None)
  /\ (fuzzyWeekday word = Some Inherited <-> mem (toLowerCase word) prototype_keys = true)
  /\ (fuzzyMonth word = Some Inherited <-> mem (toLowerCase word) prototype_keys = true).
Proof.
  assert (W : forall i, 0 <= i <= 6 -> nth_error WEEKDAYS (Z.to_nat i) <> None).
  { intros i Hi. apply nth_error_Some. cbn. lia. }
  assert (M : forall i, 0 <= i <= 11 -> nth_error MONTHS (Z.to_nat i) <> None).
  { intros i Hi. apply nth_error_Some. cbn. lia. }
  split; [|split; [|split]].
  - intros i. unfold fuzzyWeekday.
    destruct (lookup WEEKDAY_ABBR (toLowerCase word)) as [n| |] eqn:L.
    + intros [= <-].
      pose proof (lookup_num WEEKDAY_ABBR _ n 0 6 eq_refl L) as B. split; [exact B | apply W, B].
    + discriminate.
    + destruct (closest _ WEEKDAYS 0 None) as [[idx d]|] eqn:C; [|discriminate].
      destruct (Nat.leb d 2); [|discriminate]. intros [= <-].
      apply (closest_index _ _ _ _ 0) in C; [|lia|discriminate].
      cbn in C. assert (B : 0 <= idx <= 6) by lia. split; [exact B | apply W, B].
  - intros i. unfold fuzzyMonth.
    destruct (lookup MONTH_ABBR (toLowerCase word)) as [n| |] eqn:L.
    + intros [= <-].
      pose proof (lookup_num MONTH_ABBR _ n 0 11 eq_refl L) as B. split; [exact B | apply M, B].
    + discriminate.
    + intros E. apply first_month_index in E. cbn in E.
      assert (B : 0 <= i <= 11) by lia. split; [exact B | apply M, B].
  - unfold fuzzyWeekday.
    pose proof (lookup_inherited WEEKDAY_ABBR (toLowerCase word) eq_refl) as I.
    destruct (lookup WEEKDAY_ABBR (toLowerCase word)) as [n| |] eqn:L.
    + rewrite <- I. split; discriminate.
    + rewrite <- I. split; reflexivity.
    + rewrite <- I. split; [|discriminate].
      destruct (closest _ _ _ _) as [[idx d]|]; [destruct (Nat.leb d 2)|]; discriminate.
  - unfold fuzzyMonth.
    pose proof (lookup_inherited MONTH_ABBR (toLowerCase word) eq_refl) as I.
    destruct (lookup MONTH_ABBR (toLowerCase word)) as [n| |] eqn:L.
    + rewrite <- I. split; discriminate.
    + rewrite <- I. split; reflexivity.
    + rewrite <- I. split; [|discriminate].
      intros E. exfalso. exact (proj1 (first_month_num _ _ _) E).
Qed.

End FuzzyNames.


(* ------------------------------------------------------------------ *)
(** ** The validator's accepted slots *)
(* ------------------------------------------------------------------ *)

Section ValidSlots.
Import JS Regex Parser Validator.

Lemma to24h_iso (time hint : option string) (out : string) :
  to24h time hint = Some out -> isIsoTime (Some out) = true.
Proof.
  unfold to24h. destruct time as [t|]; [|discriminate].
  destruct (exec false rx_bare_hour t) as [m|]; [|discriminate].
  cbv zeta. destruct (isIsoTime (Some _)) eqn:I; [|discriminate].
  intros [= <-]. exact I.
Qed.

Lemma given_datetime_iso (parses : string -> bool) (x : option string) (d : string) :
  given_datetime parses x = Some d -> isIsoDateTime parses (Some d) = true.
Proof.
  unfold given_datetime. destruct (trimmed x) as [g|]; [|discriminate].
  destruct (isIsoDateTime parses (Some g)) eqn:I; [intros [= <-]; exact I|].
  cbv zeta. destruct (test false rx_partial_datetime g); [|discriminate].
  destruct (isIsoDateTime parses (Some (g ++ ":00"))) eqn:J; [|discriminate].
  intros [= <-]. exact J.
Qed.

Lemma given_datetime_kept (parses : string -> bool) (x : option string) (g : string) :
  trimmed x = Some g -> isIsoDateTime parses (Some g) = true ->
  given_datetime parses x = Some g.
Proof. intros T I. unfold given_datetime. rewrite T, I. reflexivity. Qed.

(** What an accepted validation has gone through. *)
Lemma accepted_slots (parses : string -> bool) (slots : LlmBookingSlots) (minConfidence : option Q)
  (isKnownService : option (string -> bool)) (n : NormalizedBooking) :
  validateBookingSlots parses (Some slots) minConfidence isKnownService = Valid n ->
  let conf := match confidence slots with Some c => c | None => 0%Q end in
  let service := trim (str_or (service slots) "") in
  let date := trimmed (first_of (date slots) (date_only slots)) in
  let time := to24h (trimmed (first_of (time slots) (time_only slots))) (ampm_hint slots) in
  let given := given_datetime parses (datetime slots) in
  at_least conf minConfidence = true
  /\ truthy service = true
  /\ (forall known, isKnownService = Some known -> known service = true)
  /\ (given = None -> date = None \/ isIsoDate date = true)
  /\ timeLooksAmbiguous time (ampm_hint slots) = false
  /\ n = MkNormalized service
           (if isIsoDate date then date else None)
           (if isIsoTime time then time else None)
           (match given with
            | Some d => Some d
            | None => if isIsoDate date && isIsoTime time then combineDateTime date time
                      else None
            end)
           (lowered (language slots))
           (match flex_approx slots with Some true => true | _ => false end)
           conf.
Proof.
  unfold validateBookingSlots. cbv zeta.
  destruct (at_least _ minConfidence) eqn:C; cbn [negb]; [|discriminate].
  destruct (truthy (trim (str_or (service slots) ""))) eqn:S; cbn [negb]; [|discriminate].
  destruct (match isKnownService with
            | Some known => negb (known (trim (str_or (service slots) "")))
            | None => false
            end) eqn:K; [discriminate|].
  assert (K' : forall known, isKnownService = Some known ->
                             known (trim (str_or (service slots) "")) = true).
  { intros known ->. destruct (known _); [reflexivity | discriminate K]. }
  generalize (trimmed (first_of (Validator.date slots) (date_only slots))) as date.
  generalize (trimmed (first_of (Validator.time slots) (time_only slots))) as timeRaw.
  generalize (given_datetime parses (datetime slots)) as given.
  intros given timeRaw date.
  assert (R : forall X : ValidationOutcome,
             match timeRaw, to24h timeRaw (ampm_hint slots) with
             | Some _, None => Invalid "bad_time_format" (Some "time_period")
             | _, _ => X
             end = Valid n -> X = Valid n).
  { intros X. destruct (to24h timeRaw (ampm_hint slots)), timeRaw; try discriminate;
      exact (fun H => H). }
  intros H. apply R in H. clear R. revert H.
  generalize (to24h timeRaw (ampm_hint slots)) as time. intros time.
  destruct given as [g|].
  - destruct (timeLooksAmbiguous time (ampm_hint slots)) eqn:A; [discriminate|].
    intros [= <-]. repeat split; try assumption. discriminate.
  - destruct date as [d|].
    + destruct (isIsoDate (Some d)) eqn:D; cbn [andb negb]; [|discriminate].
      assert (E : match (if isIsoTime time then combineDateTime (Some d) time else None) with
                  | Some _ => false
                  | None => false
                  end = false)
        by (destruct (if isIsoTime time then _ else _); reflexivity).
      rewrite E.
      destruct (match (if isIsoTime time then combineDateTime (Some d) time else None) with
                | Some _ => false
                | None => match time with Some _ => negb (isIsoTime time) | None => false end
                end); [discriminate|].
      destruct (timeLooksAmbiguous time (ampm_hint slots)) eqn:A; [discriminate|].
      intros [= <-]. repeat split; try assumption. right. reflexivity.
    + change (isIsoDate None) with false. cbn [andb].
      destruct (match time with Some _ => negb (isIsoTime time) | None => false end);
        [discriminate|].
      destruct (timeLooksAmbiguous time (ampm_hint slots)) eqn:A; [discriminate|].
      intros [= <-]. repeat split; try assumption. left. reflexivity.
Qed.

Lemma combine_iso (d t : string) :
  isIsoDate (Some d) = true -> isIsoTime (Some t) = true ->
  combineDateTime (Some d) (Some t) = Some (d ++ "T" ++ t ++ ":00").
Proof. intros D T. unfold combineDateTime. rewrite D, T. reflexivity. Qed.

(** X25. When [validateBookingSlots] accepts slots, the confidence is at
    least the minimum, the service is the trimmed, non-empty one and known
    to the caller's predicate if there is one, the date (from [date], else
    [date_only]) is absent or of the form YYYY-MM-DD, the time is the
    24-hour reading of the given time (from [time], else [time_only];
    absent or HH:MM with HH below 24 and MM below 60) and not ambiguous
    between morning and evening.  A given datetime that is an ISO datetime
    for the pattern and the engine is kept as it is; a datetime in the
    result is such an ISO datetime or else date, T, time and :00; and when
    the given datetime is unusable or absent, the result has one exactly
    when it has both date and time. *)
Theorem valid_slots_are_well_formed
  (parses : string -> bool) (slots : LlmBookingSlots) (minConfidence : option Q)
  (isKnownService : option (string -> bool)) (n : NormalizedBooking) :
  validateBookingSlots parses (Some slots) minConfidence isKnownService = Valid n ->
  at_least (n_confidence n) minConfidence = true
  /\ n_service n = trim (str_or (service slots) "")
  /\ truthy (n_service n) = true
  /\ (forall known, isKnownService = Some known -> known (n_service n) = true)
  /\ (n_date n = None \/ isIsoDate (n_date n) = true)
  /\ (n_time n = None \/ isIsoTime (n_time n) = true)
  /\ timeLooksAmbiguous (n_time n) (ampm_hint slots) = false
  /\ n_time n = to24h (trimmed (first_of (time slots) (time_only slots))) (ampm_hint slots)
  /\ (forall g, trimmed (datetime slots) = Some g -> isIsoDateTime parses (Some g) = true ->
                n_datetime n = Some g)
  /\ (forall g, n_datetime n = Some g ->
                isIsoDateTime parses (Some g) = true
                \/ exists d t, n_date n = Some d /\ n_time n = Some t
                               /\ g = d ++ "T" ++ t ++ ":00")
  /\ (given_datetime parses (datetime slots) = None ->
      n_datetime n = match n_date n, n_time n with
                     | Some d, Some t => Some (d ++ "T" ++ t ++ ":00")
                     | _, _ => None
                     end).
Proof.
  intros H. destruct (accepted_slots _ _ _ _ _ H) as (C & S & K & D & A & ->). clear H.
  cbn [n_service n_date n_time n_datetime n_confidence].
  set (date := trimmed (first_of (Validator.date slots) (date_only slots))) in *.
  set (time := to24h (trimmed (first_of (Validator.time slots) (time_only slots)))
                 (ampm_hint slots)) in *.
  assert (T : time = None \/ isIsoTime time = true).
  { destruct time as [t|] eqn:E; [right | left; reflexivity].
    exact (to24h_iso _ _ _ E). }
  assert (Nt : (if isIsoTime time then time else None) = time).
  { destruct T as [-> | ->]; reflexivity. }
  rewrite Nt.
  split; [exact C|]. split; [reflexivity|]. split; [exact S|]. split; [exact K|].
  split; [destruct (isIsoDate date) eqn:I; [right; exact I | left; reflexivity]|].
  split; [exact T|]. split; [exact A|]. split; [reflexivity|].
  assert (B : (if isIsoDate date && isIsoTime time then combineDateTime date time else None)
              = match (if isIsoDate date then date else None), time with
                | Some d, Some t => Some (d ++ "T" ++ t ++ ":00")
                | _, _ => None
                end).
  { destruct (isIsoDate date) eqn:I; cbn [andb]; [|reflexivity].
    destruct date as [d|]; [|discriminate I].
    destruct time as [t|]; [|reflexivity].
    destruct T as [T | T]; [discriminate T|]. rewrite T. apply combine_iso; assumption. }
  split; [|split].
  - intros g Tg Ig. rewrite (given_datetime_kept _ _ _ Tg Ig). reflexivity.
  - intros g. destruct (given_datetime parses (datetime slots)) as [g'|] eqn:G.
    + intros [= <-]. left. exact (given_datetime_iso _ _ _ G).
    + rewrite B. destruct (if isIsoDate date then date else None) as [d|]; [|discriminate].
      destruct time as [t|]; [|discriminate].
      intros [= <-]. right. exists d, t. repeat split.
  - intros ->. exact B.
Qed.

Lemma valid_slots_are_well_formed_witness :
  validateBookingSlots (fun _ => true) (Some Cases.good_slots) (Some (7 # 10))
    (Some (fun _ => true))
  = Valid (MkNormalized "BOOK_TABLE" (Some "2026-11-06") (Some "20:00")
             (Some "2025-09-03T19:00:00Z") (Some "en") false (9 # 10))
  /\ isIsoTime (Some "20:00") = true.
Proof.
  split; [vm_compute; reflexivity|].
  destruct (proj1 (proj2 (proj2 (proj2 (proj2 (proj2
              (valid_slots_are_well_formed (fun _ => true) Cases.good_slots (Some (7 # 10))
                 (Some (fun _ => true))
                 (MkNormalized "BOOK_TABLE" (Some "2026-11-06") (Some "20:00")
                    (Some "2025-09-03T19:00:00Z") (Some "en") false (9 # 10))
                 eq_refl))))))) as [H | H]; [discriminate H | exact H].
Defined.

End ValidSlots.


(* ------------------------------------------------------------------ *)
(** ** The language-model prefill *)
(* ------------------------------------------------------------------ *)

Section LlmPrefill.
Import JS Parser Config Validator Service.

Lemma low_confidence_without_a_score
  (parses : string -> bool) (slots : LlmBookingSlots) (minConfidence : option Q)
  (isKnownService : option (string -> bool)) :
  confidence slots = None ->
  at_least 0 minConfidence = false ->
  validateBookingSlots parses (Some slots) minConfidence isKnownService
  = Invalid "low_confidence" None.
Proof.
  intros N H. unfold validateBookingSlots. rewrite N, H. reflexivity.
Qed.

(** X26. The language-model prefill passes the model's answer to the
    validator without a confidence score, so the validator reads 0: unless
    WHEN_LLM_MIN_CONFIDENCE is at most 0 (the default is 0.7), the answer
    is rejected as low_confidence and [prefillFromMessage] returns exactly
    what the local parsers found, whether LLM_SLOT_PREFILL is on or off
    and whatever the model answered. *)
Theorem llm_prefill_needs_zero_confidence (e : env) (text serviceKey : string) :
  at_least 0 (WHEN_LLM_MIN_CONFIDENCE e) = false ->
  prefillFromMessage e text serviceKey = prefill_local (clk e) text.
Proof.
  intros H. unfold prefillFromMessage.
  destruct (prefill_local (clk e) text) as [out|]; [|reflexivity].
  destruct (LLM_SLOT_PREFILL e); [|reflexivity].
  unfold prefill_llm. destruct (extractBookingEntitiesLLM e text) as [llm|]; [|reflexivity].
  cbv zeta. rewrite low_confidence_without_a_score by (first [exact H | reflexivity]).
  reflexivity.
Qed.

Lemma llm_prefill_needs_zero_confidence_witness :
  LLM_SLOT_PREFILL Cases.llm_deployment = true
  /\ prefillFromMessage Cases.llm_deployment "book a table" "BOOK_TABLE"
     = Ok (MkPrefill None None None None None).
Proof.
  split; [reflexivity|].
  rewrite (llm_prefill_needs_zero_confidence Cases.llm_deployment "book a table" "BOOK_TABLE");
    vm_compute; reflexivity.
Defined.

End LlmPrefill.

(* ------------------------------------------------------------------ *)
(** ** Messenger ids and labels *)
(* ------------------------------------------------------------------ *)

Section SmallStores.
Import JS PsidMap Adapter.

Lemma find_upsert_same (r : Row) (t : Table) :
  find (fun x => String.eqb (psid x) (psid r)) (upsert r t) = Some r.
Proof.
  induction t as [|x t IH]; cbn [upsert find].
  - rewrite String.eqb_refl. reflexivity.
  - destruct (String.eqb (psid x) (psid r)) eqn:E; cbn [find].
    + rewrite String.eqb_refl. reflexivity.
    + rewrite E. exact IH.
Qed.

Lemma find_upsert_other (r : Row) (q : string) (t : Table) :
  q <> psid r ->
  find (fun x => String.eqb (psid x) q) (upsert r t) = find (fun x => String.eqb (psid x) q) t.
Proof.
  intros N. induction t as [|x t IH]; cbn [upsert find].
  - destruct (String.eqb_spec (psid r) q); [congruence | reflexivity].
  - destruct (String.eqb_spec (psid x) (psid r)) as [E | E]; cbn [find].
    + rewrite E. destruct (String.eqb_spec (psid r) q); [congruence | reflexivity].
    + destruct (String.eqb (psid x) q); [reflexivity | exact IH].
Qed.

Lemma upsert_keys (r : Row) (t : Table) (q : string) :
  In q (map psid (upsert r t)) <-> q = psid r \/ In q (map psid t).
Proof.
  induction t as [|x t IH]; cbn [upsert map In].
  - intuition congruence.
  - destruct (String.eqb_spec (psid x) (psid r)) as [E | E]; cbn [map In].
    + rewrite E. intuition congruence.
    + rewrite IH. intuition congruence.
Qed.

Lemma upsert_NoDup (r : Row) (t : Table) :
  NoDup (map psid t) -> NoDup (map psid (upsert r t)).
Proof.
  induction t as [|x t IH]; cbn [upsert map]; intros H.
  - constructor; [intros []|constructor].
  - inversion H as [|? ? Hx Ht]; subst.
    destruct (String.eqb_spec (psid x) (psid r)) as [E | E]; cbn [map].
    + constructor; [rewrite <- E; exact Hx | exact Ht].
    + constructor; [|exact (IH Ht)].
      rewrite upsert_keys. intros [F | F]; [congruence | exact (Hx F)].
Qed.

(** X27. [savePsidMapping] followed by [getConversationIdByPsid] for the
    same Messenger id gives the conversation that was saved, replacing an
    earlier one; with an empty id nothing is saved and the lookup gives
    null. The mappings of other ids are unchanged, and the table keeps at
    most one row per id. *)
Theorem psid_mapping_round_trip
  (p conversationId : string) (propertyId : option string) (t : Table) :
  let t' := savePsidMapping p conversationId propertyId t in
  getConversationIdByPsid p t' = (if truthy p then Some conversationId else None)
  /\ (forall q, q <> p -> getConversationIdByPsid q t' = getConversationIdByPsid q t)
  /\ (truthy p = false -> t' = t)
  /\ (NoDup (map psid t) -> NoDup (map psid t')).
Proof.
  cbv zeta. unfold savePsidMapping, getConversationIdByPsid.
  destruct (truthy p) eqn:T; cbn [negb].
  - split; [|split; [|split]].
    + pose proof (find_upsert_same (MkRow p conversationId (or_null propertyId)) t) as F.
      cbn [psid] in F. rewrite F. reflexivity.
    + intros q N. destruct (negb (truthy q)); [reflexivity|].
      pose proof (find_upsert_other (MkRow p conversationId (or_null propertyId)) q t N) as F.
      rewrite F. reflexivity.
    + discriminate.
    + apply upsert_NoDup.
  - split; [reflexivity|]. split; [reflexivity|]. split; [reflexivity|]. intros H; exact H.
Qed.

Lemma mem_in (x : string) (l : list string) : mem x l = true <-> In x l.
Proof.
  unfold mem. rewrite existsb_exists. split.
  - intros (y & Hy & E). apply String.eqb_eq in E. subst. exact Hy.
  - intros H. exists x. split; [exact H | apply String.eqb_refl].
Qed.

Lemma distinct_in (seen l : list string) (x : string) :
  In x (distinct seen l) <-> In x l /\ ~ In x seen.
Proof.
  revert seen. induction l as [|y l IH]; intros seen; cbn [distinct In]; [tauto|].
  destruct (mem y seen) eqn:M.
  - apply mem_in in M. rewrite IH. split.
    + intros [H N]. split; [right; exact H | exact N].
    + intros [[-> | H] N]; [contradiction | split; assumption].
  - assert (N : ~ In y seen) by (rewrite <- mem_in, M; discriminate).
    cbn [In]. rewrite IH. cbn [In]. split.
    + intros [<- | [H K]]; [tauto|]. split; [right; exact H | tauto].
    + intros [[<- | H] K]; [left; reflexivity|].
      destruct (string_dec y x) as [E | E]; [left; exact E | right; tauto].
Qed.

Lemma distinct_NoDup (seen l : list string) : NoDup (distinct seen l).
Proof.
  revert seen. induction l as [|y l IH]; intros seen; cbn [distinct]; [constructor|].
  destruct (mem y seen); [apply IH|]. constructor; [|apply IH].
  rewrite distinct_in. cbn [In]. tauto.
Qed.

Lemma distinct_fixed (seen l : list string) :
  NoDup l -> (forall x, In x l -> ~ In x seen) -> distinct seen l = l.
Proof.
  revert seen. induction l as [|y l IH]; intros seen D N; cbn [distinct]; [reflexivity|].
  inversion D as [|? ? Hy Hl]; subst.
  destruct (mem y seen) eqn:M.
  - apply mem_in in M. exfalso. exact (N y (or_introl eq_refl) M).
  - f_equal. apply IH; [exact Hl|].
    intros x Hx [<- | Hs]; [exact (Hy Hx) | exact (N x (or_intror Hx) Hs)].
Qed.

Lemma distinct_seen (seen l : list string) :
  (forall x, In x l -> In x seen) -> distinct seen l = [].
Proof.
  induction l as [|y l IH]; intros H; cbn [distinct]; [reflexivity|].
  assert (M : mem y seen = true) by (apply mem_in, H; left; reflexivity).
  rewrite M. apply IH. intros x Hx. apply H. right. exact Hx.
Qed.

Lemma distinct_prefix (seen l1 l2 : list string) :
  NoDup l1 -> (forall x, In x l1 -> ~ In x seen) ->
  exists added, distinct seen (l1 ++ l2) = (l1 ++ added)%list.
Proof.
  revert seen. induction l1 as [|y l1 IH]; intros seen D N; cbn [app distinct].
  - exists (distinct seen l2). reflexivity.
  - inversion D as [|? ? Hy Hl]; subst.
    destruct (mem y seen) eqn:M.
    + apply mem_in in M. exfalso. exact (N y (or_introl eq_refl) M).
    + destruct (IH (y :: seen) Hl) as (added & E).
      * intros x Hx [<- | Hs]; [exact (Hy Hx) | exact (N x (or_intror Hx) Hs)].
      * exists added. rewrite E. reflexivity.
Qed.

Lemma distinct_absorbs (seen l1 l2 : list string) :
  NoDup l1 -> (forall x, In x l1 -> ~ In x seen) ->
  (forall x, In x l2 -> In x l1 \/ In x seen) ->
  distinct seen (l1 ++ l2) = l1.
Proof.
  revert seen. induction l1 as [|y l1 IH]; intros seen D N A; cbn [app distinct].
  - apply distinct_seen. intros x Hx. destruct (A x Hx) as [[] | H]. exact H.
  - inversion D as [|? ? Hy Hl]; subst.
    destruct (mem y seen) eqn:M.
    + apply mem_in in M. exfalso. exact (N y (or_introl eq_refl) M).
    + f_equal. apply IH; [exact Hl | |].
      * intros x Hx [<- | Hs]; [exact (Hy Hx) | exact (N x (or_intror Hx) Hs)].
      * intros x Hx. destruct (A x Hx) as [[<- | H] | H].
        -- right. left. reflexivity.
        -- left. exact H.
        -- right. right. exact H.
Qed.

(** X28. The label list [addLabels] posts after reading the conversation
    holds every label the conversation had and every new one, each once,
    and nothing else; labels that were there (without repeats) come first
    in their order, so none is dropped; adding the same labels again
    gives the same list. *)
Theorem merged_labels_keep_everything_once (current labels : list string) :
  NoDup (merged current labels)
  /\ (forall l, In l (merged current labels) <-> In l current \/ In l labels)
  /\ (NoDup current -> exists added, merged current labels = (current ++ added)%list)
  /\ merged (merged current labels) labels = merged current labels.
Proof.
  assert (I : forall l, In l (merged current labels) <-> In l current \/ In l labels).
  { intros l. unfold merged. rewrite distinct_in, in_app_iff. cbn [In]. tauto. }
  split; [apply distinct_NoDup|]. split; [exact I|]. split.
  - intros D. apply distinct_prefix; [exact D | intros x _ []].
  - unfold merged at 1. apply distinct_absorbs.
    + apply distinct_NoDup.
    + intros x _ [].
    + intros x Hx. left. apply I. right. exact Hx.
Qed.

End SmallStores.

(* ------------------------------------------------------------------ *)
(** ** The Messenger webhook *)
(* ------------------------------------------------------------------ *)

Section MessengerWebhook.
Import JS World Config Escalation Decision Router Conduct Messenger.

Lemma within_refl (e : env) (pid : string) (cids : list string) (w : world) :
  within e pid cids w w.
Proof.
  split; [|split].
  - exists []. split; [symmetry; apply app_nil_r | constructor].
  - intros pid' cid' _. reflexivity.
  - intros cid' _. reflexivity.
Qed.

Lemma within_trans (e : env) (pid : string) (cids : list string) (w1 w2 w3 : world) :
  within e pid cids w1 w2 -> within e pid cids w2 w3 -> within e pid cids w1 w3.
Proof.
  intros [(l1 & E1 & F1) [S1 T1]] [(l2 & E2 & F2) [S2 T2]]. split; [|split].
  - exists (l1 ++ l2)%list. split.
    + rewrite E2, E1, app_assoc. reflexivity.
    + apply Forall_app. split; assumption.
  - intros pid' cid' N. rewrite (S2 pid' cid' N). exact (S1 pid' cid' N).
  - intros cid' N. rewrite (T2 cid' N). exact (T1 cid' N).
Qed.

Lemma confined_within (e : env) (pid cid : string) (cids : list string) (w w' : world) :
  In cid cids -> confined (about e cid) pid cid w w' -> within e pid cids w w'.
Proof.
  intros I [(l & E & F) [O S]]. split; [|split].
  - exists l. split; [exact E|].
    apply (Forall_impl _ (fun ef H => ex_intro _ cid (conj I H)) F).
  - intros pid' cid' N. apply (strangers_read pid cid); [|exact S].
    intros [= -> ->]. apply N. split; [reflexivity | exact I].
  - intros cid' N. apply (others_read cid cid' cid'); [|exact O].
    intros ->. exact (N I).
Qed.

Lemma saved_app (map : PsidMap.Table) (l1 l2 : list effect) :
  saved map (l1 ++ l2) = saved (saved map l1) l2.
Proof. unfold saved. apply fold_left_app. Qed.

Lemma lookup_after_save (p c : string) (pr : option string) (q c' : string)
  (t : PsidMap.Table) :
  PsidMap.getConversationIdByPsid q (PsidMap.savePsidMapping p c pr t) = Some c' ->
  c' = c \/ PsidMap.getConversationIdByPsid q t = Some c'.
Proof.
  unfold PsidMap.savePsidMapping. destruct (negb (truthy p)); [right; assumption|].
  unfold PsidMap.getConversationIdByPsid. destruct (negb (truthy q)); [discriminate|].
  destruct (string_dec q p) as [-> | N].
  - pose proof (find_upsert_same (PsidMap.MkRow p c (PsidMap.or_null pr)) t) as F.
    cbn [PsidMap.psid] in F. rewrite F. cbn. intros [= <-]. left. reflexivity.
  - pose proof (find_upsert_other (PsidMap.MkRow p c (PsidMap.or_null pr)) q t N) as F.
    rewrite F. right. assumption.
Qed.

(** Calls about a conversation add Messenger ids of that conversation only. *)
Lemma lookup_after_about (e : env) (c : string) (l : list effect) (known : PsidMap.Table)
  (q c' : string) :
  Forall (about e c) l ->
  PsidMap.getConversationIdByPsid q (saved known l) = Some c' ->
  c' = c \/ PsidMap.getConversationIdByPsid q known = Some c'.
Proof.
  intros F. revert known. induction F as [|ef l A F IH]; intros known; [right; assumption|].
  cbn [saved fold_left]. intros H. apply IH in H. destruct H as [H | H]; [left; exact H|].
  destruct ef; try (right; exact H).
  cbn [about] in A. destruct A as [<- _].
  exact (lookup_after_save _ _ _ _ _ _ H).
Qed.

Lemma target_lookup (known : PsidMap.Table) (m : Messaging) (c : string) :
  target known m = Some c <->
  exists psid, Service.nonempty (sender_id m) = Some psid
               /\ PsidMap.getConversationIdByPsid psid known = Some c /\ truthy c = true.
Proof.
  unfold target. destruct (Service.nonempty (sender_id m)) as [psid|].
  - split.
    + intros H. exists psid. split; [reflexivity|].
      destruct (PsidMap.getConversationIdByPsid psid known) as [x|]; [|discriminate H].
      cbn in H. destruct (truthy x) eqn:T; [|discriminate H]. injection H as <-.
      split; [reflexivity | exact T].
    + intros (p & [= <-] & G & T). rewrite G. cbn. rewrite T. reflexivity.
  - split; [discriminate | intros (p & H & _); discriminate H].
Qed.

Lemma handle_routes (e : env) (map : PsidMap.Table) (m : Messaging) (w : world) :
  handle e map m w
  = match target (saved map (log w)) m with
    | None => (Ret tt, w)
    | Some cid =>
        (routed <- intentRouter e (Webhook.settings e)
                     (MkEvent (Webhook.property e) cid (text_of m) "en") ;;
         if ok_with_intent routed then replyFromBot cid "Okay!" else ret tt) w
    end.
Proof.
  unfold handle, target. destruct (Service.nonempty (sender_id m)); [|reflexivity].
  unfold bind at 1, getConversationIdByPsid.
  destruct (Service.nonempty _); reflexivity.
Qed.

(** One routed message of conversation [cid], with the acknowledgement. *)
Lemma routed_confined (e : env) (cid text : string) (w : world) :
  confined (about e cid) (Webhook.property e) cid w
    (snd ((routed <- intentRouter e (Webhook.settings e)
                       (MkEvent (Webhook.property e) cid text "en") ;;
           if ok_with_intent routed then replyFromBot cid "Okay!" else ret tt) w)).
Proof.
  pose proof (about_intentRouter e (MkEvent (Webhook.property e) cid text "en")
                (Webhook.settings e) w) as H.
  cbn [conversationId propertyId] in H. unfold bind.
  destruct (intentRouter _ _ _ w) as [[r|] w1]; cbn [snd] in *; [|exact H].
  destruct (ok_with_intent r); [|exact H].
  refine (confined_trans _ _ _ _ _ _ H _).
  unfold replyFromBot, emit. cbn [snd]. split; [|split; reflexivity].
  exists [ReplyFromBot cid "Okay!" None]. split; [reflexivity|].
  constructor; [reflexivity | constructor].
Qed.

Lemma handle_step (e : env) (map : PsidMap.Table) (m : Messaging) (cids : list string)
  (w : world) :
  (forall c, target (saved map (log w)) m = Some c -> In c cids) ->
  within e (Webhook.property e) cids w (snd (handle e map m w))
  /\ forall q c',
       PsidMap.getConversationIdByPsid q (saved map (log (snd (handle e map m w)))) = Some c' ->
       In c' cids \/ PsidMap.getConversationIdByPsid q (saved map (log w)) = Some c'.
Proof.
  intros I. rewrite handle_routes.
  destruct (target (saved map (log w)) m) as [cid|]; cbn [snd].
  - specialize (I cid eq_refl).
    pose proof (routed_confined e cid (text_of m) w) as C.
    split; [exact (confined_within _ _ _ _ _ _ I C)|].
    destruct C as [(l & E & F) _]. intros q c'. rewrite E, saved_app. intros H.
    destruct (lookup_after_about _ _ _ _ _ _ F H) as [-> | G]; [left; exact I | right; exact G].
  - split; [apply within_refl | intros q c' H; right; exact H].
Qed.

Lemma each_within (e : env) (map : PsidMap.Table) (cids : list string)
  (ms : list Messaging) (w : world) :
  (forall m c, In m ms -> target (saved map (log w)) m = Some c -> In c cids) ->
  within e (Webhook.property e) cids w (snd (each e map ms w)).
Proof.
  revert w. induction ms as [|m ms IH]; intros w I; [apply within_refl|].
  cbn [each]. unfold bind.
  destruct (handle_step e map m cids w (fun c => I m c (or_introl eq_refl))) as [H G].
  destruct (handle e map m w) as [[u|] w1]; cbn [snd] in *; [|exact H].
  refine (within_trans _ _ _ _ _ _ H (IH w1 _)).
  intros m' c Hm T. apply target_lookup in T. destruct T as (psid & P & L & Tc).
  destruct (G psid c L) as [K | K]; [exact K|].
  apply (I m' c (or_intror Hm)). apply target_lookup. exists psid. repeat split; assumption.
Qed.

Lemma each_idle (e : env) (map : PsidMap.Table) (ms : list Messaging) (w : world) :
  targets (saved map (log w)) ms = [] -> each e map ms w = (Ret tt, w).
Proof.
  induction ms as [|m ms IH]; [reflexivity|]. unfold targets. cbn [flat_map each].
  intros H. apply app_eq_nil in H. destruct H as [H1 H2].
  unfold bind. rewrite handle_routes.
  destruct (target (saved map (log w)) m); [discriminate H1|]. exact (IH H2).
Qed.

Lemma targets_in (known : PsidMap.Table) (ms : list Messaging) (m : Messaging) (c : string) :
  In m ms -> target known m = Some c -> In c (targets known ms).
Proof.
  intros I T. unfold targets. apply in_flat_map. exists m. split; [exact I|].
  rewrite T. left. reflexivity.
Qed.

(** X29. The Messenger webhook handler never lets an exception escape.
    Every platform call it makes is about a conversation that the table of
    Messenger ids, as it stands when the batch arrives, maps a sender of
    the batch to; the state of no other (property, conversation) pair and
    the service flow of no other conversation id changes, also where
    routing one message saves a Messenger id that a later message of the
    batch is looked up with.  A body that is no page event, and a batch in
    which no sender has a mapping, change nothing at all. *)
Theorem messenger_stays_with_its_conversations
  (e : env) (map : PsidMap.Table) (is_page : bool) (entries : list (list Messaging))
  (w : world) :
  let cids := targets (saved map (log w)) (concat entries) in
  let out := messenger e map is_page entries w in
  (exists r, fst out = Ret r)
  /\ within e (Webhook.property e) cids w (snd out)
  /\ (is_page = false -> out = (Ret NotPageEvent, w))
  /\ (is_page = true -> cids = [] -> out = (Ret Done, w)).
Proof.
  cbv zeta. unfold messenger. destruct is_page; cbn [negb].
  - pose proof (each_within e map _ (concat entries) w
                  (fun m c => targets_in (saved map (log w)) (concat entries) m c)) as H.
    unfold catch, bind, ret.
    split; [|split; [|split]].
    + destruct (each e map (concat entries) w) as [[u|] w1]; eexists; reflexivity.
    + destruct (each e map (concat entries) w) as [[u|] w1]; exact H.
    + discriminate.
    + intros _ E. rewrite (each_idle e map _ w E). reflexivity.
  - split; [eexists; reflexivity|]. split; [apply within_refl|].
    split; [reflexivity | discriminate].
Qed.

(** X30. For a message of a mapped sender, the Messenger webhook routes
    the payload (or the text) as an event of the mapped conversation, and
    whenever the router returns an ok result with an intent (a service
    step, an answer, chit-chat or a pass-through) it then sends [Okay!] to
    the conversation, after whatever the router has sent already; after
    an escalation or a skip it adds nothing. *)
Theorem messenger_adds_okay_to_what_the_router_served
  (e : env) (map : PsidMap.Table) (m : Messaging) (w w1 : world) (cid : string)
  (routed : Routed) :
  target (saved map (log w)) m = Some cid ->
  intentRouter e (Webhook.settings e) (MkEvent (Webhook.property e) cid (text_of m) "en") w
  = (Ret routed, w1) ->
  messenger e map true [[m]] w
  = (Ret Done,
     if ok_with_intent routed
     then MkWorld (table w1) (log w1 ++ [ReplyFromBot cid "Okay!" None])
     else w1).
Proof.
  intros T H. unfold messenger. cbn [negb concat app each].
  unfold catch, bind at 1 2. rewrite handle_routes, T. unfold bind. rewrite H.
  destruct (ok_with_intent routed); reflexivity.
Qed.

Lemma messenger_adds_okay_to_what_the_router_served_witness :
  Scenario.last_reply
    (snd (messenger Scenario.deployment Cases.messenger_map true [[Cases.booking_button]]
            Scenario.fresh_world))
  = Some "Okay!".
Proof.
  rewrite (messenger_adds_okay_to_what_the_router_served Scenario.deployment
             Cases.messenger_map Cases.booking_button Scenario.fresh_world
             (Scenario.after "book a table" Scenario.fresh_world) Scenario.conv
             (Served SERVICE "service_from_welcome"));
    vm_compute; reflexivity.
Defined.

End MessengerWebhook.
